(** * kra-connect test-utils: the generators of [src/generators.ts]

    A shallow embedding of the test-data generators and of the format
    validators, with the properties of the specification stated over it.

    JavaScript numbers are IEEE-754 binary64 values.  They are modelled by
    the Standard Library's [spec_float] at precision 53 and maximal
    exponent 1024, so that every arithmetic step of the source rounds as it
    does in an engine.  Strings are [string]s; all code units the
    generators can emit lie in the ASCII range. *)

From Stdlib Require Import ZArith NArith List String Ascii Bool Lia.
From Stdlib Require Import Floats.SpecFloat.
From Stdlib Require Import DecimalString DecimalFacts DecimalPos DecimalN.
Import ListNotations.

Local Open Scope string_scope.
Local Open Scope Z_scope.

(** ** Numbers *)

Module JSNumber.

Definition number := spec_float.

Definition prec : Z := 53.
Definition emax : Z := 1024.

Definition mul : number -> number -> number := SFmul prec emax.
Definition add : number -> number -> number := SFadd prec emax.
Definition sub : number -> number -> number := SFsub prec emax.
Definition div : number -> number -> number := SFdiv prec emax.
Definition ltb : number -> number -> bool := SFltb.
Definition leb : number -> number -> bool := SFleb.

(** The number denoted by an integer literal: the nearest binary64 value. *)
Definition ofZ (z : Z) : number := binary_normalize prec emax z 0 false.

Definition NaN : number := S754_nan.

Definition is_finite (x : number) : bool :=
  match x with S754_zero _ | S754_finite _ _ _ => true | _ => false end.

(** [x % y] of the language: the remainder of the truncating division; it
    takes the sign of the dividend and is always exact. *)
Definition rem (n d : number) : number :=
  match n, d with
  | S754_nan, _ | _, S754_nan => S754_nan
  | S754_infinity _, _ => S754_nan
  | _, S754_zero _ => S754_nan
  | _, S754_infinity _ => n
  | S754_zero _, _ => n
  | S754_finite sn mn en, S754_finite _ md ed =>
      let ez := Z.min en ed in
      let a := Z.shiftl (Zpos mn) (en - ez) in
      let b := Z.shiftl (Zpos md) (ed - ez) in
      let r := Z.rem a b in
      if r =? 0 then S754_zero sn
      else binary_normalize prec emax (cond_Zopp sn r) ez false
  end.

(** [Math.floor]. *)
Definition floor (x : number) : number :=
  match x with
  | S754_finite s m e =>
      if 0 <=? e then x
      else
        let q := Z.shiftr (Zpos m) (- e) in
        let exact := Z.shiftl q (- e) =? Zpos m in
        if s then
          (if exact then ofZ (- q) else ofZ (- q - 1))
        else
          ofZ q
  | _ => x
  end.

(** The mathematical integer [truncate(x)] of a finite number. *)
Definition truncate (x : number) : Z :=
  match x with
  | S754_finite s m e =>
      cond_Zopp s (if 0 <=? e then Z.shiftl (Zpos m) e
                   else Z.shiftr (Zpos m) (- e))
  | _ => 0
  end.

(** [ToUint16], as [String.fromCharCode] applies it. *)
Definition ToUint16 (x : number) : Z :=
  match x with
  | S754_finite _ _ _ => (truncate x) mod 65536
  | _ => 0
  end.

(** Truthiness of a number: [NaN], [+0] and [-0] are falsy. *)
Definition truthy (x : number) : bool :=
  match x with
  | S754_nan | S754_zero _ => false
  | _ => true
  end.

End JSNumber.
Export JSNumber.

(** ** Strings *)

Module JSString.

(** Decimal digits of a natural number, without leading zeros. *)
Definition decimal (z : Z) : string :=
  NilZero.string_of_uint (N.to_uint (Z.to_N z)).

Fixpoint repeat_char (c : ascii) (n : nat) : string :=
  match n with
  | O => EmptyString
  | S n' => String c (repeat_char c n')
  end.

Definition zeros (n : Z) : string := repeat_char "0"%char (Z.to_nat n).

(** [s.padStart(len, "0")] with a one-character filler. *)
Definition padStart (len : nat) (fill : ascii) (s : string) : string :=
  append (repeat_char fill (len - String.length s)) s.

(** [s.slice(0, n)] for a non-negative [n]. *)
Definition slice0 (n : nat) (s : string) : string := substring 0 n s.

(** [String.fromCharCode(c)]: one code unit, [ToUint16 c].  A draw of
    magnitude below 1 gives a letter code between 39 and 90, and [NaN]
    gives 0, so the unit is a byte; larger units are reduced modulo 256. *)
Definition fromCharCode (c : number) : string :=
  String (ascii_of_N (Z.to_N (ToUint16 c))) EmptyString.

Definition number_eqb (x y : number) : bool :=
  match x, y with
  | S754_zero a, S754_zero b => Bool.eqb a b
  | S754_infinity a, S754_infinity b => Bool.eqb a b
  | S754_nan, S754_nan => true
  | S754_finite a m e, S754_finite b m' e' =>
      Bool.eqb a b && Pos.eqb m m' && Z.eqb e e'
  | _, _ => false
  end.

(** The number nearest to the ratio [a / b] of two positive integers: what
    reading a decimal numeral yields. *)
Definition ofRatio (a b : Z) : number :=
  match a, b with
  | Zpos pa, Zpos pb => div (S754_finite false pa 0) (S754_finite false pb 0)
  | _, _ => S754_zero false
  end.

(** [Number::toString] in radix 10.  For a positive finite [x] the
    language asks for integers [n], [k], [s] with [10^(k-1) <= s < 10^k],
    [s * 10^(n-k)] a numeral that reads back as [x], [k] as small as
    possible and, among several [s], the one nearest to [x]. *)
Section ShortestDigits.
Variables (x : number) (N D : Z).   (* x = N / D exactly *)

Fixpoint below_one (fuel : nat) (N' : Z) (n : Z) : Z :=
  match fuel with
  | O => n
  | S f => if D <=? N' then n else below_one f (10 * N') (n - 1)
  end.

Definition decade : Z :=
  if D <=? N then Z.of_nat (String.length (decimal (N / D)))
  else below_one 400 (10 * N) 0.

Definition reads_back (s t : Z) : bool :=
  number_eqb
    (if 0 <=? t then ofRatio s (10 ^ t) else ofRatio (s * 10 ^ (- t)) 1) x.

(** The digits for a given [k], when some [s] of [k] digits reads back. *)
Definition digits_at (n0 k : Z) : option (Z * Z) :=
  let t := k - n0 in
  let num := if 0 <=? t then N * 10 ^ t else N in
  let den := if 0 <=? t then D else D * 10 ^ (- t) in
  let lo := num / den in
  let r := num mod den in
  let hi := lo + 1 in
  let pick s := if s =? 10 ^ k then Some (s / 10, n0 + 1) else Some (s, n0) in
  if r =? 0 then pick lo
  else
    match reads_back lo t, reads_back hi t with
    | true, true =>
        match 2 * r ?= den with
        | Lt => pick lo
        | Gt => pick hi
        | Eq => if Z.even lo then pick lo else pick hi
        end
    | true, false => pick lo
    | false, true => pick hi
    | false, false => None
    end.

Fixpoint shortest (fuel : nat) (n0 k : Z) : Z * Z :=
  match fuel with
  | O => (0, n0)
  | S f =>
      match digits_at n0 k with
      | Some sn => sn
      | None => shortest f n0 (k + 1)
      end
  end.
End ShortestDigits.

Definition format_digits (ds : string) (n : Z) : string :=
  let k := Z.of_nat (String.length ds) in
  if (k <=? n) && (n <=? 21) then append ds (zeros (n - k))
  else if (0 <? n) && (n <=? 21) then
    append (substring 0 (Z.to_nat n) ds)
      (append "." (substring (Z.to_nat n) (Z.to_nat (k - n)) ds))
  else if (-6 <? n) && (n <=? 0) then
    append "0." (append (zeros (- n)) ds)
  else
    let e := n - 1 in
    let es := append (if e <? 0 then "-" else "+") (decimal (Z.abs e)) in
    if k =? 1 then append ds (append "e" es)
    else append (substring 0 1 ds)
           (append "." (append (substring 1 (Z.to_nat (k - 1)) ds)
                          (append "e" es))).

Definition toString_pos (m : positive) (e : Z) : string :=
  let x := S754_finite false m e in
  let N := if 0 <=? e then Z.shiftl (Zpos m) e else Zpos m in
  let D := if 0 <=? e then 1 else Z.shiftl 1 (- e) in
  let '(s, n) := shortest x N D 17 (decade N D) 1 in
  format_digits (decimal s) n.

Definition Number_toString (x : number) : string :=
  match x with
  | S754_nan => "NaN"
  | S754_zero _ => "0"
  | S754_infinity false => "Infinity"
  | S754_infinity true => "-Infinity"
  | S754_finite false m e => toString_pos m e
  | S754_finite true m e => append "-" (toString_pos m e)
  end.

End JSString.
Export JSString.

(** ** The platform: [Math.random], [Date.now] and the local time zone *)

Record World := mkWorld {
  entropy : nat -> number;   (* the successive results of [Math.random()] *)
  drawn : nat;               (* how many of them have been consumed *)
  now_ms : Z;                (* milliseconds since the epoch, [Date.now()] *)
  localTZA : Z -> Z          (* offset of local time at a given instant *)
}.

Definition Math_random (w : World) : number * World :=
  (entropy w (drawn w),
   mkWorld (entropy w) (S (drawn w)) (now_ms w) (localTZA w)).

Definition Date_now (w : World) : number := ofZ (now_ms w).

(** [Math.random] returns a number in the half-open interval [0, 1). *)
Definition unit_interval (r : number) : bool :=
  leb (ofZ 0) r && ltb r (ofZ 1).

(** ** The seeded generator, [seededRandom] *)

(** A [random] function is either [Math.random] or the closure returned
    by [seededRandom], which owns the mutable variable [value]. *)
Inductive Random :=
| PlatformRandom
| SeededClosure (value : number).

Definition seededRandom (seed : number) : Random := SeededClosure seed.

Definition lcg_step (value : number) : number :=
  rem (add (mul value (ofZ 9301)) (ofZ 49297)) (ofZ 233280).

(** One call [random()]: the number returned, the closure afterwards and
    the world afterwards. *)
Definition call (random : Random) (w : World) : number * Random * World :=
  match random with
  | PlatformRandom => let '(r, w') := Math_random w in (r, PlatformRandom, w')
  | SeededClosure value =>
      let value' := lcg_step value in
      (div value' (ofZ 233280), SeededClosure value', w)
  end.

(** [seed !== undefined ? seededRandom(seed) : Math.random] *)
Definition random_of (seed : option number) : Random :=
  match seed with
  | Some s => seededRandom s
  | None => PlatformRandom
  end.

(** The [n]-th number (from 0) emitted by [seededRandom(seed)]. *)
Fixpoint lcg_state (seed : number) (n : nat) : number :=
  match n with
  | O => lcg_step seed
  | S n' => lcg_step (lcg_state seed n')
  end.

Definition emitted (seed : number) (n : nat) : number :=
  div (lcg_state seed n) (ofZ 233280).

(** ** Scalar generators *)

Definition pin_digits (r : number) : string :=
  Number_toString (floor (add (mul r (ofZ 900000000)) (ofZ 100000000))).

Definition pin_letter (r : number) : string :=
  let letterCode := add (floor (mul r (ofZ 26))) (ofZ 65) in
  fromCharCode letterCode.

Definition generatePIN (seed : option number) (w : World) : string * World :=
  let random := random_of seed in
  let '(r1, random, w) := call random w in
  let digits := pin_digits r1 in
  let '(r2, random, w) := call random w in
  let letter := pin_letter r2 in
  (append "P" (append digits letter), w).

Definition tcc_digits (r : number) : string :=
  slice0 6 (Number_toString
              (floor (add (mul r (ofZ 90000000)) (ofZ 10000000)))).

Definition generateTCC (seed : option number) (w : World) : string * World :=
  let random := random_of seed in
  let '(r, random, w) := call random w in
  let digits := tcc_digits r in
  (append "TCC" digits, w).

Definition generateEslip (seed : option number) (w : World)
  : string * World :=
  let random := random_of seed in
  let '(r, random, w) := call random w in
  let digits := pin_digits r in
  (append "ESLIP" digits, w).

(** ** Validators: anchored patterns of character classes with bounded
    repetition, matched greedily with backtracking *)

Inductive charclass := Lit (c : ascii) | Digit | UpperAZ.

Definition in_class (k : charclass) (a : ascii) : bool :=
  match k with
  | Lit c => Ascii.eqb a c
  | Digit => (48 <=? Z.of_nat (nat_of_ascii a))
             && (Z.of_nat (nat_of_ascii a) <=? 57)
  | UpperAZ => (65 <=? Z.of_nat (nat_of_ascii a))
               && (Z.of_nat (nat_of_ascii a) <=? 90)
  end.

Record piece := Piece { cls : charclass; rmin : nat; rmax : nat }.

Fixpoint at_least (k : charclass) (n : nat) (cont : string -> bool)
  (s : string) : bool :=
  match n with
  | O => cont s
  | S n' =>
      match s with
      | String a s' => in_class k a && at_least k n' cont s'
      | EmptyString => false
      end
  end.

Fixpoint at_most (k : charclass) (n : nat) (cont : string -> bool)
  (s : string) : bool :=
  match n with
  | O => cont s
  | S n' =>
      match s with
      | String a s' => (in_class k a && at_most k n' cont s') || cont s
      | EmptyString => cont s
      end
  end.

Definition at_end (s : string) : bool :=
  match s with EmptyString => true | _ => false end.

Fixpoint matches (ps : list piece) (s : string) : bool :=
  match ps with
  | [] => at_end s
  | p :: ps' =>
      at_least (cls p) (rmin p)
        (at_most (cls p) (rmax p - rmin p) (matches ps')) s
  end.

Definition lit (c : ascii) : piece := Piece (Lit c) 1 1.

(** [/^P\d{9}[A-Z]$/] *)
Definition validatePINFormat (pin : string) : bool :=
  matches [lit "P"; Piece Digit 9 9; Piece UpperAZ 1 1] pin.

(** [/^TCC\d{6,8}$/] *)
Definition validateTCCFormat (tcc : string) : bool :=
  matches [lit "T"; lit "C"; lit "C"; Piece Digit 6 8] tcc.

(** [/^ESLIP\d{9,12}$/] *)
Definition validateEslipFormat (eslip : string) : bool :=
  matches [lit "E"; lit "S"; lit "L"; lit "I"; lit "P"; Piece Digit 9 12]
    eslip.

Example validate_doc_invalid : validatePINFormat "INVALID" = false.
Proof. reflexivity. Qed.
Example validate_tcc_5 : validateTCCFormat "TCC12345" = false.
Proof. reflexivity. Qed.
Example validate_eslip_9 : validateEslipFormat "ESLIP123456789" = true.
Proof. reflexivity. Qed.

(** ** Numerals: [toFixed] and [Number(string)] *)

Module Numeral.

(** [ToIntegerOrInfinity]; [None] stands for an infinite result. *)
Definition ToIntegerOrInfinity (x : number) : option Z :=
  match x with
  | S754_nan => Some 0
  | S754_infinity _ => None
  | _ => Some (truncate x)
  end.

(** The integer [n] for which [n / 10^f - x] is closest to zero, the
    larger one when two are equally close; [x = m * 2^e > 0]. *)
Definition nearest_scaled (m : positive) (e : Z) (f : Z) : Z :=
  if 0 <=? e then Z.shiftl (Zpos m) e * 10 ^ f
  else (2 * Zpos m * 10 ^ f + Z.shiftl 1 (- e)) / Z.shiftl 1 (1 - e).

(** The digits of [n] with a point before the last [f] of them. *)
Definition fixed_digits (n : Z) (f : nat) : string :=
  let m := decimal n in
  if Nat.eqb f 0 then m
  else
    let m := padStart (f + 1) "0" m in
    let k := String.length m in
    append (substring 0 (k - f) m) (append "." (substring (k - f) f m)).

(** [x.toFixed(fractionDigits)]; [None] is the [RangeError]. *)
Definition toFixed (x : number) (fractionDigits : number) : option string :=
  match ToIntegerOrInfinity fractionDigits with
  | None => None
  | Some f =>
      if (f <? 0) || (100 <? f) then None
      else
        match x with
        | S754_zero _ => Some (fixed_digits 0 (Z.to_nat f))
        | S754_finite s m e =>
            if leb (ofZ (10 ^ 21)) (SFabs x) then Some (Number_toString x)
            else
              Some (append (if s then "-" else "")
                      (fixed_digits (nearest_scaled m e f) (Z.to_nat f)))
        | _ => Some (Number_toString x)
        end
  end.

(** Splitting a string at the first occurrence of a character. *)
Fixpoint split_at (c : ascii) (s : string) : string * option string :=
  match s with
  | EmptyString => (EmptyString, None)
  | String a s' =>
      if Ascii.eqb a c then (EmptyString, Some s')
      else let '(l, r) := split_at c s' in (String a l, r)
  end.

Definition digits_value (s : string) : option Z :=
  match NilEmpty.uint_of_string s with
  | Some d => Some (Z.of_uint d)
  | None => None
  end.

Definition signed_value (s : string) : option Z :=
  match s with
  | String "-" t =>
      match t with
      | EmptyString => None
      | _ => option_map Z.opp (digits_value t)
      end
  | String "+" t =>
      match t with EmptyString => None | _ => digits_value t end
  | EmptyString => None
  | _ => digits_value s
  end.

(** The value of an unsigned decimal literal
    [digits [. digits] [e [+-] digits]]. *)
Definition unsigned_literal (neg : bool) (s : string) : number :=
  let '(mant, expo) := split_at "e" s in
  let '(ip, fp) := split_at "." mant in
  let fp := match fp with Some t => t | None => EmptyString end in
  let ex := match expo with Some t => signed_value t | None => Some 0 end in
  match ip, fp with
  | EmptyString, EmptyString => NaN
  | _, _ =>
      match digits_value (append ip fp), ex with
      | Some n, Some ex =>
          let t := ex - Z.of_nat (String.length fp) in
          if n =? 0 then S754_zero neg
          else
            let v := if 0 <=? t then ofRatio (n * 10 ^ t) 1
                     else ofRatio n (10 ^ (- t)) in
            if neg then SFopp v else v
      | _, _ => NaN
      end
  end.

(** [Number(s)] on the decimal literals of the language (the numerals
    that [toFixed] and [toString] produce); other strings give [NaN]. *)
Definition Number_ofString (s : string) : number :=
  let '(neg, body) :=
    match s with
    | String "-" t => (true, t)
    | String "+" t => (false, t)
    | _ => (false, s)
    end in
  if String.eqb body "Infinity" then S754_infinity neg
  else if String.eqb s "" then S754_zero false
  else unsigned_literal neg body.

End Numeral.
Export Numeral.

Example toFixed_half : toFixed (div (ofZ 5) (ofZ 2)) (ofZ 0) = Some "3".
Proof. vm_compute. reflexivity. Qed.
Example toFixed_range : toFixed (ofZ 1) (ofZ 101) = None.
Proof. vm_compute. reflexivity. Qed.
Example ofString_exp : Number_ofString "1e+21" = ofZ (10 ^ 21).
Proof. vm_compute. reflexivity. Qed.

(** ** Dates *)

Module JSDate.

(** A [Date] object holds a time value: an integral number of
    milliseconds since the epoch, or [NaN]. *)
Record Date := mkDate { time_value : number }.

Definition TimeClip (t : number) : number :=
  if negb (is_finite t) then NaN
  else if ltb (ofZ 8640000000000000) (SFabs t) then NaN
  else ofZ (truncate t).

(** [new Date(value)] for a number. *)
Definition new_Date (value : number) : Date := mkDate (TimeClip value).

Definition msPerDay : Z := 86400000.
Definition Day (t : Z) : Z := t / msPerDay.

Definition DayFromYear (y : Z) : Z :=
  365 * (y - 1970) + (y - 1969) / 4 - (y - 1901) / 100 + (y - 1601) / 400.

Definition DaysInYear (y : Z) : Z :=
  if negb (y mod 4 =? 0) then 365
  else if negb (y mod 100 =? 0) then 366
  else if negb (y mod 400 =? 0) then 365
  else 366.

Fixpoint year_down (fuel : nat) (d y : Z) : Z :=
  match fuel with
  | O => y
  | S f => if d <? DayFromYear y then year_down f d (y - 1) else y
  end.

Fixpoint year_up (fuel : nat) (d y : Z) : Z :=
  match fuel with
  | O => y
  | S f => if DayFromYear (y + 1) <=? d then year_up f d (y + 1) else y
  end.

(** The largest [y] whose first day is not after [t]. *)
Definition YearFromTime (t : Z) : Z :=
  let d := Day t in
  let est := 1970 + (d * 400) / 146097 in
  year_up 3 d (year_down 3 d est).

Definition InLeapYear (t : Z) : Z :=
  if DaysInYear (YearFromTime t) =? 366 then 1 else 0.

Definition DayWithinYear (t : Z) : Z := Day t - DayFromYear (YearFromTime t).

Definition MonthFromTime (t : Z) : Z :=
  let d := DayWithinYear t in
  let l := InLeapYear t in
  if d <? 31 then 0
  else if d <? 59 + l then 1
  else if d <? 90 + l then 2
  else if d <? 120 + l then 3
  else if d <? 151 + l then 4
  else if d <? 181 + l then 5
  else if d <? 212 + l then 6
  else if d <? 243 + l then 7
  else if d <? 273 + l then 8
  else if d <? 304 + l then 9
  else if d <? 334 + l then 10
  else 11.

Definition DateFromTime (t : Z) : Z :=
  let d := DayWithinYear t in
  let l := InLeapYear t in
  match MonthFromTime t with
  | 0 => d + 1
  | 1 => d - 30
  | 2 => d - 58 - l
  | 3 => d - 89 - l
  | 4 => d - 119 - l
  | 5 => d - 150 - l
  | 6 => d - 180 - l
  | 7 => d - 211 - l
  | 8 => d - 242 - l
  | 9 => d - 272 - l
  | 10 => d - 303 - l
  | _ => d - 333 - l
  end.

Section Local.
Variable w : World.

Definition LocalTime (t : Z) : Z := t + localTZA w t.

Definition local_field (f : Z -> Z) (d : Date) : number :=
  match time_value d with
  | S754_nan => NaN
  | t => ofZ (f (LocalTime (truncate t)))
  end.

Definition getFullYear : Date -> number := local_field YearFromTime.
Definition getMonth : Date -> number := local_field MonthFromTime.
Definition getDate : Date -> number := local_field DateFromTime.
End Local.

End JSDate.
Export JSDate.

(** ** Tax periods, amounts and dates *)

Definition generateTaxPeriod (yearsAgo : number) (month : option number)
  (w : World) : string * World :=
  let year := sub (getFullYear w (new_Date (Date_now w))) yearsAgo in
  let '(mon, w) :=
    match month with
    | Some m =>
        if truthy m then (m, w)
        else let '(r, w') := Math_random w in
             (add (floor (mul r (ofZ 12))) (ofZ 1), w')
    | None => let '(r, w') := Math_random w in
              (add (floor (mul r (ofZ 12))) (ofZ 1), w')
    end in
  (append (Number_toString year) (padStart 2 "0" (Number_toString mon)), w).

Definition generateAmount (min max decimals : number) (seed : option number)
  (w : World) : option number * World :=
  let random := random_of seed in
  let '(r, random, w) := call random w in
  let amount := add (mul r (sub max min)) min in
  (option_map Number_ofString (toFixed amount decimals), w).

Definition generateDate (daysAgo daysFuture : number) (seed : option number)
  (w : World) : Date * World :=
  let random := random_of seed in
  let now := Date_now w in
  let rangeMs :=
    mul (mul (mul (mul (add daysAgo daysFuture) (ofZ 24)) (ofZ 60)) (ofZ 60))
      (ofZ 1000) in
  let pastMs :=
    mul (mul (mul (mul daysAgo (ofZ 24)) (ofZ 60)) (ofZ 60)) (ofZ 1000) in
  let '(r, random, w) := call random w in
  let timestamp := add (sub now pastMs) (mul r rangeMs) in
  (new_Date timestamp, w).

Definition formatDate (w : World) (date : Date) : string :=
  let year := getFullYear w date in
  let month :=
    padStart 2 "0" (Number_toString (add (getMonth w date) (ofZ 1))) in
  let day := padStart 2 "0" (Number_toString (getDate w date)) in
  append (Number_toString year) (append "-" (append month (append "-" day))).

(** ** Bulk generators *)

(** How a call ends: with a value, or with the [RangeError] that an
    array of more than [2^32 - 1] elements raises. *)
Inductive completion (A : Type) : Type :=
| Returned (a : A)
| RangeError.
Arguments Returned {A} a.
Arguments RangeError {A}.

(** [ToLength]: the integer part, clamped to the interval from 0 to
    [2^53 - 1]. *)
Definition ToLength (x : number) : Z :=
  match ToIntegerOrInfinity x with
  | Some len => Z.max 0 (Z.min len (2 ^ 53 - 1))
  | None =>
      match x with
      | S754_infinity false => 2 ^ 53 - 1
      | _ => 0
      end
  end.

(** The largest length of an array. *)
Definition max_array_length : Z := 2 ^ 32 - 1.

(** A [Set] of strings in insertion order. *)
Definition Set_has (s : list string) (x : string) : bool :=
  existsb (String.eqb x) s.

Definition Set_add (s : list string) (x : string) : list string :=
  if Set_has s x then s else s ++ [x].

(** The calls of the mapping function for the indices [0], ..., [n - 1],
    in this order. *)
Fixpoint array_fill (n : nat) (gen : World -> string * World) (w : World)
  : list string * World :=
  match n with
  | O => ([], w)
  | S n' =>
      let '(x, w) := gen w in
      let '(xs, w) := array_fill n' gen w in
      (x :: xs, w)
  end.

(** [Array.from({ length: count }, () => gen())]: the length is
    [ToLength(count)]; the array is created before the first call of the
    mapping function, and its creation fails when the length exceeds
    [2^32 - 1]. *)
Definition array_from (count : number) (gen : World -> string * World)
  (w : World) : completion (list string) * World :=
  let len := ToLength count in
  if max_array_length <? len then (RangeError, w)
  else
    let '(xs, w) := array_fill (Z.to_nat len) gen w in
    (Returned xs, w).

(** [Array.from(set)]: the elements in insertion order.  The length of
    the array is set once the set is exhausted, and setting it fails when
    the set has more than [2^32 - 1] elements. *)
Definition array_from_set (set : list string) : completion (list string) :=
  if max_array_length <? Z.of_nat (List.length set) then RangeError
  else Returned set.

(** [while (set.size < count) set.add(gen())], with a bound on the number
    of iterations; [None] when the bound is exhausted. *)
Fixpoint fill_set (fuel : nat) (count : number)
  (gen : World -> string * World) (set : list string) (w : World)
  : option (list string * World) :=
  if ltb (ofZ (Z.of_nat (List.length set))) count then
    match fuel with
    | O => None
    | S fuel' =>
        let '(x, w) := gen w in
        fill_set fuel' count gen (Set_add set x) w
    end
  else Some (set, w).

(** A bulk generator: [count] is any number, [None] is a loop that has
    not ended within the bound. *)
Definition generateMany (gen : World -> string * World) (fuel : nat)
  (count : number) (unique : bool) (w : World)
  : option (completion (list string) * World) :=
  if negb unique then Some (array_from count gen w)
  else
    match fill_set fuel count gen [] w with
    | Some (set, w) => Some (array_from_set set, w)
    | None => None
    end.

Definition generatePINs := generateMany (generatePIN None).
Definition generateTCCs := generateMany (generateTCC None).
Definition generateEslips := generateMany (generateEslip None).

(** ** Arrays of strings and template literals *)

(** A number that is an integer: [Math.floor] leaves it as it is. *)
Definition is_integral (x : number) : bool := number_eqb (floor x) x.

(** [arr[i]] for a number [i]: the element at [i] when [i] is an integer
    within the bounds, [undefined] (here [None]) for every other key.
    The key of [-0] is "0". *)
Definition array_get (arr : list string) (i : number) : option string :=
  match i with
  | S754_zero _ => nth_error arr 0
  | S754_finite false _ _ =>
      if is_integral i then nth_error arr (Z.to_nat (truncate i)) else None
  | _ => None
  end.

(** [arr.length] *)
Definition array_length (arr : list string) : number :=
  ofZ (Z.of_nat (List.length arr)).

(** [arr[Math.floor(r * arr.length)]] *)
Definition pick (arr : list string) (r : number) : option string :=
  array_get arr (floor (mul r (array_length arr))).

(** A value placed in a template literal. *)
Definition interpolate (v : option string) : string :=
  match v with
  | Some s => s
  | None => "undefined"
  end.

(** Truthiness of a string or [undefined]. *)
Definition string_truthy (v : option string) : bool :=
  match v with
  | Some (String _ _) => true
  | _ => false
  end.

(** ** Taxpayer names *)

Inductive TaxpayerType := Individual | Company | Partnership.

Definition firstNames : list string :=
  ["John"; "Jane"; "David"; "Mary"; "Peter"; "Sarah"; "James"; "Alice";
   "Michael"; "Grace"].

Definition lastNames : list string :=
  ["Mwangi"; "Kamau"; "Ochieng"; "Wanjiku"; "Otieno"; "Njeri"; "Kipchoge";
   "Mutua"; "Omondi"; "Wambui"].

Definition prefixes : list string :=
  ["Acme"; "Kenya"; "East Africa"; "Nairobi"; "Savannah"; "Highland";
   "Coastal"; "Rift Valley"].

Definition types : list string :=
  ["Corporation"; "Traders"; "Solutions"; "Enterprises"; "Industries";
   "Coffee Co"; "Logistics"; "Services"].

Definition suffixes : list string := ["Ltd"; "Limited"; "Co"; EmptyString].

Definition names : list string :=
  ["Mwangi"; "Kamau"; "Ochieng"; "Kipchoge"; "Mutua"].

(** [generateTaxpayerName(type = 'company', seed)] *)
Definition generateTaxpayerName (type : option TaxpayerType)
  (seed : option number) (w : World) : string * World :=
  let type := match type with Some t => t | None => Company end in
  let random := random_of seed in
  match type with
  | Individual =>
      let '(r, random, w) := call random w in
      let firstName := pick firstNames r in
      let '(r, random, w) := call random w in
      let lastName := pick lastNames r in
      (append (interpolate firstName) (append " " (interpolate lastName)), w)
  | Company =>
      let '(r, random, w) := call random w in
      let prefix := pick prefixes r in
      let '(r, random, w) := call random w in
      let typeName := pick types r in
      let '(r, random, w) := call random w in
      let suffix := pick suffixes r in
      (if string_truthy suffix then
         append (interpolate prefix)
           (append " " (append (interpolate typeName)
                          (append " " (interpolate suffix))))
       else
         append (interpolate prefix) (append " " (interpolate typeName)),
       w)
  | Partnership =>
      let '(r, random, w) := call random w in
      let name1 := pick names r in
      let '(r, random, w) := call random w in
      let name2 := pick names r in
      (append (interpolate name1)
         (append " & " (append (interpolate name2) " Partners")), w)
  end.

(** ** Obligation identifiers, phone numbers and e-mail addresses *)

Definition obligation_digits (r : number) : string :=
  padStart 3 "0"
    (Number_toString (floor (add (mul r (ofZ 999)) (ofZ 1)))).

Definition generateObligationID (seed : option number) (w : World)
  : string * World :=
  let random := random_of seed in
  let '(r, random, w) := call random w in
  let num := obligation_digits r in
  (append "OBL" num, w).

(** Mobile prefixes. *)
Definition phone_prefixes : list string := ["7"; "1"].

Definition phone_digits (r : number) : string :=
  Number_toString (floor (add (mul r (ofZ 90000000)) (ofZ 10000000))).

Definition generatePhoneNumber (seed : option number) (w : World)
  : string * World :=
  let random := random_of seed in
  let '(r, random, w) := call random w in
  let prefix := pick phone_prefixes r in
  let '(r, random, w) := call random w in
  let digits := phone_digits r in
  (append "+254" (append (interpolate prefix) digits), w).

Definition email_number (r : number) : string :=
  Number_toString (floor (mul r (ofZ 1000000))).

(** [generateEmail(domain = 'example.com', seed)] *)
Definition generateEmail (domain : option string) (seed : option number)
  (w : World) : string * World :=
  let domain := match domain with Some d => d | None => "example.com" end in
  let random := random_of seed in
  let '(r, random, w) := call random w in
  let username := append "taxpayer" (email_number r) in
  (append username (append "@" domain), w).

(** * Vocabulary of the properties *)

(** ** A concrete platform, for examples

    [Math.random] replays the numbers of the seeded generator started at
    42, the clock reads 2026-11-01T15:20:00Z and local time is UTC. *)
Definition sample_world : World :=
  mkWorld (emitted (ofZ 42)) 0 1793546400000 (fun _ => 0).

(** A platform whose [Math.random] always returns one half. *)
Definition stuck_world : World :=
  mkWorld (fun _ => div (ofZ 1) (ofZ 2)) 0 0 (fun _ => 0).

(** The characters between the first and the last one. *)
Definition pin_digit_block (pin : string) : string :=
  substring 1 (String.length pin - 2) pin.

(** The characters after the five of "ESLIP". *)
Definition eslip_digit_block (eslip : string) : string :=
  substring 5 (String.length eslip - 5) eslip.

(** A bulk generator, as a function of the bound on its loop, the count,
    the flag and the platform. *)
Definition bulk_generator : Type :=
  nat -> number -> bool -> World
  -> option (completion (list string) * World).

(** The unique mode at an integer count [n]: whatever it returns has
    [n] elements, pairwise distinct. *)
Definition unique_contract (bulk : bulk_generator) (n : Z) : Prop :=
  forall fuel w l w',
    bulk fuel (ofZ n) true w = Some (Returned l, w') ->
    Z.of_nat (List.length l) = n /\ NoDup l.

(** The non-unique mode at an integer count [n]: it returns [n]
    elements. *)
Definition nonunique_contract (bulk : bulk_generator) (n : Z) : Prop :=
  forall fuel w, exists l w',
    bulk fuel (ofZ n) false w = Some (Returned l, w')
    /\ Z.of_nat (List.length l) = n.

(** Beyond the largest length of an array: the non-unique mode fails
    before any call of the generator, and the unique mode returns
    nothing. *)
Definition bulk_overflow (bulk : bulk_generator) (n : Z) : Prop :=
  (forall fuel w, bulk fuel (ofZ n) false w = Some (RangeError, w))
  /\ (forall fuel w l w',
        bulk fuel (ofZ n) true w = Some (Returned l, w') -> False).



(** The local year of the instant [Date.now()]. *)
Definition current_year (w : World) : number :=
  getFullYear w (new_Date (Date_now w)).

(** A number with at most [k] fractional digits: the number that a
    decimal numeral [n / 10^k] denotes. *)
Definition at_most_fraction_digits (k : Z) (x : number) : Prop :=
  exists n : Z, 0 < n /\ x = ofRatio n (10 ^ k).

(** * Vocabulary of the rounding proofs *)

(** The exponent of a binary64 number with a given number of digits
    before the binary point. *)
Definition fexp64 (e : Z) : Z := Z.max (e - 53) (-1074).

(** The record that locates the ratio [a / b] between two consecutive
    integers: its floor, whether it is at or above the midpoint, and
    whether it is strictly inside one of the two halves. *)
Definition rec_of (a b : Z) : shr_record :=
  Build_shr_record (a / b) (b <=? 2 * (a mod b))
    (negb (a mod b =? 0) && negb (2 * (a mod b) =? b)).

(** The integer nearest to a located ratio, the even one on a tie. *)
Definition rne (rec : shr_record) : Z :=
  round_nearest_even (shr_m rec) (loc_of_shr_record rec).

(** After rounding: one more shift if the mantissa gained a digit, then
    the classification of the result. *)
Definition finish (s : bool) (R e1 : Z) : number :=
  let e2 := Z.max e1 (fexp64 (Zdigits2 R + e1)) in
  match R / 2 ^ (e2 - e1) with
  | Z0 => S754_zero s
  | Zpos m =>
      if e2 <=? emax - prec then S754_finite s m e2 else S754_infinity s
  | Zneg _ => S754_nan
  end.

(** [x] has sign [s], an exponent of at most [K] and a magnitude between
    [A * 2^K] and [B * 2^K]. *)
Definition in_range (s : bool) (K A B : Z) (x : number) : Prop :=
  match x with
  | S754_zero s' => s' = s /\ A <= 0 <= B
  | S754_finite s' m e =>
      s' = s /\ e <= K /\ A * 2 ^ (K - e) <= Zpos m <= B * 2 ^ (K - e)
  | _ => False
  end.

(** [x] has sign [s], an exponent of at most [K] and a magnitude strictly
    below [B * 2^K]. *)
Definition below (s : bool) (K B : Z) (x : number) : Prop :=
  match x with
  | S754_zero s' => s' = s /\ 0 < B
  | S754_finite s' m e => s' = s /\ e <= K /\ Zpos m < B * 2 ^ (K - e)
  | _ => False
  end.

(** Strings of decimal digits. *)
Fixpoint all_digits (s : string) : bool :=
  match s with
  | EmptyString => true
  | String c s' => in_class Digit c && all_digits s'
  end.

(** A decimal number with [j] more leading zeros. *)
Fixpoint lead_zeros (j : nat) (d : Decimal.uint) : Decimal.uint :=
  match j with
  | O => d
  | S j' => Decimal.D0 (lead_zeros j' d)
  end.

(** The binary64 form of an integer [z] with [0 < z < 2^53]: a mantissa
    of 53 digits. *)
Definition canon (z : Z) : number :=
  S754_finite false (Z.to_pos (z * 2 ^ (53 - Zdigits2 z))) (Zdigits2 z - 53).

(** The state of the seeded generator over the integers: [%] is the
    remainder of the truncating division. *)
Definition lcg_int (v : Z) : Z := Z.rem (v * 9301 + 49297) 233280.

Fixpoint lcg_int_state (seed : Z) (n : nat) : Z :=
  match n with
  | O => lcg_int seed
  | S n' => lcg_int (lcg_int_state seed n')
  end.

(** The [k] least significant decimal digits of [n], least significant
    first. *)
Definition digit_cons (r : N) (l : Decimal.uint) : Decimal.uint :=
  match r with
  | 0%N => Decimal.D0 l
  | 1%N => Decimal.D1 l
  | 2%N => Decimal.D2 l
  | 3%N => Decimal.D3 l
  | 4%N => Decimal.D4 l
  | 5%N => Decimal.D5 l
  | 6%N => Decimal.D6 l
  | 7%N => Decimal.D7 l
  | 8%N => Decimal.D8 l
  | _ => Decimal.D9 l
  end.

Fixpoint little_digits (k : nat) (n : N) : Decimal.uint :=
  match k with
  | O => Decimal.Nil
  | S k' => digit_cons (n mod 10) (little_digits k' (n / 10))
  end.

(** * Vocabulary of the further properties *)

(** The [n]-th number (from 0) that successive calls of [random] return. *)
Fixpoint nth_draw (random : Random) (w : World) (n : nat) : number :=
  match n with
  | O => fst (fst (call random w))
  | S n' => let '(_, random', w') := call random w in nth_draw random' w' n'
  end.

(** A number of the interval [0, 1), as a binary64 value. *)
Definition unit_number (r : number) : Prop :=
  valid_binary prec emax r = true /\ unit_interval r = true.

(** The first [k] draws of [random] are numbers of [0, 1). *)
Definition unit_draws (k : nat) (random : Random) (w : World) : Prop :=
  forall n, (n < k)%nat -> unit_number (nth_draw random w n).

(** [Math.random] keeps to its contract at every call. *)
Definition fair_platform (w : World) : Prop :=
  forall n, unit_number (entropy w n).

(** The shape of a taxpayer name of each type: words of the fixed
    corpora, joined as the type asks. *)
Definition taxpayer_name_shape (t : TaxpayerType) (name : string) : Prop :=
  match t with
  | Individual =>
      exists f l, In f firstNames /\ In l lastNames
        /\ name = append f (append " " l)
  | Company =>
      exists p t s, In p prefixes /\ In t types /\ In s suffixes
        /\ name = if String.eqb s EmptyString
                  then append p (append " " t)
                  else append p (append " " (append t (append " " s)))
  | Partnership =>
      exists a b, In a names /\ In b names
        /\ name = append a (append " & " (append b " Partners"))
  end.

(** Strings whose characters all belong to a class. *)
Fixpoint all_class (k : charclass) (s : string) : bool :=
  match s with
  | EmptyString => true
  | String c s' => in_class k c && all_class k s'
  end.

(** The ten digits, and all the strings of [k] digits. *)
Definition digit_chars : list ascii :=
  ["0"; "1"; "2"; "3"; "4"; "5"; "6"; "7"; "8"; "9"]%char.

Fixpoint digit_words (k : nat) : list string :=
  match k with
  | O => [EmptyString]
  | S k' => flat_map (fun c => map (String c) (digit_words k')) digit_chars
  end.

(** The instant of a date in local time, in milliseconds. *)
Definition local_instant (w : World) (date : Date) : Z :=
  LocalTime w (truncate (time_value date)).

(** [/^\d{4}-\d{2}-\d{2}$/] *)
Definition is_date_string (s : string) : bool :=
  matches [Piece Digit 4 4; lit "-"; Piece Digit 2 2; lit "-";
           Piece Digit 2 2] s.

(** A string padded with zeros on the left to two characters. *)
Definition zero_padded_2 (s : string) : string :=
  match s with
  | EmptyString => "00"
  | String c EmptyString => String "0" (String c EmptyString)
  | _ => s
  end.

(** The decimal digits of a positive integer, with a zero before a
    single digit. *)
Definition two_digits (z : Z) : string :=
  if z <? 10 then String "0" (decimal z) else decimal z.

(** * Sanity checks of the model against values an engine prints *)

Example ofZ_1000 : ofZ 1000 = S754_finite false 8796093022208000 (-43).
Proof. reflexivity. Qed.

Example floor_neg : floor (div (ofZ (-7)) (ofZ 2)) = ofZ (-4).
Proof. vm_compute. reflexivity. Qed.

Example rem_neg : rem (ofZ (-6509)) (ofZ 233280) = ofZ (-6509).
Proof. vm_compute. reflexivity. Qed.

Example rem_pos : rem (ofZ 500000) (ofZ 233280) = ofZ 33440.
Proof. vm_compute. reflexivity. Qed.

Example toString_int : Number_toString (ofZ 748885460) = "748885460".
Proof. vm_compute. reflexivity. Qed.

Example toString_tenth :
  Number_toString (div (ofZ 1) (ofZ 10)) = "0.1".
Proof. vm_compute. reflexivity. Qed.

Example toString_sum :
  Number_toString (add (div (ofZ 1) (ofZ 10)) (div (ofZ 2) (ofZ 10)))
  = "0.30000000000000004".
Proof. vm_compute. reflexivity. Qed.

Example toString_large : Number_toString (ofZ (10 ^ 21)) = "1e+21".
Proof. vm_compute. reflexivity. Qed.

Example toString_small :
  Number_toString (div (ofZ 1) (ofZ 10000000)) = "1e-7".
Proof. vm_compute. reflexivity. Qed.

Example toString_neg : Number_toString (div (ofZ (-3)) (ofZ 2)) = "-1.5".
Proof. vm_compute. reflexivity. Qed.

Example validate_doc_pin : validatePINFormat "P051234567A" = true.
Proof. reflexivity. Qed.

Example validate_tcc_6 : validateTCCFormat "TCC123456" = true.
Proof. reflexivity. Qed.

Example validate_tcc_9 : validateTCCFormat "TCC123456789" = false.
Proof. reflexivity. Qed.

Example validate_eslip_x : validateEslipFormat "ESLIPX" = false.
Proof. reflexivity. Qed.

Example toFixed_round : toFixed (div (ofZ 1234567) (ofZ 1000)) (ofZ 2)
                        = Some "1234.57".
Proof. vm_compute. reflexivity. Qed.

Example toFixed_small : toFixed (div (ofZ (-1)) (ofZ 1000)) (ofZ 2)
                        = Some "-0.00".
Proof. vm_compute. reflexivity. Qed.

Example ofString_fixed :
  Number_ofString "1234.57" = div (ofZ 123457) (ofZ 100).
Proof. vm_compute. reflexivity. Qed.

Example ofString_bad : Number_ofString "12a" = NaN.
Proof. vm_compute. reflexivity. Qed.

(** ** Strings *)

Section StringFacts.

Lemma length_append (a b : string) :
  String.length (append a b) = (String.length a + String.length b)%nat.
Proof. induction a as [|c a IH]; cbn; [reflexivity | now rewrite IH]. Qed.

Lemma substring_all (a : string) : substring 0 (String.length a) a = a.
Proof. induction a as [|c a IH]; cbn; [reflexivity | now rewrite IH]. Qed.

Lemma substring_prefix (a b : string) :
  substring 0 (String.length a) (append a b) = a.
Proof.
  induction a as [|c a IH]; cbn.
  - destruct b; reflexivity.
  - now rewrite IH.
Qed.


Lemma fromCharCode_length (c : number) : String.length (fromCharCode c) = 1%nat.
Proof. reflexivity. Qed.

End StringFacts.

(** * Rounding to nearest: what [binary_round_aux] computes

    The operations of [SpecFloat] are given by algorithms on mantissas.
    This part relates them to the exact values they round, far enough to
    bound the results of [mul], [add] and [div]. *)

Module Rounding.

(** *** Number of binary digits *)

Lemma digits2_size (p : positive) : digits2_pos p = Pos.size p.
Proof. induction p as [p IH | p IH |]; cbn; now rewrite ?IH. Qed.

Lemma digits_bounds (p : positive) :
  2 ^ (Zpos (digits2_pos p) - 1) <= Zpos p < 2 ^ Zpos (digits2_pos p).
Proof.
  rewrite digits2_size. split.
  - pose proof (Pos.size_le p) as H.
    assert (H2 : 2 ^ Zpos (Pos.size p) <= 2 * Zpos p).
    { change (2 * Zpos p) with (Zpos p~0).
      rewrite <- Pos2Z.inj_pow. apply Pos2Z.pos_le_pos. exact H. }
    replace (Zpos (Pos.size p)) with (Zpos (Pos.size p) - 1 + 1) in H2 by lia.
    rewrite Z.pow_add_r in H2 by lia. lia.
  - pose proof (Pos.size_gt p) as H.
    rewrite <- Pos2Z.inj_pow. apply Pos2Z.pos_lt_pos. exact H.
Qed.

Lemma Zdigits2_nonneg (z : Z) : 0 <= Zdigits2 z.
Proof. destruct z; cbn; lia. Qed.

(** A non-negative integer below [2^n] has at most [n] digits. *)
Lemma Zdigits2_le (z n : Z) : 0 <= n -> 0 <= z < 2 ^ n -> Zdigits2 z <= n.
Proof.
  intros Hn [Hz Hlt]. destruct z as [|p|p]; cbn; [lia | | lia].
  destruct (Z_le_gt_dec (Zpos (digits2_pos p)) n) as [H | H]; [exact H |].
  pose proof (digits_bounds p) as [Hlo _].
  assert (2 ^ n <= 2 ^ (Zpos (digits2_pos p) - 1))
    by (apply Z.pow_le_mono_r; lia).
  lia.
Qed.

(** An integer of at least [2^n] has more than [n] digits. *)
Lemma Zdigits2_gt (z n : Z) : 0 <= n -> 2 ^ n <= z -> n < Zdigits2 z.
Proof.
  intros Hn Hz.
  assert (0 < 2 ^ n) by (apply Z.pow_pos_nonneg; lia).
  destruct z as [|p|p]; [lia | | lia]. cbn.
  destruct (Z_lt_le_dec n (Zpos (digits2_pos p))) as [H0 | H0]; [exact H0 |].
  pose proof (digits_bounds p) as [_ Hhi].
  assert (2 ^ Zpos (digits2_pos p) <= 2 ^ n)
    by (apply Z.pow_le_mono_r; lia).
  lia.
Qed.

(** *** Shifting with a round bit and a sticky bit *)


Lemma rec_of_exact (m : Z) : rec_of m 1 = Build_shr_record m false false.
Proof.
  unfold rec_of. rewrite Z.div_1_r, Z.mod_1_r. reflexivity.
Qed.

Lemma shr_1_nonneg (m : Z) (r s : bool) :
  0 <= m ->
  shr_1 (Build_shr_record m r s)
  = Build_shr_record (m / 2) (Z.odd m) (r || s).
Proof.
  intro Hm. destruct m as [|p|p]; [reflexivity | | lia].
  destruct p as [p | p |]; cbn [shr_1 Z.odd].
  - f_equal. change (Zpos p~1) with (2 * Zpos p + 1).
    apply (Z.div_unique_pos _ _ _ 1); lia.
  - f_equal. change (Zpos p~0) with (2 * Zpos p).
    apply (Z.div_unique_pos _ _ _ 0); lia.
  - reflexivity.
Qed.

Lemma div_mod_double (a b : Z) :
  0 <= a -> 0 < b ->
  a / (2 * b) = (a / b) / 2
  /\ a mod (2 * b) = ((a / b) mod 2) * b + a mod b.
Proof.
  intros Ha Hb.
  pose proof (Z.div_mod a b ltac:(lia)) as E1.
  pose proof (Z.mod_pos_bound a b Hb) as B1.
  pose proof (Z.div_mod (a / b) 2 ltac:(lia)) as E2.
  pose proof (Z.mod_pos_bound (a / b) 2 ltac:(lia)) as B2.
  set (q := a / b) in *. set (r := a mod b) in *.
  set (q2 := q / 2) in *. set (q1 := q mod 2) in *.
  assert (E : a = 2 * b * q2 + (q1 * b + r)) by nia.
  assert (B : 0 <= q1 * b + r < 2 * b) by nia.
  split.
  - symmetry. apply (Z.div_unique_pos _ _ _ (q1 * b + r)); assumption.
  - symmetry. apply (Z.mod_unique_pos _ _ q2); assumption.
Qed.

Lemma shr_1_rec_of (a b : Z) :
  0 <= a -> 0 < b -> shr_1 (rec_of a b) = rec_of a (2 * b).
Proof.
  intros Ha Hb. unfold rec_of at 1.
  rewrite shr_1_nonneg by (apply Z.div_pos; lia).
  destruct (div_mod_double a b Ha Hb) as [Ed Em].
  pose proof (Z.mod_pos_bound a b Hb) as B1.
  pose proof (Z.mod_pos_bound (a / b) 2 ltac:(lia)) as B2.
  unfold rec_of. rewrite Ed, Em.
  set (q := a / b) in *. set (r := a mod b) in *.
  assert (Hodd : Z.odd q = (q mod 2 =? 1)).
  { rewrite Zmod_odd. destruct (Z.odd q); reflexivity. }
  rewrite Hodd.
  assert (Hc : q mod 2 = 0 \/ q mod 2 = 1) by lia.
  destruct Hc as [Hc | Hc]; rewrite Hc; cbn [Z.eqb Pos.eqb];
    rewrite ?Z.mul_0_l, ?Z.mul_1_l, ?Z.add_0_l; f_equal;
    destruct (Z.leb_spec b (2 * r)); destruct (Z.eqb_spec r 0);
    destruct (Z.eqb_spec (2 * r) b);
    try destruct (Z.leb_spec (2 * b) (2 * r));
    try destruct (Z.eqb_spec (2 * r) (2 * b));
    try destruct (Z.leb_spec (2 * b) (2 * (b + r)));
    try destruct (Z.eqb_spec (b + r) 0);
    try destruct (Z.eqb_spec (2 * (b + r)) (2 * b));
    cbn; try reflexivity; exfalso; lia.
Qed.

Lemma pow2_xI (p : positive) :
  2 ^ Zpos p~1 = 2 * (2 ^ Zpos p * 2 ^ Zpos p).
Proof.
  replace (Zpos p~1) with (Zpos p + Zpos p + 1) by lia.
  rewrite !Z.pow_add_r by lia. change (2 ^ 1) with 2. ring.
Qed.

Lemma pow2_xO (p : positive) : 2 ^ Zpos p~0 = 2 ^ Zpos p * 2 ^ Zpos p.
Proof.
  replace (Zpos p~0) with (Zpos p + Zpos p) by lia.
  now rewrite Z.pow_add_r by lia.
Qed.

Lemma iter_shr_1_rec_of (p : positive) :
  forall a b, 0 <= a -> 0 < b ->
    iter_pos shr_1 p (rec_of a b) = rec_of a (b * 2 ^ Zpos p).
Proof.
  induction p as [p IH | p IH |]; intros a b Ha Hb; cbn [iter_pos].
  - assert (0 < 2 ^ Zpos p) by (apply Z.pow_pos_nonneg; lia).
    rewrite shr_1_rec_of, IH, IH by nia.
    rewrite pow2_xI. f_equal. ring.
  - assert (0 < 2 ^ Zpos p) by (apply Z.pow_pos_nonneg; lia).
    rewrite IH, IH by nia.
    rewrite pow2_xO. f_equal. ring.
  - rewrite shr_1_rec_of by assumption. f_equal. change (2 ^ 1) with 2. ring.
Qed.

(** Shifting by any amount: nothing happens for a non-positive amount. *)
Lemma shr_rec_of (a b e n : Z) :
  0 <= a -> 0 < b ->
  shr (rec_of a b) e n
  = (rec_of a (b * 2 ^ Z.max 0 n), e + Z.max 0 n).
Proof.
  intros Ha Hb. destruct n as [|p|p]; cbn [shr].
  - cbn. now rewrite Z.mul_1_r, Z.add_0_r.
  - rewrite iter_shr_1_rec_of by assumption.
    replace (Z.max 0 (Zpos p)) with (Zpos p) by lia. reflexivity.
  - replace (Z.max 0 (Zneg p)) with 0 by lia.
    cbn. now rewrite Z.mul_1_r, Z.add_0_r.
Qed.

(** *** Rounding the located ratio to the nearest integer *)


Lemma rne_nearest (a b : Z) :
  0 <= a -> 0 < b ->
  a / b <= rne (rec_of a b) <= a / b + 1
  /\ - b <= 2 * (rne (rec_of a b) * b - a) <= b.
Proof.
  intros Ha Hb.
  pose proof (Z.div_mod a b ltac:(lia)) as E.
  pose proof (Z.mod_pos_bound a b Hb) as B.
  unfold rne, rec_of. cbn [shr_m loc_of_shr_record].
  set (q := a / b) in *. set (r := a mod b) in *.
  destruct (Z.leb_spec b (2 * r)); destruct (Z.eqb_spec r 0);
    destruct (Z.eqb_spec (2 * r) b); cbn [negb andb round_nearest_even];
    try destruct (Z.even q); nia.
Qed.

Lemma rne_nonneg (a b : Z) : 0 <= a -> 0 < b -> 0 <= rne (rec_of a b).
Proof.
  intros Ha Hb. pose proof (rne_nearest a b Ha Hb) as [[H _] _].
  pose proof (Z.div_pos a b Ha Hb). lia.
Qed.

(** *** The two stages of [binary_round_aux] *)


Lemma fexp_fexp64 (e : Z) : fexp prec emax e = fexp64 e.
Proof. reflexivity. Qed.


(** [binary_round_aux] on a mantissa and location that stand for the
    ratio [a / b]: the exponent is raised to the one fit for the number of
    digits, the ratio at that exponent is rounded to the nearest integer,
    and the result is finished as above. *)
Lemma binary_round_aux_spec (s : bool) (mx ex : Z) (lx : location)
  (a b : Z) :
  0 <= a -> 0 < b ->
  shr_record_of_loc mx lx = rec_of a b ->
  binary_round_aux prec emax s mx ex lx
  = let e1 := Z.max ex (fexp64 (Zdigits2 mx + ex)) in
    finish s (rne (rec_of a (b * 2 ^ (e1 - ex)))) e1.
Proof.
  intros Ha Hb Hrec. unfold binary_round_aux, shr_fexp.
  rewrite Hrec, shr_rec_of by assumption.
  rewrite fexp_fexp64.
  set (n := fexp64 (Zdigits2 mx + ex) - ex).
  assert (He1 : Z.max ex (fexp64 (Zdigits2 mx + ex)) = ex + Z.max 0 n)
    by (unfold n; lia).
  cbv zeta. rewrite He1.
  replace (ex + Z.max 0 n - ex) with (Z.max 0 n) by lia.
  set (b' := b * 2 ^ Z.max 0 n).
  assert (Hb' : 0 < b').
  { unfold b'. apply Z.mul_pos_pos; [exact Hb |].
    apply Z.pow_pos_nonneg; lia. }
  fold (rne (rec_of a b')).
  pose proof (rne_nonneg a b' Ha Hb') as HR.
  set (R := rne (rec_of a b')) in *.
  set (e1 := ex + Z.max 0 n).
  change (shr_record_of_loc R loc_Exact) with (Build_shr_record R false false).
  rewrite <- rec_of_exact, shr_rec_of by lia.
  rewrite fexp_fexp64. unfold finish.
  set (n2 := fexp64 (Zdigits2 R + e1) - e1).
  assert (He2 : Z.max e1 (fexp64 (Zdigits2 R + e1)) = e1 + Z.max 0 n2)
    by (unfold n2; lia).
  cbv zeta. rewrite He2.
  replace (e1 + Z.max 0 n2 - e1) with (Z.max 0 n2) by lia.
  unfold rec_of. cbn [shr_m]. rewrite Z.mul_1_l. reflexivity.
Qed.

(** *** Bounds on the result *)



Lemma pow2_pos (n : Z) : 0 <= n -> 0 < 2 ^ n.
Proof. intro. apply Z.pow_pos_nonneg; lia. Qed.

Lemma pow2_split (x y z : Z) :
  x <= y -> y <= z -> 2 ^ (z - x) = 2 ^ (z - y) * 2 ^ (y - x).
Proof.
  intros. rewrite <- Z.pow_add_r by lia. f_equal. lia.
Qed.

(** The exponent chosen for a mantissa below [2^53 * 2^(K - e)] is at most
    [K]. *)
Lemma fexp64_le (R e K T : Z) :
  e <= K -> -1074 <= K -> 0 <= R -> 0 <= T < 2 ^ 53 ->
  R <= T * 2 ^ (K - e) ->
  fexp64 (Zdigits2 R + e) <= K.
Proof.
  intros He HK HR HT Hle. unfold fexp64.
  assert (Hd : Zdigits2 R <= 53 + (K - e)).
  { apply Zdigits2_le; [lia |]. split; [exact HR |].
    rewrite Z.pow_add_r by lia.
    pose proof (pow2_pos (K - e) ltac:(lia)). nia. }
  lia.
Qed.

Lemma finish_in_range (s : bool) (R e1 K A B : Z) :
  e1 <= K -> -1074 <= K <= 971 -> 0 <= A -> B < 2 ^ 53 ->
  A * 2 ^ (K - e1) <= R <= B * 2 ^ (K - e1) ->
  in_range s K A B (finish s R e1).
Proof.
  intros He1 HK HA HB HR.
  pose proof (pow2_pos (K - e1) ltac:(lia)) as HJ.
  assert (HR0 : 0 <= R) by nia.
  assert (HB0 : 0 <= B) by nia.
  pose proof (fexp64_le R e1 K B He1 ltac:(lia) HR0 ltac:(lia) ltac:(lia))
    as Hf.
  unfold finish. cbv zeta.
  set (e2 := Z.max e1 (fexp64 (Zdigits2 R + e1))).
  assert (He2 : e1 <= e2 <= K) by (unfold e2; lia).
  pose proof (pow2_split e1 e2 K ltac:(lia) ltac:(lia)) as Hs.
  pose proof (pow2_pos (K - e2) ltac:(lia)) as HJ2.
  pose proof (pow2_pos (e2 - e1) ltac:(lia)) as HP.
  set (J2 := 2 ^ (K - e2)) in *. set (P := 2 ^ (e2 - e1)) in *.
  rewrite Hs in HR.
  assert (Hlo : A * J2 <= R / P)
    by (apply Z.div_le_lower_bound; [exact HP | nia]).
  assert (Hhi : R / P <= B * J2)
    by (apply Z.div_le_upper_bound; [exact HP | nia]).
  destruct (R / P) as [|m|m] eqn:E.
  - cbn. split; [reflexivity |]. split; nia.
  - replace (e2 <=? emax - prec) with true
      by (symmetry; apply Z.leb_le; unfold emax, prec; lia).
    cbn. split; [reflexivity |]. split; [lia |]. fold J2. lia.
  - lia.
Qed.

Lemma finish_below (s : bool) (R e1 K B : Z) :
  e1 <= K -> -1074 <= K <= 971 -> 0 < B <= 2 ^ 53 ->
  0 <= R < B * 2 ^ (K - e1) ->
  below s K B (finish s R e1).
Proof.
  intros He1 HK HB HR.
  pose proof (pow2_pos (K - e1) ltac:(lia)) as HJ.
  assert (Hf : fexp64 (Zdigits2 R + e1) <= K).
  { unfold fexp64.
    assert (Hd : Zdigits2 R <= 53 + (K - e1)).
    { apply Zdigits2_le; [lia |]. split; [lia |].
      rewrite Z.pow_add_r by lia. nia. }
    lia. }
  unfold finish. cbv zeta.
  set (e2 := Z.max e1 (fexp64 (Zdigits2 R + e1))).
  assert (He2 : e1 <= e2 <= K) by (unfold e2; lia).
  pose proof (pow2_split e1 e2 K ltac:(lia) ltac:(lia)) as Hs.
  pose proof (pow2_pos (K - e2) ltac:(lia)) as HJ2.
  pose proof (pow2_pos (e2 - e1) ltac:(lia)) as HP.
  set (J2 := 2 ^ (K - e2)) in *. set (P := 2 ^ (e2 - e1)) in *.
  rewrite Hs in HR.
  assert (Hhi : R / P < B * J2)
    by (apply Z.div_lt_upper_bound; [exact HP | nia]).
  destruct (R / P) as [|m|m] eqn:E.
  - cbn. split; [reflexivity | lia].
  - replace (e2 <=? emax - prec) with true
      by (symmetry; apply Z.leb_le; unfold emax, prec; lia).
    cbn. split; [reflexivity |]. split; [lia |]. fold J2. lia.
  - pose proof (Z.div_pos R P ltac:(lia) HP). lia.
Qed.

Section Round.
Variables (s : bool) (mx ex : Z) (lx : location) (a b K : Z).
Hypothesis Ha : 0 <= a.
Hypothesis Hb : 0 < b.
Hypothesis Hrec : shr_record_of_loc mx lx = rec_of a b.
Hypothesis Hex : ex <= K.
Hypothesis HK : -1074 <= K <= 971.

Lemma mantissa_is_floor : mx = a / b.
Proof.
  assert (H : shr_m (shr_record_of_loc mx lx) = a / b)
    by (rewrite Hrec; reflexivity).
  destruct lx as [|[]]; exact H.
Qed.

(** If the exact value lies between [A * 2^K] and [B * 2^K], so does the
    rounded one. *)
Lemma round_in_range (A B : Z) :
  0 <= A -> B < 2 ^ 53 ->
  A * 2 ^ (K - ex) * b <= a <= B * 2 ^ (K - ex) * b ->
  in_range s K A B (binary_round_aux prec emax s mx ex lx).
Proof.
  intros HA HB Hab.
  rewrite (binary_round_aux_spec s mx ex lx a b Ha Hb Hrec). cbv zeta.
  pose proof (pow2_pos (K - ex) ltac:(lia)) as HJ0.
  assert (HB0 : 0 <= B) by nia.
  assert (Hmx : 0 <= mx <= B * 2 ^ (K - ex)).
  { rewrite mantissa_is_floor. split; [apply Z.div_pos; lia |].
    apply Z.div_le_upper_bound; [exact Hb | nia]. }
  pose proof (fexp64_le mx ex K B Hex ltac:(lia) ltac:(lia) ltac:(lia)
                ltac:(lia)) as Hf.
  set (e1 := Z.max ex (fexp64 (Zdigits2 mx + ex))).
  assert (He1 : ex <= e1 <= K) by (unfold e1; lia).
  apply finish_in_range; try lia.
  pose proof (pow2_split ex e1 K ltac:(lia) ltac:(lia)) as Hs.
  pose proof (pow2_pos (K - e1) ltac:(lia)) as HJ.
  pose proof (pow2_pos (e1 - ex) ltac:(lia)) as HP.
  set (b' := b * 2 ^ (e1 - ex)).
  assert (Hb' : 0 < b') by (unfold b'; nia).
  pose proof (rne_nearest a b' Ha Hb') as [_ Hn].
  set (R := rne (rec_of a b')) in *.
  rewrite Hs in Hab.
  set (J := 2 ^ (K - e1)) in *. set (P := 2 ^ (e1 - ex)) in *.
  assert (Hab' : A * J * b' <= a <= B * J * b') by (unfold b'; nia).
  split; nia.
Qed.

(** If the exact value is less than [(B - 1/2) * 2^K], the rounded one is
    strictly below [B * 2^K]. *)
Lemma round_below (B : Z) :
  0 < B <= 2 ^ 53 ->
  2 * a < (2 * B - 1) * 2 ^ (K - ex) * b ->
  below s K B (binary_round_aux prec emax s mx ex lx).
Proof.
  intros HB Hab.
  rewrite (binary_round_aux_spec s mx ex lx a b Ha Hb Hrec). cbv zeta.
  pose proof (pow2_pos (K - ex) ltac:(lia)) as HJ0.
  assert (Hmx : 0 <= mx < 2 ^ 53 * 2 ^ (K - ex)).
  { rewrite mantissa_is_floor. split; [apply Z.div_pos; lia |].
    apply Z.div_lt_upper_bound; [exact Hb | nia]. }
  assert (Hf : fexp64 (Zdigits2 mx + ex) <= K).
  { unfold fexp64.
    assert (Hd : Zdigits2 mx <= 53 + (K - ex)).
    { apply Zdigits2_le; [lia |]. rewrite Z.pow_add_r by lia. lia. }
    lia. }
  set (e1 := Z.max ex (fexp64 (Zdigits2 mx + ex))).
  assert (He1 : ex <= e1 <= K) by (unfold e1; lia).
  pose proof (pow2_split ex e1 K ltac:(lia) ltac:(lia)) as Hs.
  pose proof (pow2_pos (K - e1) ltac:(lia)) as HJ.
  pose proof (pow2_pos (e1 - ex) ltac:(lia)) as HP.
  set (b' := b * 2 ^ (e1 - ex)).
  assert (Hb' : 0 < b') by (unfold b'; nia).
  pose proof (rne_nearest a b' Ha Hb') as [_ Hn].
  pose proof (rne_nonneg a b' Ha Hb') as HR0.
  apply finish_below; try lia.
  set (R := rne (rec_of a b')) in *.
  rewrite Hs in Hab.
  set (J := 2 ^ (K - e1)) in *. set (P := 2 ^ (e1 - ex)) in *.
  assert (Hab' : 2 * a < (2 * B - 1) * J * b') by (unfold b'; nia).
  split; [exact HR0 |].
  assert (H4 : 2 * R * b' < ((2 * B - 1) * J + 1) * b') by nia.
  assert (H5 : 2 * R < (2 * B - 1) * J + 1).
  { apply Z.mul_lt_mono_pos_r with (p := b'); [exact Hb' | exact H4]. }
  nia.
Qed.

End Round.

(** *** Multiplication and addition of positive numbers *)

Lemma mul_finite (sx sy : bool) (mx my : positive) (ex ey : Z) :
  mul (S754_finite sx mx ex) (S754_finite sy my ey)
  = binary_round_aux prec emax (xorb sx sy) (Zpos (mx * my)) (ex + ey)
      loc_Exact.
Proof. reflexivity. Qed.

Lemma exact_rec (m : Z) : shr_record_of_loc m loc_Exact = rec_of m 1.
Proof. now rewrite rec_of_exact. Qed.

Lemma iter_xO (m d : positive) :
  Zpos (Pos.iter xO m d) = Zpos m * 2 ^ Zpos d.
Proof.
  induction d as [|d IH] using Pos.peano_ind.
  - cbn. lia.
  - rewrite Pos.iter_succ, Pos2Z.inj_succ, Z.pow_succ_r by lia.
    rewrite Pos2Z.inj_xO, IH. ring.
Qed.

Lemma shl_align_spec (m : positive) (e e' : Z) :
  snd (shl_align m e e') = Z.min e e'
  /\ Zpos (fst (shl_align m e e'))
     = Zpos m * 2 ^ (e - snd (shl_align m e e')).
Proof.
  unfold shl_align. destruct (e' - e) as [|d|d] eqn:E; cbn [fst snd].
  - split; [lia |]. rewrite Z.sub_diag. cbn. lia.
  - split; [lia |]. rewrite Z.sub_diag. cbn. lia.
  - split; [lia |]. rewrite iter_xO. f_equal. f_equal. lia.
Qed.

Lemma binary_round_in_range (s : bool) (m : positive) (e K A B : Z) :
  e <= K -> -1074 <= K <= 971 -> 0 <= A -> B < 2 ^ 53 ->
  A * 2 ^ (K - e) <= Zpos m <= B * 2 ^ (K - e) ->
  in_range s K A B (binary_round prec emax s m e).
Proof.
  intros He HK HA HB Hm. unfold binary_round.
  pose proof (shl_align_spec m e (fexp prec emax (Zpos (digits2_pos m) + e)))
    as [Hez Hmz].
  destruct (shl_align m e (fexp prec emax (Zpos (digits2_pos m) + e)))
    as [mz ez]. cbn [fst snd] in *.
  assert (Hle : ez <= e) by lia.
  pose proof (pow2_split ez e K ltac:(lia) ltac:(lia)) as Hs.
  pose proof (pow2_pos (K - e) ltac:(lia)).
  pose proof (pow2_pos (e - ez) ltac:(lia)).
  apply (round_in_range s (Zpos mz) ez loc_Exact (Zpos mz) 1 K);
    try lia; [apply exact_rec |].
  rewrite Hs, Hmz. nia.
Qed.

Lemma add_finite_in_range (m1 m2 : positive) (e1 e2 K A B : Z) :
  Z.min e1 e2 <= K -> -1074 <= K <= 971 -> 0 <= A -> B < 2 ^ 53 ->
  A * 2 ^ (K - Z.min e1 e2)
  <= Zpos m1 * 2 ^ (e1 - Z.min e1 e2) + Zpos m2 * 2 ^ (e2 - Z.min e1 e2)
  <= B * 2 ^ (K - Z.min e1 e2) ->
  in_range false K A B
    (add (S754_finite false m1 e1) (S754_finite false m2 e2)).
Proof.
  intros He HK HA HB Hsum. unfold add, SFadd. cbv zeta.
  set (ez := Z.min e1 e2) in *.
  pose proof (shl_align_spec m1 e1 ez) as [H1e H1m].
  pose proof (shl_align_spec m2 e2 ez) as [H2e H2m].
  replace (snd (shl_align m1 e1 ez)) with ez in H1m by (unfold ez in *; lia).
  replace (snd (shl_align m2 e2 ez)) with ez in H2m by (unfold ez in *; lia).
  cbn [cond_Zopp]. rewrite H1m, H2m.
  pose proof (pow2_pos (e1 - ez) ltac:(unfold ez; lia)).
  pose proof (pow2_pos (e2 - ez) ltac:(unfold ez; lia)).
  destruct (Zpos m1 * 2 ^ (e1 - ez) + Zpos m2 * 2 ^ (e2 - ez))
    as [|S|S] eqn:ES; [nia | | nia].
  cbn [binary_normalize].
  apply binary_round_in_range; assumption.
Qed.

(** *** Numbers in the unit interval *)

Lemma ofZ_1 : ofZ 1 = S754_finite false 4503599627370496 (-52).
Proof. reflexivity. Qed.

Lemma valid_mantissa (s : bool) (m : positive) (e : Z) :
  valid_binary prec emax (S754_finite s m e) = true ->
  Zpos m < 2 ^ 53 /\ e = fexp64 (Zpos (digits2_pos m) + e) /\ e <= 971.
Proof.
  cbn [valid_binary]. unfold bounded, canonical_mantissa.
  rewrite andb_true_iff, Z.eqb_eq, Z.leb_le, fexp_fexp64.
  intros [Hc Hb]. pose proof (digits_bounds m) as [_ Hhi].
  assert (Hd : Zpos (digits2_pos m) <= 53) by (unfold fexp64 in Hc; lia).
  assert (2 ^ Zpos (digits2_pos m) <= 2 ^ 53)
    by (apply Z.pow_le_mono_r; lia).
  unfold emax, prec in Hb. repeat split; lia.
Qed.

(** A valid number of the unit interval is a zero or a positive number of
    at most [1 - 2^-53]. *)
Lemma unit_interval_cases (r : number) :
  valid_binary prec emax r = true ->
  unit_interval r = true ->
  (exists s, r = S754_zero s)
  \/ (exists m e, r = S754_finite false m e /\ e <= -52
                  /\ Zpos m * 2 ^ 53 <= (2 ^ 53 - 1) * 2 ^ (- e)).
Proof.
  intros Hv Hu. unfold unit_interval in Hu.
  apply andb_true_iff in Hu as [H0 H1].
  destruct r as [s | s | | s m e].
  - left. now exists s.
  - destruct s; discriminate.
  - discriminate.
  - right. destruct s; [discriminate |]. exists m, e.
    split; [reflexivity |].
    apply valid_mantissa in Hv as [Hm _].
    rewrite ofZ_1 in H1. unfold ltb, SFltb in H1. cbn [SFcompare] in H1.
    destruct (Z.compare_spec e (-52)) as [E | E | E]; try discriminate.
    + subst e. split; [lia |].
      rewrite Pos.compare_cont_spec in H1. cbn [Pos.switch_Eq] in H1.
      destruct (Pos.compare_spec m 4503599627370496) as [E | E | E];
        try discriminate.
      change (2 ^ (- -52)) with 4503599627370496.
      change (2 ^ 53) with 9007199254740992.
      apply Pos2Z.pos_lt_pos in E. lia.
    + split; [lia |].
      assert (Hp : 2 ^ (- e) = 2 ^ 53 * 2 ^ (- e - 53))
        by (rewrite <- Z.pow_add_r by lia; f_equal; lia).
      pose proof (pow2_pos (- e - 53) ltac:(lia)).
      rewrite Hp. change (2 ^ 53) with 9007199254740992 in *. nia.
Qed.

(** [Math.floor] of a positive number below an integer [n]. *)
Lemma floor_below (n : Z) (x : number) (K : Z) :
  K < 0 -> below false K (n * 2 ^ (- K)) x ->
  exists q, 0 <= q < n /\ (floor x = ofZ q).
Proof.
  intros HK Hx. destruct x as [s | s | | s m e]; cbn in Hx; try contradiction.
  - destruct Hx as [-> Hn]. exists 0.
    pose proof (pow2_pos (- K) ltac:(lia)). split; [nia | reflexivity].
  - destruct Hx as [-> [He Hm]].
    unfold floor. replace (0 <=? e) with false
      by (symmetry; apply Z.leb_gt; lia).
    exists (Z.shiftr (Zpos m) (- e)). split; [| reflexivity].
    rewrite Z.shiftr_div_pow2 by lia.
    pose proof (pow2_pos (- e) ltac:(lia)) as HP.
    assert (Hs : 2 ^ (- e) = 2 ^ (- K) * 2 ^ (K - e))
      by (rewrite <- Z.pow_add_r by lia; f_equal; lia).
    split; [apply Z.div_pos; lia |].
    apply Z.div_lt_upper_bound; [exact HP |]. rewrite Hs. lia.
Qed.

Lemma mul_12_below (r : number) :
  valid_binary prec emax r = true -> unit_interval r = true ->
  (exists s, r = S754_zero s)
  \/ below false (-49) (12 * 2 ^ (- -49)) (mul r (ofZ 12)).
Proof.
  intros Hv Hu.
  destruct (unit_interval_cases r Hv Hu)
    as [[s ->] | [m [e [-> [He Hm]]]]]; [left; now exists s | right].
  change (ofZ 12) with (S754_finite false 6755399441055744 (-49)).
  rewrite mul_finite. cbn [xorb].
  apply (round_below false _ _ loc_Exact (Zpos (m * 6755399441055744)) 1);
    [lia | lia | apply exact_rec | lia | lia | |].
  - change (2 ^ (- -49)) with 562949953421312.
    change (2 ^ 53) with 9007199254740992. lia.
  - replace (-49 - (e + -49)) with (- e) by lia.
    change (2 ^ (- -49)) with 562949953421312.
    change (2 ^ 53) with 9007199254740992 in Hm.
    rewrite Pos2Z.inj_mul. pose proof (pow2_pos (- e) ltac:(lia)). nia.
Qed.

Lemma add_1_table (q : Z) :
  0 <= q < 12 -> add (ofZ q) (ofZ 1) = ofZ (q + 1).
Proof.
  intro H.
  assert (C : q = 0 \/ q = 1 \/ q = 2 \/ q = 3 \/ q = 4 \/ q = 5 \/ q = 6
              \/ q = 7 \/ q = 8 \/ q = 9 \/ q = 10 \/ q = 11) by lia.
  repeat destruct C as [C | C]; subst q; vm_compute; reflexivity.
Qed.

(** The month drawn by [Math.floor(Math.random() * 12) + 1]. *)
Lemma random_month (r : number) :
  valid_binary prec emax r = true -> unit_interval r = true ->
  exists k, 1 <= k <= 12 /\ add (floor (mul r (ofZ 12))) (ofZ 1) = ofZ k.
Proof.
  intros Hv Hu. destruct (mul_12_below r Hv Hu) as [[s ->] | Hb].
  - exists 1. split; [lia |]. destruct s; vm_compute; reflexivity.
  - apply (floor_below 12) in Hb; [| lia].
    destruct Hb as [q [Hq ->]]. exists (q + 1). split; [lia |].
    now apply add_1_table.
Qed.

End Rounding.

(** * The amount [random() * (max - min) + min] for 1000 and 2000 *)

Module AmountBounds.
Import Rounding.

Lemma ofZ_1000_bits : ofZ 1000 = S754_finite false 8796093022208000 (-43).
Proof. reflexivity. Qed.

Lemma span_1000 : sub (ofZ 2000) (ofZ 1000) = ofZ 1000.
Proof. vm_compute. reflexivity. Qed.

Lemma mul_1000_in_range (r : number) :
  valid_binary prec emax r = true -> unit_interval r = true ->
  (exists s, r = S754_zero s)
  \/ in_range false 0 0 1000 (mul r (ofZ 1000)).
Proof.
  intros Hv Hu.
  destruct (unit_interval_cases r Hv Hu)
    as [[s ->] | [m [e [-> [He Hm]]]]]; [left; now exists s | right].
  rewrite ofZ_1000_bits, mul_finite. cbn [xorb].
  apply (round_in_range false _ _ loc_Exact (Zpos (m * 8796093022208000)) 1);
    [lia | lia | apply exact_rec | lia | lia | lia | | ].
  - change (2 ^ 53) with 9007199254740992. lia.
  - replace (0 - (e + -43)) with (43 - e) by lia.
    assert (Hp : 2 ^ (43 - e) = 8796093022208 * 2 ^ (- e)).
    { change 8796093022208 with (2 ^ 43).
      rewrite <- Z.pow_add_r by lia. f_equal; lia. }
    rewrite Hp, Pos2Z.inj_mul.
    change (2 ^ 53) with 9007199254740992 in Hm.
    pose proof (pow2_pos (- e) ltac:(lia)). nia.
Qed.

(** The amount lies between 1000 and 2000. *)
Lemma amount_in_range (r : number) :
  valid_binary prec emax r = true -> unit_interval r = true ->
  in_range false 0 1000 2000
    (add (mul r (sub (ofZ 2000) (ofZ 1000))) (ofZ 1000)).
Proof.
  intros Hv Hu. rewrite span_1000.
  destruct (mul_1000_in_range r Hv Hu) as [[s ->] | H].
  - destruct s; vm_compute; repeat split; discriminate.
  - destruct (mul r (ofZ 1000)) as [s | s | | s m1 e1]; cbn [in_range] in H;
      try contradiction.
    + destruct H as [-> _]. vm_compute. repeat split; discriminate.
    + destruct H as [-> [He1 Hm1]]. rewrite ofZ_1000_bits.
      replace (0 - e1) with (- e1) in Hm1 by lia.
      pose proof (pow2_pos (- e1) ltac:(lia)) as HP.
      apply add_finite_in_range; [lia | lia | lia | lia |].
      destruct (Z_le_gt_dec e1 (-43)) as [Hc | Hc].
      * replace (Z.min e1 (-43)) with e1 by lia.
           rewrite Z.sub_diag, Z.sub_0_l. change (2 ^ 0) with 1.
           assert (Hs : 2 ^ (- e1) = 8796093022208 * 2 ^ (-43 - e1)).
           { change 8796093022208 with (2 ^ 43).
             rewrite <- Z.pow_add_r by lia. f_equal; lia. }
           pose proof (pow2_pos (-43 - e1) ltac:(lia)). nia.
      * replace (Z.min e1 (-43)) with (-43) by lia.
           rewrite Z.sub_diag.
           change (2 ^ 0) with 1. change (2 ^ (0 - -43)) with 8796093022208.
           assert (Hs : 8796093022208 = 2 ^ (- e1) * 2 ^ (e1 - -43)).
           { change 8796093022208 with (2 ^ 43).
             rewrite <- Z.pow_add_r by lia. f_equal; lia. }
           pose proof (pow2_pos (e1 - -43) ltac:(lia)). nia.
Qed.

(** The integer that [toFixed(2)] prints, for a number between 1000 and
    2000. *)
Lemma nearest_scaled_range (m : positive) (e : Z) :
  in_range false 0 1000 2000 (S754_finite false m e) ->
  100000 <= nearest_scaled m e 2 <= 200000.
Proof.
  cbn [in_range]. intros [_ [He Hm]].
  replace (0 - e) with (- e) in Hm by lia.
  unfold nearest_scaled. change (10 ^ 2) with 100.
  destruct (Z.leb_spec 0 e) as [H0 | H0].
  - assert (e = 0) by lia. subst e. cbn in Hm. rewrite Z.shiftl_0_r. lia.
  - rewrite !Z.shiftl_1_l.
    pose proof (pow2_pos (- e) ltac:(lia)) as HP.
    assert (Hs : 2 ^ (1 - e) = 2 * 2 ^ (- e)).
    { replace (1 - e) with (1 + - e) by lia.
      now rewrite Z.pow_add_r by lia. }
    rewrite Hs. split.
    + apply Z.div_le_lower_bound; lia.
    + apply Z.lt_succ_r. apply Z.div_lt_upper_bound; lia.
Qed.

Lemma toFixed_2 (m : positive) (e : Z) :
  e <= 0 ->
  toFixed (S754_finite false m e) (ofZ 2)
  = Some (fixed_digits (nearest_scaled m e 2) 2).
Proof.
  intro He. unfold toFixed.
  change (ToIntegerOrInfinity (ofZ 2)) with (Some 2). cbv iota.
  change ((2 <? 0) || (100 <? 2)) with false. cbv iota.
  change (ofZ (10 ^ 21))
    with (S754_finite false 7629394531250000 17).
  unfold leb, SFleb. cbn [SFabs SFcompare].
  replace (17 ?= e) with Gt by (symmetry; apply Z.compare_gt_iff; lia).
  reflexivity.
Qed.

End AmountBounds.

(** * Reading back what [toFixed] prints *)

Module NumeralFacts.


Lemma string_of_uint_digits (d : Decimal.uint) :
  all_digits (NilEmpty.string_of_uint d) = true.
Proof. induction d; cbn; auto. Qed.

Lemma all_digits_append (a b : string) :
  all_digits (append a b) = all_digits a && all_digits b.
Proof.
  induction a as [|c a IH]; cbn; [reflexivity |].
  now rewrite IH, andb_assoc.
Qed.

Lemma substring_split (n : nat) (s : string) :
  (n <= String.length s)%nat ->
  append (substring 0 n s) (substring n (String.length s - n) s) = s.
Proof.
  revert s. induction n as [|n IH]; intros s H.
  - cbn. rewrite Nat.sub_0_r.
    destruct s; cbn; [reflexivity |]. now rewrite substring_all.
  - destruct s as [|c s]; cbn in *; [lia |]. rewrite IH by lia. reflexivity.
Qed.

Lemma substring_length (n k : nat) (s : string) :
  (n + k <= String.length s)%nat -> String.length (substring n k s) = k.
Proof.
  revert n k. induction s as [|c s IH]; intros n k H; cbn in H.
  - assert (n = O) by lia. assert (k = O) by lia. subst. reflexivity.
  - destruct n as [|n]; cbn.
    + destruct k as [|k]; cbn; [reflexivity |].
      rewrite IH by lia. reflexivity.
    + apply IH. lia.
Qed.

(** No digit is a sign, a point, an exponent mark or the letter of
    "Infinity". *)
Lemma digit_is_plain (c : ascii) :
  in_class Digit c = true ->
  Ascii.eqb c "e" = false /\ Ascii.eqb c "." = false
  /\ Ascii.eqb c "-" = false /\ Ascii.eqb c "+" = false
  /\ Ascii.eqb c "I" = false.
Proof.
  destruct c as [[|] [|] [|] [|] [|] [|] [|] [|]]; cbn;
    intro H; try discriminate H; repeat split; reflexivity.
Qed.


Lemma split_at_digits (c : ascii) (s : string) :
  (forall a, in_class Digit a = true -> Ascii.eqb a c = false) ->
  all_digits s = true -> split_at c s = (s, None).
Proof.
  intros Hc. induction s as [|a s IH]; cbn; [reflexivity |].
  intro H. apply andb_true_iff in H as [Ha Hs].
  rewrite (Hc a Ha), (IH Hs). reflexivity.
Qed.

Lemma split_at_first (c : ascii) (a b : string) :
  (forall x, in_class Digit x = true -> Ascii.eqb x c = false) ->
  all_digits a = true ->
  split_at c (append a (String c b)) = (a, Some b).
Proof.
  intros Hc. induction a as [|x a IH]; cbn.
  - intros _. now rewrite Ascii.eqb_refl.
  - intro H. apply andb_true_iff in H as [Hx Ha].
    rewrite (Hc x Hx), (IH Ha). reflexivity.
Qed.

(** Splitting at a character that only occurs later in the string. *)
Lemma split_at_past (c d : ascii) (a b : string) :
  (forall x, in_class Digit x = true -> Ascii.eqb x c = false) ->
  Ascii.eqb d c = false ->
  all_digits a = true -> all_digits b = true ->
  split_at c (append a (String d b)) = (append a (String d b), None).
Proof.
  intros Hc Hd. induction a as [|x a IH]; cbn.
  - intros _ Hb. rewrite Hd, (split_at_digits c b Hc Hb). reflexivity.
  - intros H Hb. apply andb_true_iff in H as [Hx Ha].
    rewrite (Hc x Hx), (IH Ha Hb). reflexivity.
Qed.


Lemma repeat_zeros_uint (j : nat) (d : Decimal.uint) :
  append (repeat_char "0" j) (NilEmpty.string_of_uint d)
  = NilEmpty.string_of_uint (lead_zeros j d).
Proof. induction j as [|j IH]; cbn; [reflexivity | now rewrite IH]. Qed.

Lemma of_uint_lead_zeros (j : nat) (d : Decimal.uint) :
  Z.of_uint (lead_zeros j d) = Z.of_uint d.
Proof. induction j as [|j IH]; cbn; [reflexivity | exact IH]. Qed.

Lemma decimal_uint (n : Z) :
  0 <= n ->
  decimal n = NilEmpty.string_of_uint (N.to_uint (Z.to_N n))
  /\ Z.of_uint (N.to_uint (Z.to_N n)) = n.
Proof.
  intro Hn. split.
  - unfold decimal, NilZero.string_of_uint.
    destruct (N.to_uint (Z.to_N n)) eqn:E; try reflexivity.
    exfalso. destruct (Z.to_N n) as [|p]; [discriminate E |].
    exact (DecimalPos.Unsigned.to_uint_nonnil p E).
  - unfold Z.of_uint. change Pos.of_uint with N.of_uint.
    rewrite DecimalN.Unsigned.of_to. lia.
Qed.

(** The digits [toFixed] prints, padded to more than [f] of them. *)
Lemma padded_decimal (n : Z) (f : nat) :
  0 <= n ->
  exists m,
    padStart (f + 1) "0" (decimal n) = m
    /\ all_digits m = true
    /\ (f + 1 <= String.length m)%nat
    /\ digits_value m = Some n.
Proof.
  intro Hn. destruct (decimal_uint n Hn) as [Ed Ev].
  eexists. split; [reflexivity |].
  unfold padStart. rewrite Ed, repeat_zeros_uint.
  split; [apply string_of_uint_digits |]. split.
  - rewrite <- repeat_zeros_uint, length_append.
    assert (L : forall j, String.length (repeat_char "0" j) = j)
      by (induction j; cbn; congruence).
    rewrite L. lia.
  - unfold digits_value. rewrite NilEmpty.usu, of_uint_lead_zeros, Ev.
    reflexivity.
Qed.

(** Reading the numeral printed for [n] with [f] fractional digits gives
    the number nearest to [n / 10^f]. *)
Lemma read_fixed_digits (n : Z) (f : nat) :
  0 < n -> (0 < f)%nat ->
  Number_ofString (fixed_digits n f) = ofRatio n (10 ^ Z.of_nat f).
Proof.
  intros Hn Hf. unfold fixed_digits.
  replace (Nat.eqb f 0) with false by (symmetry; apply Nat.eqb_neq; lia).
  destruct (padded_decimal n f ltac:(lia)) as [m [-> [Hd [Hl Hv]]]].
  set (k := String.length m).
  pose proof (substring_split (k - f) m ltac:(lia)) as Hsplit.
  replace (String.length m - (k - f))%nat with f in Hsplit by (unfold k; lia).
  set (ip := substring 0 (k - f) m) in *.
  set (fp := substring (k - f) f m) in *.
  assert (Hfp : String.length fp = f)
    by (apply substring_length; unfold k; lia).
  assert (Hip : String.length ip = (k - f)%nat)
    by (apply substring_length; unfold k; lia).
  rewrite <- Hsplit, all_digits_append in Hd.
  apply andb_true_iff in Hd as [Hdi Hdf].
  destruct ip as [|c ip']; [cbn in Hip; lia |].
  cbn in Hdi. apply andb_true_iff in Hdi as [Hc Hdi].
  destruct (digit_is_plain c Hc) as [He [Hp [Hm [Hpl HI]]]].
  unfold Number_ofString. cbn [append].
  assert (Hsign :
    match String c (append ip' (String "." fp)) with
    | String "-" t => (true, t)
    | String "+" t => (false, t)
    | _ => (false, String c (append ip' (String "." fp)))
    end = (false, String c (append ip' (String "." fp)))).
  { clear - Hc. destruct c as [[|] [|] [|] [|] [|] [|] [|] [|]];
      try reflexivity; discriminate Hc. }
  rewrite Hsign. cbn [String.eqb]. rewrite HI.
  unfold unsigned_literal.
  assert (E1 : split_at "e" (String c (append ip' (String "." fp)))
               = (String c (append ip' (String "." fp)), None)).
  { cbn [split_at]. rewrite He.
    rewrite (split_at_past "e" "." ip' fp); try assumption;
      [reflexivity | | reflexivity].
    intros x Hx. now destruct (digit_is_plain x Hx). }
  rewrite E1.
  assert (E2 : split_at "." (String c (append ip' (String "." fp)))
               = (String c ip', Some fp)).
  { cbn [split_at]. rewrite Hp.
    rewrite (split_at_first "." ip' fp); try assumption; [reflexivity |].
    intros x Hx. now destruct (digit_is_plain x Hx) as [_ [H _]]. }
  rewrite E2. cbn [append] in Hsplit. cbn [append]. rewrite Hsplit, Hv, Hfp.
  replace (n =? 0) with false by (symmetry; apply Z.eqb_neq; lia).
  replace (0 <=? 0 - Z.of_nat f) with false
    by (symmetry; apply Z.leb_gt; lia).
  replace (- (0 - Z.of_nat f)) with (Z.of_nat f) by lia.
  reflexivity.
Qed.

End NumeralFacts.

(** * Division: the number nearest to a ratio of integers *)

Module DivisionFacts.
Import Rounding.

(** *** More on digits *)

Lemma Zdigits2_unique (z n : Z) :
  0 < n -> 2 ^ (n - 1) <= z < 2 ^ n -> Zdigits2 z = n.
Proof.
  intros Hn [Hlo Hhi].
  pose proof (pow2_pos (n - 1) ltac:(lia)).
  pose proof (Zdigits2_le z n ltac:(lia) ltac:(lia)).
  pose proof (Zdigits2_gt z (n - 1) ltac:(lia) Hlo). lia.
Qed.

Lemma Zdigits2_pos_bounds (z : Z) :
  0 < z -> 0 < Zdigits2 z /\ 2 ^ (Zdigits2 z - 1) <= z < 2 ^ Zdigits2 z.
Proof.
  intro Hz. destruct z as [|p|p]; try lia. cbn [Zdigits2].
  split; [lia | apply digits_bounds].
Qed.

Lemma Zdigits2_mono (x y : Z) : 0 <= x <= y -> Zdigits2 x <= Zdigits2 y.
Proof.
  intros [Hx Hxy]. destruct (Z.eq_dec x 0) as [-> | Hne].
  - apply Zdigits2_nonneg.
  - destruct (Zdigits2_pos_bounds x ltac:(lia)) as [Hd [Hlo _]].
    pose proof (Zdigits2_gt y (Zdigits2 x - 1) ltac:(lia) ltac:(lia)). lia.
Qed.

Lemma Zdigits2_shiftr (z p : Z) :
  0 <= p -> 2 ^ p <= z -> Zdigits2 (z / 2 ^ p) = Zdigits2 z - p.
Proof.
  intros Hp Hz. pose proof (pow2_pos p Hp) as HP.
  destruct (Zdigits2_pos_bounds z ltac:(lia)) as [Hd [Hlo Hhi]].
  assert (Hdp : p < Zdigits2 z).
  { destruct (Z_lt_le_dec p (Zdigits2 z)) as [H | H]; [exact H |].
    assert (2 ^ Zdigits2 z <= 2 ^ p) by (apply Z.pow_le_mono_r; lia). lia. }
  apply Zdigits2_unique; [lia |].
  assert (E1 : 2 ^ (Zdigits2 z - 1) = 2 ^ (Zdigits2 z - p - 1) * 2 ^ p)
    by (rewrite <- Z.pow_add_r by lia; f_equal; lia).
  assert (E2 : 2 ^ Zdigits2 z = 2 ^ (Zdigits2 z - p) * 2 ^ p)
    by (rewrite <- Z.pow_add_r by lia; f_equal; lia).
  split.
  - apply Z.div_le_lower_bound; [exact HP | lia].
  - apply Z.div_lt_upper_bound; [exact HP | lia].
Qed.

Lemma Zdigits2_shiftl (z p : Z) :
  0 < z -> 0 <= p -> Zdigits2 (z * 2 ^ p) = Zdigits2 z + p.
Proof.
  intros Hz Hp. pose proof (pow2_pos p Hp) as HP.
  destruct (Zdigits2_pos_bounds z Hz) as [Hd [Hlo Hhi]].
  apply Zdigits2_unique; [lia |].
  replace (Zdigits2 z + p - 1) with (Zdigits2 z - 1 + p) by lia.
  rewrite !Z.pow_add_r by lia. nia.
Qed.

Lemma Zdigits2_div (a b : Z) :
  0 < a -> 0 < b -> Zdigits2 a - Zdigits2 b <= Zdigits2 (a / b).
Proof.
  intros Ha Hb.
  destruct (Zdigits2_pos_bounds a Ha) as [Hda [Hlo _]].
  destruct (Zdigits2_pos_bounds b Hb) as [Hdb [_ Hhi]].
  destruct (Z_lt_le_dec (Zdigits2 a - Zdigits2 b - 1) 0) as [H | H].
  - pose proof (Zdigits2_nonneg (a / b)). lia.
  - set (j := Zdigits2 a - Zdigits2 b - 1) in *.
    assert (E : 2 ^ (Zdigits2 a - 1) = 2 ^ j * 2 ^ Zdigits2 b)
      by (rewrite <- Z.pow_add_r by lia; f_equal; unfold j; lia).
    pose proof (pow2_pos j H).
    assert (2 ^ j <= a / b) by (apply Z.div_le_lower_bound; nia).
    pose proof (Zdigits2_gt (a / b) j H ltac:(lia)). unfold j in *. lia.
Qed.

Lemma fexp64_mono (x y : Z) : x <= y -> fexp64 x <= fexp64 y.
Proof. unfold fexp64. lia. Qed.

(** *** The result of rounding is in canonical form *)

Lemma finish_valid (s : bool) (mx p R e1 : Z) :
  0 <= p -> 0 <= mx -> mx / 2 ^ p <= R ->
  e1 = fexp64 (Zdigits2 mx + (e1 - p)) ->
  valid_binary prec emax (finish s R e1) = true.
Proof.
  intros Hp Hmx HR He1. unfold finish. cbv zeta.
  set (e2 := Z.max e1 (fexp64 (Zdigits2 R + e1))).
  pose proof (pow2_pos p Hp) as HP.
  assert (HR0 : 0 <= R) by (pose proof (Z.div_pos mx (2 ^ p) Hmx HP); lia).
  destruct (R / 2 ^ (e2 - e1)) as [|m|m] eqn:E; try reflexivity.
  destruct (Z.leb_spec e2 (emax - prec)) as [Hb | Hb]; [| reflexivity].
  cbn [valid_binary]. unfold bounded.
  replace (e2 <=? emax - prec) with true by (symmetry; now apply Z.leb_le).
  rewrite andb_true_r. unfold canonical_mantissa.
  apply Z.eqb_eq. rewrite fexp_fexp64.
  change (Zpos (digits2_pos m)) with (Zdigits2 (Zpos m)). rewrite <- E.
  destruct (Z_lt_le_dec e1 (fexp64 (Zdigits2 R + e1))) as [Hc | Hc].
  - assert (He2 : e2 = fexp64 (Zdigits2 R + e1)) by (unfold e2; lia).
    assert (Hge : 2 ^ (e2 - e1) <= R).
    { destruct (Z_le_gt_dec (2 ^ (e2 - e1)) R) as [H | H]; [exact H |].
      rewrite Z.div_small in E by lia. discriminate E. }
    rewrite Zdigits2_shiftr by lia.
    replace (Zdigits2 R - (e2 - e1) + e2) with (Zdigits2 R + e1) by lia.
    symmetry. exact He2.
  - assert (He2 : e2 = e1) by (unfold e2; lia).
    rewrite He2, Z.sub_diag. change (2 ^ 0) with 1. rewrite Z.div_1_r.
    assert (Hlow : e1 <= fexp64 (Zdigits2 R + e1)); [| lia].
    destruct (Z_le_gt_dec (2 ^ p) mx) as [Hm | Hm].
    + pose proof (Zdigits2_shiftr mx p Hp Hm) as Hd.
      pose proof (Zdigits2_mono (mx / 2 ^ p) R
                    ltac:(split; [apply Z.div_pos; lia | lia])) as Hmono.
      rewrite He1 at 1. apply fexp64_mono. lia.
    + pose proof (Zdigits2_le mx p Hp ltac:(lia)) as Hd.
      unfold fexp64 in *. lia.
Qed.

Lemma round_valid (s : bool) (mx ex : Z) (lx : location) (a b : Z) :
  0 <= a -> 0 < b ->
  shr_record_of_loc mx lx = rec_of a b ->
  ex <= fexp64 (Zdigits2 mx + ex) ->
  valid_binary prec emax (binary_round_aux prec emax s mx ex lx) = true.
Proof.
  intros Ha Hb Hrec Hwide.
  rewrite (binary_round_aux_spec s mx ex lx a b Ha Hb Hrec). cbv zeta.
  pose proof (mantissa_is_floor mx lx a b Hrec) as Hmx.
  set (e1 := Z.max ex (fexp64 (Zdigits2 mx + ex))).
  assert (He1 : e1 = fexp64 (Zdigits2 mx + ex)) by (unfold e1; lia).
  pose proof (pow2_pos (e1 - ex) ltac:(lia)) as HP.
  assert (Hb' : 0 < b * 2 ^ (e1 - ex)) by nia.
  pose proof (rne_nearest a (b * 2 ^ (e1 - ex)) Ha Hb') as [[Hlo _] _].
  apply (finish_valid s mx (e1 - ex)); try lia.
  - rewrite Hmx. apply Z.div_pos; lia.
  - rewrite Hmx, Z.div_div by lia. exact Hlo.
  - replace (e1 - (e1 - ex)) with ex by lia. exact He1.
Qed.

(** *** The location computed by the division *)

Lemma new_location_rec (a b : Z) :
  0 <= a -> 0 < b ->
  shr_record_of_loc (a / b) (new_location b (a mod b)) = rec_of a b.
Proof.
  intros Ha Hb. pose proof (Z.mod_pos_bound a b Hb) as B.
  unfold rec_of, new_location, new_location_even, new_location_odd.
  set (r := a mod b) in *.
  pose proof (Zmod_even b) as Hev.
  pose proof (Z.mod_pos_bound b 2 ltac:(lia)) as B2.
  pose proof (Z.div_mod b 2 ltac:(lia)) as E2.
  destruct (Z.even b); destruct (Z.eqb_spec r 0) as [E0 | E0];
    cbn [shr_record_of_loc]; destruct (Z.leb_spec b (2 * r));
    destruct (Z.eqb_spec (2 * r) b); cbn [negb andb];
    try reflexivity; try lia.
  all: try (destruct (Z.compare_spec (2 * r) b); cbn [shr_record_of_loc];
            try reflexivity; lia).
  all: destruct (Z.compare_spec (2 * r + 1) b); cbn [shr_record_of_loc];
    try reflexivity; lia.
Qed.

(** *** [ofRatio] *)

Lemma ofRatio_round (n d : positive) :
  let e' := Z.min (fexp64 (Zdigits2 (Zpos n) - Zdigits2 (Zpos d))) 0 in
  let a := Zpos n * 2 ^ (- e') in
  ofRatio (Zpos n) (Zpos d)
  = binary_round_aux prec emax false (a / Zpos d) e'
      (new_location (Zpos d) (a mod Zpos d)).
Proof.
  cbv zeta. unfold ofRatio, div, SFdiv, SFdiv_core_binary.
  rewrite fexp_fexp64, !Z.add_0_r, !Z.sub_0_r. cbn [xorb].
  set (e' := Z.min (fexp64 (Zdigits2 (Zpos n) - Zdigits2 (Zpos d))) 0).
  assert (Hm : match 0 - e' with
               | 0 => Zpos n
               | Zpos _ => Z.shiftl (Zpos n) (0 - e')
               | Zneg _ => 0
               end = Zpos n * 2 ^ (- e')).
  { assert (He : e' <= 0) by (unfold e'; lia).
    destruct (0 - e') as [|q|q] eqn:E; [| | lia].
    - replace (- e') with 0 by lia. cbn. lia.
    - rewrite Z.shiftl_mul_pow2 by lia. f_equal. f_equal. lia. }
  rewrite Hm. unfold Z.div, Z.modulo.
  destruct (Z.div_eucl (Zpos n * 2 ^ (- e')) (Zpos d)) as [q r].
  reflexivity.
Qed.

Section Ratio.
Variables (n d : positive) (A B : Z).
Hypothesis HA : 0 <= A.
Hypothesis HB : B < 2 ^ 53.
Hypothesis Hn : A * Zpos d <= Zpos n <= B * Zpos d.

Lemma ofRatio_in_range : in_range false 0 A B (ofRatio (Zpos n) (Zpos d)).
Proof.
  rewrite ofRatio_round. cbv zeta.
  set (e' := Z.min (fexp64 (Zdigits2 (Zpos n) - Zdigits2 (Zpos d))) 0).
  assert (He : e' <= 0) by (unfold e'; lia).
  pose proof (pow2_pos (- e') ltac:(lia)) as HP.
  apply (round_in_range false _ e' _ (Zpos n * 2 ^ (- e')) (Zpos d) 0);
    [nia | lia | apply new_location_rec; nia | lia | lia | exact HA
     | exact HB |].
  replace (0 - e') with (- e') by lia. nia.
Qed.

Lemma ofRatio_valid : valid_binary prec emax (ofRatio (Zpos n) (Zpos d)) = true.
Proof.
  rewrite ofRatio_round. cbv zeta.
  set (e' := Z.min (fexp64 (Zdigits2 (Zpos n) - Zdigits2 (Zpos d))) 0).
  assert (He : e' <= 0) by (unfold e'; lia).
  pose proof (pow2_pos (- e') ltac:(lia)) as HP.
  apply (round_valid false _ e' _ (Zpos n * 2 ^ (- e')) (Zpos d));
    [nia | lia | apply new_location_rec; nia |].
  pose proof (Zdigits2_div (Zpos n * 2 ^ (- e')) (Zpos d)
                ltac:(nia) ltac:(lia)) as Hd.
  rewrite Zdigits2_shiftl in Hd by lia.
  assert (Hf : fexp64 (Zdigits2 (Zpos n) - Zdigits2 (Zpos d))
               <= fexp64 (Zdigits2 (Zpos n * 2 ^ (- e') / Zpos d) + e'))
    by (apply fexp64_mono; lia).
  unfold e' in *. lia.
Qed.

End Ratio.

(** *** Comparison with 1000 and 2000 *)

Lemma leb_1000_2000 (x : number) :
  valid_binary prec emax x = true ->
  in_range false 0 1000 2000 x ->
  leb (ofZ 1000) x = true /\ leb x (ofZ 2000) = true.
Proof.
  intros Hv Hr. destruct x as [s | s | | s m e]; cbn [in_range] in Hr;
    try contradiction; [lia |].
  destruct Hr as [-> [He [Hlo Hhi]]].
  replace (0 - e) with (- e) in * by lia.
  apply valid_mantissa in Hv as [_ [Hc _]].
  change (Zpos (digits2_pos m)) with (Zdigits2 (Zpos m)) in Hc.
  pose proof (pow2_pos (- e) ltac:(lia)) as HP.
  assert (Hd1 : 9 - e < Zdigits2 (Zpos m)).
  { apply Zdigits2_gt; [lia |].
    replace (9 - e) with (9 + - e) by lia. rewrite Z.pow_add_r by lia.
    change (2 ^ 9) with 512. nia. }
  assert (Hd2 : Zdigits2 (Zpos m) <= 11 - e).
  { apply Zdigits2_le; [lia |].
    replace (11 - e) with (11 + - e) by lia. rewrite Z.pow_add_r by lia.
    change (2 ^ 11) with 2048. nia. }
  assert (Hrange : -43 <= e <= -42) by (unfold fexp64 in Hc; lia).
  change (ofZ 1000) with (S754_finite false 8796093022208000 (-43)).
  change (ofZ 2000) with (S754_finite false 8796093022208000 (-42)).
  unfold leb, SFleb. cbn [SFcompare].
  rewrite !Pos.compare_cont_spec. cbn [Pos.switch_Eq].
  assert (Hcase : e = -43 \/ e = -42) by lia.
  destruct Hcase as [-> | ->].
  - change (-43 ?= -43) with Eq. change (-43 ?= -42) with Lt.
    change (2 ^ (- -43)) with 8796093022208 in Hlo.
    split; [| reflexivity].
    destruct (Pos.compare_spec 8796093022208000 m) as [E | E | E];
      try reflexivity.
    apply Pos2Z.pos_lt_pos in E. lia.
  - change (-43 ?= -42) with Lt. change (-42 ?= -42) with Eq.
    change (2 ^ (- -42)) with 4398046511104 in Hhi.
    split; [reflexivity |].
    destruct (Pos.compare_spec m 8796093022208000) as [E | E | E];
      try reflexivity.
    apply Pos2Z.pos_lt_pos in E. lia.
Qed.

End DivisionFacts.

(** * The number of decimal digits of an integer *)

Module DigitCount.
Import NumeralFacts.

Lemma string_of_uint_length (d : Decimal.uint) :
  String.length (NilEmpty.string_of_uint d) = Decimal.nb_digits d.
Proof. induction d; cbn; congruence. Qed.

Lemma of_lu_digit_cons (r : N) (l : Decimal.uint) :
  (r < 10)%N ->
  DecimalPos.Unsigned.of_lu (digit_cons r l)
  = (r + 10 * DecimalPos.Unsigned.of_lu l)%N.
Proof.
  intro H.
  assert (C : (r = 0 \/ r = 1 \/ r = 2 \/ r = 3 \/ r = 4 \/ r = 5 \/ r = 6
               \/ r = 7 \/ r = 8 \/ r = 9)%N) by lia.
  repeat destruct C as [C | C]; subst r; reflexivity.
Qed.

Lemma nb_digits_digit_cons (r : N) (l : Decimal.uint) :
  Decimal.nb_digits (digit_cons r l) = S (Decimal.nb_digits l).
Proof.
  destruct r as [|p]; [reflexivity |].
  do 4 (destruct p as [p | p |]; try reflexivity).
Qed.

Lemma nb_digits_little (k : nat) (n : N) :
  Decimal.nb_digits (little_digits k n) = k.
Proof.
  revert n. induction k as [|k IH]; intro n; cbn [little_digits];
    [reflexivity |].
  now rewrite nb_digits_digit_cons, IH.
Qed.

Lemma of_lu_little (k : nat) (n : N) :
  DecimalPos.Unsigned.of_lu (little_digits k n) = (n mod 10 ^ N.of_nat k)%N.
Proof.
  revert n. induction k as [|k IH]; intro n; cbn [little_digits].
  - cbn. now rewrite N.mod_1_r.
  - rewrite of_lu_digit_cons by (apply N.mod_lt; lia).
    rewrite IH, Nat2N.inj_succ, N.pow_succ_r'.
    rewrite N.Div0.mod_mul_r. reflexivity.
Qed.

Lemma of_lu_bound (l : Decimal.uint) :
  (DecimalPos.Unsigned.of_lu l < 10 ^ N.of_nat (Decimal.nb_digits l))%N.
Proof.
  induction l; cbn [DecimalPos.Unsigned.of_lu Decimal.nb_digits];
    [cbn; lia | rewrite Nat2N.inj_succ, N.pow_succ_r' by lia; lia ..].
Qed.

(** A number below [10^k] is printed with at most [k] digits. *)
Lemma to_uint_short (k : nat) (n : N) :
  (0 < k)%nat -> (n < 10 ^ N.of_nat k)%N ->
  (Decimal.nb_digits (N.to_uint n) <= k)%nat.
Proof.
  intros Hk Hn.
  assert (E : N.of_uint (Decimal.rev (little_digits k n)) = n).
  { change N.of_uint with Pos.of_uint.
    rewrite DecimalPos.Unsigned.of_lu_rev, of_lu_little.
    now apply N.mod_small. }
  rewrite <- E at 1. rewrite DecimalN.Unsigned.to_of.
  assert (Hnn : Decimal.rev (little_digits k n) <> Decimal.Nil).
  { apply DecimalFacts.nb_digits_n0.
    rewrite DecimalFacts.nb_digits_rev, nb_digits_little. lia. }
  pose proof (DecimalFacts.nb_digits_unorm _ Hnn) as H.
  rewrite DecimalFacts.nb_digits_rev, nb_digits_little in H. exact H.
Qed.

(** A number of at least [10^k] is printed with more than [k] digits. *)
Lemma to_uint_long (k : nat) (n : N) :
  (10 ^ N.of_nat k <= n)%N ->
  (k < Decimal.nb_digits (N.to_uint n))%nat.
Proof.
  intro Hn.
  pose proof (DecimalN.Unsigned.of_to n) as E.
  change N.of_uint with Pos.of_uint in E.
  rewrite DecimalPos.Unsigned.of_uint_alt in E.
  pose proof (of_lu_bound (Decimal.rev (N.to_uint n))) as Hb.
  rewrite E, DecimalFacts.nb_digits_rev in Hb.
  destruct (Nat.lt_ge_cases k (Decimal.nb_digits (N.to_uint n)))
    as [H | H]; [exact H | exfalso].
  assert (10 ^ N.of_nat (Decimal.nb_digits (N.to_uint n))
          <= 10 ^ N.of_nat k)%N
    by (apply N.pow_le_mono_r; lia).
  lia.
Qed.

Lemma decimal_digits (z : Z) : 0 <= z -> all_digits (decimal z) = true.
Proof.
  intro Hz. destruct (decimal_uint z Hz) as [-> _].
  apply string_of_uint_digits.
Qed.

Lemma pow10_N (k : nat) : Z.of_N (10 ^ N.of_nat k) = 10 ^ Z.of_nat k.
Proof. rewrite N2Z.inj_pow, nat_N_Z. reflexivity. Qed.

Lemma decimal_length_le (z : Z) (k : nat) :
  (0 < k)%nat -> 0 <= z < 10 ^ Z.of_nat k ->
  (String.length (decimal z) <= k)%nat.
Proof.
  intros Hk Hz. destruct (decimal_uint z ltac:(lia)) as [-> _].
  rewrite string_of_uint_length. apply to_uint_short; [exact Hk |].
  apply N2Z.inj_lt. rewrite pow10_N, Z2N.id by lia. lia.
Qed.

Lemma decimal_length (z : Z) (k : nat) :
  (0 < k)%nat -> 10 ^ (Z.of_nat k - 1) <= z < 10 ^ Z.of_nat k ->
  String.length (decimal z) = k.
Proof.
  intros Hk Hz.
  assert (0 < 10 ^ (Z.of_nat k - 1)) by (apply Z.pow_pos_nonneg; lia).
  pose proof (decimal_length_le z k Hk ltac:(lia)) as Hle.
  destruct (decimal_uint z ltac:(lia)) as [E _].
  rewrite E, string_of_uint_length in *.
  pose proof (to_uint_long (k - 1) (Z.to_N z)) as Hlong.
  assert (10 ^ N.of_nat (k - 1) <= Z.to_N z)%N.
  { apply N2Z.inj_le. rewrite pow10_N, Z2N.id by lia.
    replace (Z.of_nat (k - 1)) with (Z.of_nat k - 1) by lia. lia. }
  specialize (Hlong ltac:(assumption)). lia.
Qed.

End DigitCount.

(** * Integers below [2^53] are computed exactly *)

Module ExactFacts.
Import Rounding DivisionFacts.

Lemma rne_exact (q b : Z) : 0 <= q -> 0 < b -> rne (rec_of (q * b) b) = q.
Proof.
  intros Hq Hb.
  pose proof (rne_nearest (q * b) b ltac:(nia) Hb) as [_ H]. nia.
Qed.

(** A mantissa that carries the integer [z] with digits to spare is
    rounded to the 53-digit form of [z]. *)
Lemma round_exact (m : positive) (e z : Z) :
  0 < z < 2 ^ 53 -> e <= Zdigits2 z - 53 ->
  Zpos m = z * 2 ^ (- e) ->
  binary_round_aux prec emax false (Zpos m) e loc_Exact = canon z.
Proof.
  intros Hz He Hm.
  destruct (Zdigits2_pos_bounds z ltac:(lia)) as [Hd _].
  assert (Hd53 : Zdigits2 z <= 53) by (apply Zdigits2_le; lia).
  rewrite (binary_round_aux_spec false (Zpos m) e loc_Exact (Zpos m) 1
             ltac:(lia) ltac:(lia) (exact_rec _)). cbv zeta.
  assert (Hdm : Zdigits2 (Zpos m) = Zdigits2 z - e)
    by (rewrite Hm, Zdigits2_shiftl by lia; lia).
  rewrite Hdm.
  replace (Zdigits2 z - e + e) with (Zdigits2 z) by lia.
  assert (He1 : Z.max e (fexp64 (Zdigits2 z)) = Zdigits2 z - 53)
    by (unfold fexp64; lia).
  rewrite He1, Z.mul_1_l.
  set (R := z * 2 ^ (53 - Zdigits2 z)).
  pose proof (pow2_pos (53 - Zdigits2 z) ltac:(lia)) as HP1.
  pose proof (pow2_pos (Zdigits2 z - 53 - e) ltac:(lia)) as HP2.
  assert (Ha : Zpos m = R * 2 ^ (Zdigits2 z - 53 - e)).
  { unfold R. rewrite Hm, <- Z.mul_assoc, <- Z.pow_add_r by lia.
    f_equal. f_equal. lia. }
  rewrite Ha, rne_exact by (unfold R; nia).
  assert (HdR : Zdigits2 R = 53)
    by (unfold R; rewrite Zdigits2_shiftl by lia; lia).
  unfold finish. cbv zeta. rewrite HdR.
  replace (Z.max (Zdigits2 z - 53) (fexp64 (53 + (Zdigits2 z - 53))))
    with (Zdigits2 z - 53) by (unfold fexp64; lia).
  rewrite Z.sub_diag. change (2 ^ 0) with 1. rewrite Z.div_1_r.
  unfold canon. fold R.
  assert (HR : 0 < R) by (unfold R; nia).
  destruct R as [|r|r]; try lia.
  replace (Zdigits2 z - 53 <=? emax - prec) with true
    by (symmetry; apply Z.leb_le; unfold emax, prec; lia).
  reflexivity.
Qed.

Lemma binary_round_exact (m : positive) (e z : Z) :
  0 < z < 2 ^ 53 -> e <= 0 -> Zpos m = z * 2 ^ (- e) ->
  binary_round prec emax false m e = canon z.
Proof.
  intros Hz He Hm. unfold binary_round.
  destruct (Zdigits2_pos_bounds z ltac:(lia)) as [Hd _].
  assert (Hd53 : Zdigits2 z <= 53) by (apply Zdigits2_le; lia).
  assert (Hdm : Zpos (digits2_pos m) = Zdigits2 z - e).
  { change (Zpos (digits2_pos m)) with (Zdigits2 (Zpos m)).
    rewrite Hm, Zdigits2_shiftl by lia. lia. }
  rewrite Hdm, fexp_fexp64.
  replace (Zdigits2 z - e + e) with (Zdigits2 z) by lia.
  pose proof (shl_align_spec m e (fexp64 (Zdigits2 z))) as [Hez Hmz].
  destruct (shl_align m e (fexp64 (Zdigits2 z))) as [mz ez].
  cbn [fst snd] in *.
  assert (Hle : ez <= Zdigits2 z - 53) by (unfold fexp64 in Hez; lia).
  apply round_exact; [exact Hz | exact Hle |].
  rewrite Hmz, Hm, <- Z.mul_assoc, <- Z.pow_add_r by lia.
  f_equal. f_equal. lia.
Qed.

Lemma ofZ_canon (z : Z) : 0 < z < 2 ^ 53 -> ofZ z = canon z.
Proof.
  intro Hz. unfold ofZ. destruct z as [|p|p]; try lia.
  cbn [binary_normalize]. apply binary_round_exact; [exact Hz | lia |].
  cbn. lia.
Qed.

Lemma canon_mantissa (z : Z) :
  0 < z < 2 ^ 53 ->
  Zpos (Z.to_pos (z * 2 ^ (53 - Zdigits2 z))) = z * 2 ^ (53 - Zdigits2 z)
  /\ 0 < Zdigits2 z <= 53.
Proof.
  intro Hz. destruct (Zdigits2_pos_bounds z ltac:(lia)) as [Hd _].
  assert (Hd53 : Zdigits2 z <= 53) by (apply Zdigits2_le; lia).
  pose proof (pow2_pos (53 - Zdigits2 z) ltac:(lia)).
  split; [apply Z2Pos.id; nia | lia].
Qed.

Lemma mul_exact (a b : Z) :
  0 < a -> 0 < b -> a * b < 2 ^ 53 ->
  mul (ofZ a) (ofZ b) = ofZ (a * b).
Proof.
  intros Ha Hb Hab.
  assert (Ha53 : a < 2 ^ 53) by nia. assert (Hb53 : b < 2 ^ 53) by nia.
  rewrite (ofZ_canon a), (ofZ_canon b), (ofZ_canon (a * b)) by nia.
  unfold canon at 1 2. rewrite mul_finite. cbn [xorb].
  destruct (canon_mantissa a ltac:(lia)) as [Ema [Hda Hda']].
  destruct (canon_mantissa b ltac:(lia)) as [Emb [Hdb Hdb']].
  pose proof (Zdigits2_mono a (a * b) ltac:(nia)) as Hmono.
  apply round_exact; [nia | lia |].
  rewrite Pos2Z.inj_mul, Ema, Emb.
  replace (- (Zdigits2 a - 53 + (Zdigits2 b - 53)))
    with ((53 - Zdigits2 a) + (53 - Zdigits2 b)) by lia.
  rewrite Z.pow_add_r by lia. ring.
Qed.

Lemma add_exact (a b : Z) :
  0 < a -> 0 < b -> a + b < 2 ^ 53 ->
  add (ofZ a) (ofZ b) = ofZ (a + b).
Proof.
  intros Ha Hb Hab.
  rewrite (ofZ_canon a), (ofZ_canon b), (ofZ_canon (a + b)) by lia.
  unfold canon at 1 2. unfold add, SFadd. cbv zeta.
  destruct (canon_mantissa a ltac:(lia)) as [Ema [Hda Hda']].
  destruct (canon_mantissa b ltac:(lia)) as [Emb [Hdb Hdb']].
  set (ea := Zdigits2 a - 53) in *. set (eb := Zdigits2 b - 53) in *.
  set (ez := Z.min ea eb).
  pose proof (shl_align_spec (Z.to_pos (a * 2 ^ (53 - Zdigits2 a))) ea ez)
    as [H1e H1m].
  pose proof (shl_align_spec (Z.to_pos (b * 2 ^ (53 - Zdigits2 b))) eb ez)
    as [H2e H2m].
  replace (snd (shl_align (Z.to_pos (a * 2 ^ (53 - Zdigits2 a))) ea ez))
    with ez in H1m by (unfold ez in *; lia).
  replace (snd (shl_align (Z.to_pos (b * 2 ^ (53 - Zdigits2 b))) eb ez))
    with ez in H2m by (unfold ez in *; lia).
  cbn [cond_Zopp]. rewrite H1m, H2m, Ema, Emb.
  assert (E1 : a * 2 ^ (53 - Zdigits2 a) * 2 ^ (ea - ez) = a * 2 ^ (- ez)).
  { rewrite <- Z.mul_assoc, <- Z.pow_add_r by (unfold ez, ea; lia).
    f_equal. f_equal. unfold ea. lia. }
  assert (E2 : b * 2 ^ (53 - Zdigits2 b) * 2 ^ (eb - ez) = b * 2 ^ (- ez)).
  { rewrite <- Z.mul_assoc, <- Z.pow_add_r by (unfold ez, eb; lia).
    f_equal. f_equal. unfold eb. lia. }
  rewrite E1, E2, <- Z.mul_add_distr_r.
  pose proof (pow2_pos (- ez) ltac:(unfold ez, ea, eb; lia)) as HP.
  destruct ((a + b) * 2 ^ (- ez)) as [|S|S] eqn:ES; try nia.
  cbn [binary_normalize].
  apply binary_round_exact; [lia | unfold ez, ea, eb; lia | now rewrite ES].
Qed.

Lemma rem_exact (w d : Z) :
  0 < w < 2 ^ 53 -> 0 < d < 2 ^ 53 ->
  rem (ofZ w) (ofZ d) = ofZ (w mod d).
Proof.
  intros Hw Hd.
  rewrite (ofZ_canon w), (ofZ_canon d) by lia.
  unfold canon. unfold rem. cbv zeta.
  destruct (canon_mantissa w ltac:(lia)) as [Emw [Hdw Hdw']].
  destruct (canon_mantissa d ltac:(lia)) as [Emd [Hdd Hdd']].
  set (ew := Zdigits2 w - 53) in *. set (ed := Zdigits2 d - 53) in *.
  set (ez := Z.min ew ed).
  assert (Hez : ez <= 0) by (unfold ez, ew, ed; lia).
  rewrite !Z.shiftl_mul_pow2 by (unfold ez; lia). rewrite Emw, Emd.
  assert (E1 : w * 2 ^ (53 - Zdigits2 w) * 2 ^ (ew - ez) = w * 2 ^ (- ez)).
  { rewrite <- Z.mul_assoc, <- Z.pow_add_r by (unfold ez, ew; lia).
    f_equal. f_equal. unfold ew. lia. }
  assert (E2 : d * 2 ^ (53 - Zdigits2 d) * 2 ^ (ed - ez) = d * 2 ^ (- ez)).
  { rewrite <- Z.mul_assoc, <- Z.pow_add_r by (unfold ez, ed; lia).
    f_equal. f_equal. unfold ed. lia. }
  rewrite E1, E2.
  pose proof (pow2_pos (- ez) ltac:(lia)) as HP.
  rewrite Z.rem_mod_nonneg by nia.
  rewrite Z.mul_mod_distr_r by lia.
  pose proof (Z.mod_pos_bound w d ltac:(lia)) as Hmod.
  destruct (Z.eqb_spec (w mod d * 2 ^ (- ez)) 0) as [E0 | E0].
  - assert (w mod d = 0) by nia. now replace (w mod d) with 0.
  - assert (0 < w mod d) by nia.
    rewrite (ofZ_canon (w mod d)) by lia.
    destruct (w mod d * 2 ^ (- ez)) as [|r|r] eqn:Er; try nia.
    cbn [cond_Zopp binary_normalize].
    apply binary_round_exact; [lia | exact Hez | now rewrite Er].
Qed.

(** The seeded generator steps over the integers. *)
Lemma lcg_step_int (v : Z) :
  -5 <= v -> v * 9301 + 49297 < 2 ^ 53 ->
  lcg_step (ofZ v) = ofZ (lcg_int v) /\ 0 <= lcg_int v < 233280.
Proof.
  intros Hlo Hhi. unfold lcg_int.
  assert (Hnn : 0 <= v * 9301 + 49297) by lia.
  rewrite Z.rem_mod_nonneg by lia.
  split; [| apply Z.mod_pos_bound; lia].
  destruct (Z_le_gt_dec v 0) as [Hneg | Hpos].
  - assert (C : v = -5 \/ v = -4 \/ v = -3 \/ v = -2 \/ v = -1 \/ v = 0)
      by lia.
    repeat destruct C as [C | C]; subst v; vm_compute; reflexivity.
  - unfold lcg_step.
    rewrite mul_exact by lia.
    rewrite add_exact by lia.
    apply rem_exact; [lia |]. change (2 ^ 53) with 9007199254740992. lia.
Qed.

Lemma lcg_state_int (s : Z) (n : nat) :
  -5 <= s -> s * 9301 + 49297 < 2 ^ 53 ->
  lcg_state (ofZ s) n = ofZ (lcg_int_state s n)
  /\ 0 <= lcg_int_state s n < 233280.
Proof.
  intros Hlo Hhi. induction n as [|n [IH Hb]]; cbn [lcg_state lcg_int_state].
  - now apply lcg_step_int.
  - rewrite IH. apply lcg_step_int; [lia |].
    change (2 ^ 53) with 9007199254740992. lia.
Qed.

End ExactFacts.

(** * The numbers a seeded generator emits *)

Module SeededFacts.
Import Rounding DivisionFacts ExactFacts.

Lemma div_round (sx sy : bool) (mx my : positive) (ex ey : Z) :
  let e' := Z.min (fexp64 (Zdigits2 (Zpos mx) + ex
                           - (Zdigits2 (Zpos my) + ey))) (ex - ey) in
  let a := Zpos mx * 2 ^ (ex - ey - e') in
  div (S754_finite sx mx ex) (S754_finite sy my ey)
  = binary_round_aux prec emax (xorb sx sy) (a / Zpos my) e'
      (new_location (Zpos my) (a mod Zpos my)).
Proof.
  cbv zeta. unfold div, SFdiv, SFdiv_core_binary. rewrite fexp_fexp64.
  set (e' := Z.min (fexp64 (Zdigits2 (Zpos mx) + ex
                            - (Zdigits2 (Zpos my) + ey))) (ex - ey)).
  assert (Hm : match ex - ey - e' with
               | 0 => Zpos mx
               | Zpos _ => Z.shiftl (Zpos mx) (ex - ey - e')
               | Zneg _ => 0
               end = Zpos mx * 2 ^ (ex - ey - e')).
  { assert (He : 0 <= ex - ey - e') by (unfold e'; lia).
    destruct (ex - ey - e') as [|q|q] eqn:E; [| | lia].
    - cbn. lia.
    - rewrite Z.shiftl_mul_pow2 by lia. reflexivity. }
  rewrite Hm. unfold Z.div, Z.modulo.
  destruct (Z.div_eucl (Zpos mx * 2 ^ (ex - ey - e')) (Zpos my)) as [q r].
  reflexivity.
Qed.

Lemma div_valid (sx sy : bool) (mx my : positive) (ex ey : Z) :
  valid_binary prec emax
    (div (S754_finite sx mx ex) (S754_finite sy my ey)) = true.
Proof.
  rewrite div_round. cbv zeta.
  set (e' := Z.min (fexp64 (Zdigits2 (Zpos mx) + ex
                            - (Zdigits2 (Zpos my) + ey))) (ex - ey)).
  assert (He : 0 <= ex - ey - e') by (unfold e'; lia).
  pose proof (pow2_pos (ex - ey - e') He) as HP.
  apply (round_valid _ _ e' _ (Zpos mx * 2 ^ (ex - ey - e')) (Zpos my));
    [nia | lia | apply new_location_rec; nia |].
  pose proof (Zdigits2_div (Zpos mx * 2 ^ (ex - ey - e')) (Zpos my)
                ltac:(nia) ltac:(lia)) as Hd.
  rewrite Zdigits2_shiftl in Hd by lia.
  assert (Hf : fexp64 (Zdigits2 (Zpos mx) + ex - (Zdigits2 (Zpos my) + ey))
               <= fexp64 (Zdigits2 (Zpos mx * 2 ^ (ex - ey - e') / Zpos my)
                          + e'))
    by (apply fexp64_mono; lia).
  unfold e' in *. lia.
Qed.

(** A valid number strictly below 1 passes the test of the unit
    interval. *)
Lemma unit_of_below (r : number) :
  valid_binary prec emax r = true ->
  below false (-53) (2 ^ 53) r ->
  unit_interval r = true.
Proof.
  intros Hv Hb. destruct r as [s | s | | s m e]; cbn [below] in Hb;
    try contradiction.
  - destruct Hb as [-> _]. reflexivity.
  - destruct Hb as [-> [He Hm]].
    apply valid_mantissa in Hv as [_ [Hc _]].
    change (Zpos (digits2_pos m)) with (Zdigits2 (Zpos m)) in Hc.
    assert (Hd : Zdigits2 (Zpos m) <= - e).
    { apply Zdigits2_le; [lia |]. split; [lia |].
      assert (E : 2 ^ (- e) = 2 ^ 53 * 2 ^ (-53 - e))
        by (rewrite <- Z.pow_add_r by lia; f_equal; lia).
      lia. }
    assert (He53 : e <= -53) by (unfold fexp64 in Hc; lia).
    unfold unit_interval. rewrite ofZ_1.
    change (ofZ 0) with (S754_zero false).
    unfold leb, ltb, SFleb, SFltb. cbn [SFcompare andb].
    replace (e ?= -52) with Lt by (symmetry; apply Z.compare_lt_iff; lia).
    reflexivity.
Qed.

Lemma ofZ_233280 :
  ofZ 233280 = S754_finite false 8015439766487040 (-35).
Proof. reflexivity. Qed.

(** The number emitted from a state in [0, 233280). *)
Lemma emitted_from_state (v : Z) :
  0 <= v < 233280 ->
  valid_binary prec emax (div (ofZ v) (ofZ 233280)) = true
  /\ unit_interval (div (ofZ v) (ofZ 233280)) = true.
Proof.
  intro Hv. destruct (Z.eq_dec v 0) as [-> | Hne].
  - split; vm_compute; reflexivity.
  - rewrite (ofZ_canon v) by (change (2 ^ 53) with 9007199254740992; lia).
    rewrite ofZ_233280. unfold canon.
    destruct (canon_mantissa v
                ltac:(change (2 ^ 53) with 9007199254740992; lia))
      as [Em [Hd Hd53]].
    assert (Hd18 : Zdigits2 v <= 18)
      by (apply Zdigits2_le; [lia | change (2 ^ 18) with 262144; lia]).
    split; [apply div_valid |].
    apply unit_of_below; [apply div_valid |].
    rewrite div_round. cbv zeta. cbn [xorb].
    set (mv := Z.to_pos (v * 2 ^ (53 - Zdigits2 v))) in *.
    assert (Hdm : Zdigits2 (Zpos mv) = 53)
      by (rewrite Em, Zdigits2_shiftl by lia; lia).
    rewrite Hdm.
    change (Zdigits2 8015439766487040) with 53.
    replace (53 + (Zdigits2 v - 53) - (53 + -35)) with (Zdigits2 v - 18)
      by lia.
    replace (Zdigits2 v - 53 - -35) with (Zdigits2 v - 18) by lia.
    set (e' := Z.min (fexp64 (Zdigits2 v - 18)) (Zdigits2 v - 18)).
    assert (He' : e' = Zdigits2 v - 71) by (unfold e', fexp64; lia).
    rewrite He'.
    replace (Zdigits2 v - 18 - (Zdigits2 v - 71)) with 53 by lia.
    apply (round_below false _ _ _ (Zpos mv * 2 ^ 53) 8015439766487040);
      [lia | lia | apply new_location_rec; lia | lia | lia | lia |].
    rewrite Em.
    replace (-53 - (Zdigits2 v - 71)) with (18 - Zdigits2 v) by lia.
    assert (E : 2 ^ (53 - Zdigits2 v) = 2 ^ 35 * 2 ^ (18 - Zdigits2 v))
      by (rewrite <- Z.pow_add_r by lia; f_equal; lia).
    rewrite E.
    pose proof (pow2_pos (18 - Zdigits2 v) ltac:(lia)) as HP.
    change (2 ^ 53) with 9007199254740992.
    change (2 ^ 35) with 34359738368. nia.
Qed.

(** For an integer seed from -5 on whose first product is exact, every
    number the seeded generator emits is a valid number of [0, 1). *)
Lemma seeded_draws_in_unit_interval (s : Z) (n : nat) :
  -5 <= s -> s * 9301 + 49297 < 2 ^ 53 ->
  valid_binary prec emax (emitted (ofZ s) n) = true
  /\ unit_interval (emitted (ofZ s) n) = true.
Proof.
  intros Hlo Hhi. unfold emitted.
  destruct (lcg_state_int s n Hlo Hhi) as [-> Hb].
  now apply emitted_from_state.
Qed.

End SeededFacts.

(** * What the generators compute from a draw of the unit interval *)

Module DrawFacts.
Import Rounding DivisionFacts ExactFacts SeededFacts.

Lemma Zdigits2_mul (a b : Z) :
  0 < a -> 0 < b -> Zdigits2 a + Zdigits2 b - 1 <= Zdigits2 (a * b).
Proof.
  intros Ha Hb.
  destruct (Zdigits2_pos_bounds a Ha) as [Hda [Hla _]].
  destruct (Zdigits2_pos_bounds b Hb) as [Hdb [Hlb _]].
  pose proof (pow2_pos (Zdigits2 a - 1) ltac:(lia)).
  pose proof (pow2_pos (Zdigits2 b - 1) ltac:(lia)).
  assert (E : 2 ^ (Zdigits2 a + Zdigits2 b - 2)
              = 2 ^ (Zdigits2 a - 1) * 2 ^ (Zdigits2 b - 1))
    by (rewrite <- Z.pow_add_r by lia; f_equal; lia).
  pose proof (Zdigits2_gt (a * b) (Zdigits2 a + Zdigits2 b - 2)
                ltac:(lia) ltac:(nia)). lia.
Qed.

(** The product of two valid numbers is a valid number. *)
Lemma mul_valid (sx sy : bool) (mx my : positive) (ex ey : Z) :
  valid_binary prec emax (S754_finite sx mx ex) = true ->
  valid_binary prec emax (S754_finite sy my ey) = true ->
  valid_binary prec emax
    (mul (S754_finite sx mx ex) (S754_finite sy my ey)) = true.
Proof.
  intros Hx Hy. rewrite mul_finite.
  apply valid_mantissa in Hx as [_ [Hcx _]].
  apply valid_mantissa in Hy as [_ [Hcy _]].
  change (Zpos (digits2_pos mx)) with (Zdigits2 (Zpos mx)) in Hcx.
  change (Zpos (digits2_pos my)) with (Zdigits2 (Zpos my)) in Hcy.
  apply (round_valid _ _ _ _ (Zpos (mx * my)) 1);
    [lia | lia | apply exact_rec |].
  pose proof (Zdigits2_mul (Zpos mx) (Zpos my) ltac:(lia) ltac:(lia)) as Hd.
  destruct (Zdigits2_pos_bounds (Zpos mx) ltac:(lia)) as [Hdx _].
  destruct (Zdigits2_pos_bounds (Zpos my) ltac:(lia)) as [Hdy _].
  rewrite Pos2Z.inj_mul. unfold fexp64 in *. lia.
Qed.

Lemma binary_round_below (s : bool) (m : positive) (e K B : Z) :
  e <= K -> -1074 <= K <= 971 -> 0 < B <= 2 ^ 53 ->
  2 * Zpos m < (2 * B - 1) * 2 ^ (K - e) ->
  below s K B (binary_round prec emax s m e).
Proof.
  intros He HK HB Hm. unfold binary_round.
  pose proof (shl_align_spec m e (fexp prec emax (Zpos (digits2_pos m) + e)))
    as [Hez Hmz].
  destruct (shl_align m e (fexp prec emax (Zpos (digits2_pos m) + e)))
    as [mz ez]. cbn [fst snd] in *.
  assert (Hle : ez <= e) by lia.
  pose proof (pow2_split ez e K ltac:(lia) ltac:(lia)) as Hs.
  pose proof (pow2_pos (K - e) ltac:(lia)).
  pose proof (pow2_pos (e - ez) ltac:(lia)).
  apply (round_below s (Zpos mz) ez loc_Exact (Zpos mz) 1 K);
    try lia; [apply exact_rec |].
  rewrite Hs, Hmz. nia.
Qed.

Lemma add_finite_below (m1 m2 : positive) (e1 e2 K B : Z) :
  Z.min e1 e2 <= K -> -1074 <= K <= 971 -> 0 < B <= 2 ^ 53 ->
  2 * (Zpos m1 * 2 ^ (e1 - Z.min e1 e2) + Zpos m2 * 2 ^ (e2 - Z.min e1 e2))
  < (2 * B - 1) * 2 ^ (K - Z.min e1 e2) ->
  below false K B (add (S754_finite false m1 e1) (S754_finite false m2 e2)).
Proof.
  intros He HK HB Hsum. unfold add, SFadd. cbv zeta.
  set (ez := Z.min e1 e2) in *.
  pose proof (shl_align_spec m1 e1 ez) as [H1e H1m].
  pose proof (shl_align_spec m2 e2 ez) as [H2e H2m].
  replace (snd (shl_align m1 e1 ez)) with ez in H1m by (unfold ez in *; lia).
  replace (snd (shl_align m2 e2 ez)) with ez in H2m by (unfold ez in *; lia).
  cbn [cond_Zopp]. rewrite H1m, H2m.
  pose proof (pow2_pos (e1 - ez) ltac:(unfold ez; lia)).
  pose proof (pow2_pos (e2 - ez) ltac:(unfold ez; lia)).
  destruct (Zpos m1 * 2 ^ (e1 - ez) + Zpos m2 * 2 ^ (e2 - ez))
    as [|S|S] eqn:ES; [nia | | nia].
  cbn [binary_normalize].
  apply binary_round_below; assumption.
Qed.

(** The product of a draw of the unit interval with a constant stays
    strictly below the constant. *)
Lemma mul_unit_below (r : number) (M : positive) (eM : Z) :
  valid_binary prec emax r = true -> unit_interval r = true ->
  2 ^ 52 < Zpos M <= 2 ^ 53 -> -1074 <= eM <= 971 ->
  (exists s, r = S754_zero s)
  \/ (exists m e, r = S754_finite false m e
        /\ below false eM (Zpos M) (mul r (S754_finite false M eM))).
Proof.
  intros Hv Hu HM HeM.
  destruct (unit_interval_cases r Hv Hu)
    as [[s ->] | [m [e [-> [He Hm]]]]]; [left; now exists s | right].
  exists m, e. split; [reflexivity |].
  rewrite mul_finite. cbn [xorb].
  apply (round_below false _ _ loc_Exact (Zpos (m * M)) 1);
    [lia | lia | apply exact_rec | lia | lia | lia |].
  replace (eM - (e + eM)) with (- e) by lia.
  rewrite Pos2Z.inj_mul. pose proof (pow2_pos (- e) ltac:(lia)).
  change (2 ^ 53) with 9007199254740992 in *.
  change (2 ^ 52) with 4503599627370496 in *. nia.
Qed.

(** [Math.floor] of a positive number between two integers. *)
Lemma floor_between (lo hi K A : Z) (x : number) :
  K < 0 -> 0 < lo ->
  in_range false K (lo * 2 ^ (- K)) A x ->
  below false K (hi * 2 ^ (- K)) x ->
  exists q, lo <= q < hi /\ floor x = ofZ q.
Proof.
  intros HK Hlo Hin Hb.
  pose proof (pow2_pos (- K) ltac:(lia)) as HPK.
  destruct x as [s | s | | s m e]; cbn [in_range below] in *;
    try contradiction; [nia |].
  destruct Hin as [-> [He [Hm _]]]. destruct Hb as [_ [_ Hhi]].
  unfold floor. replace (0 <=? e) with false
    by (symmetry; apply Z.leb_gt; lia).
  exists (Z.shiftr (Zpos m) (- e)). split; [| reflexivity].
  rewrite Z.shiftr_div_pow2 by lia.
  pose proof (pow2_pos (- e) ltac:(lia)) as HP.
  pose proof (pow2_pos (K - e) ltac:(lia)) as HQ.
  assert (Hs : 2 ^ (- e) = 2 ^ (- K) * 2 ^ (K - e))
    by (rewrite <- Z.pow_add_r by lia; f_equal; lia).
  split.
  - apply Z.div_le_lower_bound; [exact HP | nia].
  - apply Z.div_lt_upper_bound; [exact HP | nia].
Qed.

(** *** [floor(r * c + base)] for a constant [c] with [c + base = top] *)

Section ScaledDraw.
Variables (Mc Mb : positive) (K base top : Z).
Hypothesis HK : -1071 <= K <= -4.
Hypothesis HMc : 2 ^ 52 < Zpos Mc < 2 ^ 53.
Hypothesis Hbase : 0 < base.
Hypothesis HMb : Zpos Mb = 8 * (base * 2 ^ (- K)).
Hypothesis Htop : Zpos Mc + base * 2 ^ (- K) = top * 2 ^ (- K).
Hypothesis Hfit : top * 2 ^ (- K) < 2 ^ 53.
Hypothesis Hroom : 4 * 2 ^ 53 + Zpos Mb < 8 * (top * 2 ^ (- K)) - 4.

Lemma floor_offset :
  floor (S754_finite false Mb (K - 3)) = ofZ base.
Proof.
  unfold floor. replace (0 <=? K - 3) with false
    by (symmetry; apply Z.leb_gt; lia).
  f_equal. rewrite Z.shiftr_div_pow2, HMb by lia.
  replace (- (K - 3)) with (3 + - K) by lia.
  rewrite Z.pow_add_r by lia. change (2 ^ 3) with 8.
  pose proof (pow2_pos (- K) ltac:(lia)).
  rewrite Z.mul_assoc, (Z.mul_comm 8 base), <- Z.mul_assoc.
  apply Z.div_mul. lia.
Qed.

Lemma scaled_draw (r : number) :
  valid_binary prec emax r = true -> unit_interval r = true ->
  exists z, base <= z < top
    /\ floor (add (mul r (S754_finite false Mc K))
                (S754_finite false Mb (K - 3)))
       = ofZ z.
Proof.
  intros Hv Hu.
  pose proof (pow2_pos (- K) ltac:(lia)) as HPK.
  assert (Htb : base < top) by nia.
  destruct (mul_unit_below r Mc K Hv Hu ltac:(lia) ltac:(lia))
    as [[s ->] | [m [e [-> Hb]]]].
  - exists base. split; [lia |].
    replace (add (mul (S754_zero s) (S754_finite false Mc K))
               (S754_finite false Mb (K - 3)))
      with (S754_finite false Mb (K - 3)) by (destruct s; reflexivity).
    apply floor_offset.
  - assert (Hva : valid_binary prec emax
                    (mul (S754_finite false m e) (S754_finite false Mc K))
                  = true).
    { apply mul_valid; [exact Hv |].
      cbn [valid_binary]. unfold bounded, canonical_mantissa.
      apply andb_true_iff. split.
      - apply Z.eqb_eq. rewrite fexp_fexp64.
        change (Zpos (digits2_pos Mc)) with (Zdigits2 (Zpos Mc)).
        rewrite (Zdigits2_unique (Zpos Mc) 53) by (cbn; lia).
        unfold fexp64. lia.
      - apply Z.leb_le. unfold emax, prec. lia. }
    destruct (mul (S754_finite false m e) (S754_finite false Mc K))
      as [s | s | | s m1 e1]; cbn [below] in Hb; try contradiction.
    + destruct Hb as [-> _]. exists base. split; [lia |].
      apply floor_offset.
    + destruct Hb as [-> [He1 Hm1]].
      apply valid_mantissa in Hva as [Hm53 _].
      pose proof (pow2_pos (K - e1) ltac:(lia)) as HQ.
      apply (floor_between base top K (top * 2 ^ (- K)));
        [lia | exact Hbase | |].
      * apply add_finite_in_range; [lia | lia | nia | exact Hfit |].
        destruct (Z_le_gt_dec e1 (K - 3)) as [Hc | Hc].
        -- replace (Z.min e1 (K - 3)) with e1 by lia.
           rewrite Z.sub_diag. change (2 ^ 0) with 1. rewrite HMb.
           assert (E : 2 ^ (K - e1) = 8 * 2 ^ (K - 3 - e1)).
           { change 8 with (2 ^ 3). rewrite <- Z.pow_add_r by lia.
             f_equal; lia. }
           pose proof (pow2_pos (K - 3 - e1) ltac:(lia)). nia.
        -- replace (Z.min e1 (K - 3)) with (K - 3) by lia.
           rewrite Z.sub_diag. change (2 ^ 0) with 1.
           replace (K - (K - 3)) with 3 by lia. change (2 ^ 3) with 8.
           rewrite HMb.
           assert (E : 8 = 2 ^ (K - e1) * 2 ^ (e1 - (K - 3))).
           { change 8 with (2 ^ 3). rewrite <- Z.pow_add_r by lia.
             f_equal; lia. }
           pose proof (pow2_pos (e1 - (K - 3)) ltac:(lia)). nia.
      * apply add_finite_below; [lia | lia | lia |].
        destruct (Z_le_gt_dec e1 (K - 3)) as [Hc | Hc].
        -- replace (Z.min e1 (K - 3)) with e1 by lia.
           rewrite Z.sub_diag. change (2 ^ 0) with 1.
           assert (E : 2 ^ (K - e1) = 8 * 2 ^ (K - 3 - e1)).
           { change 8 with (2 ^ 3). rewrite <- Z.pow_add_r by lia.
             f_equal; lia. }
           pose proof (pow2_pos (K - 3 - e1) ltac:(lia)). nia.
        -- replace (Z.min e1 (K - 3)) with (K - 3) by lia.
           rewrite Z.sub_diag. change (2 ^ 0) with 1.
           replace (K - (K - 3)) with 3 by lia. change (2 ^ 3) with 8.
           assert (C : e1 = K \/ e1 = K - 1 \/ e1 = K - 2) by lia.
           destruct C as [-> | [-> | ->]].
           ++ replace (K - (K - 3)) with 3 by lia.
              rewrite Z.sub_diag in Hm1. change (2 ^ 0) with 1 in Hm1.
              change (2 ^ 3) with 8. nia.
           ++ replace (K - 1 - (K - 3)) with 2 by lia.
              change (2 ^ 2) with 4. nia.
           ++ replace (K - 2 - (K - 3)) with 1 by lia.
              change (2 ^ 1) with 2. nia.
Qed.

End ScaledDraw.

(** *** The three uses in the generators *)

(** The nine-digit block of a PIN or an e-slip. *)
Lemma pin_number (r : number) :
  valid_binary prec emax r = true -> unit_interval r = true ->
  exists z, 100000000 <= z < 1000000000
    /\ floor (add (mul r (ofZ 900000000)) (ofZ 100000000)) = ofZ z.
Proof.
  change (ofZ 900000000) with (S754_finite false 7549747200000000 (-23)).
  change (ofZ 100000000)
    with (S754_finite false 6710886400000000 (-23 - 3)).
  apply scaled_draw; try reflexivity; try lia.
  all: change (2 ^ 53) with 9007199254740992;
    change (2 ^ 52) with 4503599627370496;
    change (2 ^ (- -23)) with 8388608; lia.
Qed.

(** The number whose first six digits make a TCC. *)
Lemma tcc_number (r : number) :
  valid_binary prec emax r = true -> unit_interval r = true ->
  exists z, 10000000 <= z < 100000000
    /\ floor (add (mul r (ofZ 90000000)) (ofZ 10000000)) = ofZ z.
Proof.
  change (ofZ 90000000) with (S754_finite false 6039797760000000 (-26)).
  change (ofZ 10000000)
    with (S754_finite false 5368709120000000 (-26 - 3)).
  apply scaled_draw; try reflexivity; try lia.
  all: change (2 ^ 53) with 9007199254740992;
    change (2 ^ 52) with 4503599627370496;
    change (2 ^ (- -26)) with 67108864; lia.
Qed.

Lemma letter_table (q : Z) :
  0 <= q < 26 ->
  exists c, fromCharCode (add (ofZ q) (ofZ 65)) = String c EmptyString
            /\ in_class UpperAZ c = true.
Proof.
  intro H.
  assert (C : q = 0 \/ q = 1 \/ q = 2 \/ q = 3 \/ q = 4 \/ q = 5 \/ q = 6
              \/ q = 7 \/ q = 8 \/ q = 9 \/ q = 10 \/ q = 11 \/ q = 12
              \/ q = 13 \/ q = 14 \/ q = 15 \/ q = 16 \/ q = 17 \/ q = 18
              \/ q = 19 \/ q = 20 \/ q = 21 \/ q = 22 \/ q = 23 \/ q = 24
              \/ q = 25) by lia.
  repeat destruct C as [C | C]; subst q; eexists;
    (split; [vm_compute; reflexivity | reflexivity]).
Qed.

(** The letter of a PIN is one of A to Z. *)
Lemma pin_letter_upper (r : number) :
  valid_binary prec emax r = true -> unit_interval r = true ->
  exists c, pin_letter r = String c EmptyString
            /\ in_class UpperAZ c = true.
Proof.
  intros Hv Hu. unfold pin_letter.
  change (ofZ 26) with (S754_finite false 7318349394477056 (-48)).
  destruct (mul_unit_below r 7318349394477056 (-48) Hv Hu)
    as [[s ->] | [m [e [-> Hb]]]].
  - change (2 ^ 52) with 4503599627370496.
    change (2 ^ 53) with 9007199254740992. lia.
  - lia.
  - exists "A"%char. destruct s; split; vm_compute; reflexivity.
  - apply (floor_below 26) in Hb; [| lia].
    destruct Hb as [q [Hq ->]]. now apply letter_table.
Qed.

End DrawFacts.

(** * The decimal rendering of an integer *)

Module ToStringFacts.
Import Rounding DivisionFacts ExactFacts NumeralFacts DigitCount.

Lemma number_eqb_eq (x y : number) : number_eqb x y = true -> x = y.
Proof.
  destruct x as [a | a | | a m e], y as [b | b | | b m' e']; cbn;
    try discriminate; try reflexivity.
  - intro H. apply Bool.eqb_prop in H. now subst.
  - intro H. apply Bool.eqb_prop in H. now subst.
  - rewrite !andb_true_iff. intros [[Hs Hm] He].
    apply Bool.eqb_prop in Hs. apply Pos.eqb_eq in Hm. apply Z.eqb_eq in He.
    now subst.
Qed.

(** An integer above [z] does not read back as [z]. *)
Lemma integer_above_differs (z v : Z) :
  0 < z < v -> v < 2 ^ 53 -> ofRatio v 1 <> canon z.
Proof.
  intros Hz Hv E.
  destruct v as [|pv|pv]; try lia.
  pose proof (ofRatio_in_range pv 1 (Zpos pv) (Zpos pv)
                ltac:(lia) Hv ltac:(lia)) as Hin.
  rewrite E in Hin. unfold canon in Hin. cbn [in_range] in Hin.
  destruct Hin as [_ [He [Hlo _]]].
  destruct (canon_mantissa z ltac:(lia)) as [Em [Hd Hd53]].
  rewrite Em in Hlo.
  replace (0 - (Zdigits2 z - 53)) with (53 - Zdigits2 z) in Hlo by lia.
  pose proof (pow2_pos (53 - Zdigits2 z) ltac:(lia)). nia.
Qed.

Section Integer.
Variables (z L : Z) (m : positive) (e : Z).
Hypothesis HL : 1 <= L <= 15.
Hypothesis Hz : 10 ^ (L - 1) <= z < 10 ^ L.
Hypothesis Hx : canon z = S754_finite false m e.

Let x : number := S754_finite false m e.
Let D : Z := 2 ^ (- e).
Let N : Z := z * D.

Lemma integer_facts :
  0 < z < 2 ^ 53 /\ e <= 0 /\ Zpos m = z * 2 ^ (- e) /\ 0 < D.
Proof.
  assert (H1 : 0 < 10 ^ (L - 1)) by (apply Z.pow_pos_nonneg; lia).
  assert (H2 : 10 ^ L <= 10 ^ 15) by (apply Z.pow_le_mono_r; lia).
  assert (H3 : 0 < z < 2 ^ 53).
  { change (10 ^ 15) with 1000000000000000 in H2.
    change (2 ^ 53) with 9007199254740992. lia. }
  destruct (canon_mantissa z H3) as [Em [Hd Hd53]].
  assert (Hm : Z.to_pos (z * 2 ^ (53 - Zdigits2 z)) = m)
    by (unfold canon in Hx; congruence).
  assert (He : Zdigits2 z - 53 = e) by (unfold canon in Hx; congruence).
  split; [exact H3 |]. split; [lia |]. split.
  - rewrite <- Hm, Em. f_equal. f_equal. lia.
  - unfold D. apply pow2_pos. lia.
Qed.

Lemma candidate_below (k : Z) :
  1 <= k <= L -> 0 <= z / 10 ^ (L - k) < 10 ^ k.
Proof.
  intro Hk. destruct integer_facts as [Hz53 _].
  assert (HP : 0 < 10 ^ (L - k)) by (apply Z.pow_pos_nonneg; lia).
  split; [apply Z.div_pos; lia |].
  apply Z.div_lt_upper_bound; [exact HP |].
  rewrite <- Z.pow_add_r by lia.
  replace (L - k + k) with L by lia. lia.
Qed.

Lemma pow10_le (k : Z) : 1 <= k <= L -> 10 ^ k <= 10 ^ L.
Proof. intro Hk. apply Z.pow_le_mono_r; lia. Qed.

(** The successor candidate never reads back: it stands for an integer
    above [z]. *)
Lemma hi_differs (k : Z) :
  1 <= k < L ->
  reads_back x (z / 10 ^ (L - k) + 1) (k - L) = false.
Proof.
  intro Hk. destruct integer_facts as [Hz53 _].
  unfold reads_back.
  replace (0 <=? k - L) with false by (symmetry; apply Z.leb_gt; lia).
  replace (- (k - L)) with (L - k) by lia.
  destruct (number_eqb _ x) eqn:E; [exfalso | reflexivity].
  apply number_eqb_eq in E. unfold x in E. rewrite <- Hx in E.
  assert (HP : 0 < 10 ^ (L - k)) by (apply Z.pow_pos_nonneg; lia).
  pose proof (candidate_below k ltac:(lia)) as Hc.
  pose proof (Z.div_mod z (10 ^ (L - k)) ltac:(lia)) as Hdm.
  pose proof (Z.mod_pos_bound z (10 ^ (L - k)) HP) as Hmb.
  assert (Hpow : 10 ^ k * 10 ^ (L - k) = 10 ^ L)
    by (rewrite <- Z.pow_add_r by lia; f_equal; lia).
  assert (H15 : 10 ^ L <= 10 ^ 15) by (apply Z.pow_le_mono_r; lia).
  change (10 ^ 15) with 1000000000000000 in H15.
  apply (integer_above_differs z ((z / 10 ^ (L - k) + 1) * 10 ^ (L - k)));
    [nia | | exact E].
  change (2 ^ 53) with 9007199254740992. nia.
Qed.

Lemma digits_at_last : digits_at x N D L L = Some (z, L).
Proof.
  destruct integer_facts as [Hz53 [He [Hm HD]]].
  unfold digits_at. cbv zeta. rewrite Z.sub_diag.
  change (0 <=? 0) with true. cbv iota.
  change (10 ^ 0) with 1. rewrite Z.mul_1_r.
  unfold N. rewrite Z.mod_mul, Z.div_mul by lia.
  change (0 =? 0) with true. cbv iota.
  replace (z =? 10 ^ L) with false by (symmetry; apply Z.eqb_neq; lia).
  reflexivity.
Qed.

Lemma digits_at_ok (k s n : Z) :
  1 <= k < L -> digits_at x N D L k = Some (s, n) ->
  n = L /\ 0 <= s < 10 ^ L.
Proof.
  intros Hk. destruct integer_facts as [Hz53 [He [Hm HD]]].
  assert (HP : 0 < 10 ^ (L - k)) by (apply Z.pow_pos_nonneg; lia).
  pose proof (candidate_below k ltac:(lia)) as Hc.
  pose proof (pow10_le k ltac:(lia)) as Hle.
  unfold digits_at. cbv zeta.
  replace (0 <=? k - L) with false by (symmetry; apply Z.leb_gt; lia).
  replace (- (k - L)) with (L - k) by lia.
  assert (Elo : N / (D * 10 ^ (L - k)) = z / 10 ^ (L - k)).
  { unfold N. rewrite (Z.mul_comm z D).
    apply Z.div_mul_cancel_l; lia. }
  rewrite Elo, hi_differs by exact Hk.
  replace (z / 10 ^ (L - k) =? 10 ^ k) with false
    by (symmetry; apply Z.eqb_neq; lia).
  destruct (N mod (D * 10 ^ (L - k)) =? 0);
    [| destruct (reads_back x (z / 10 ^ (L - k)) (k - L))];
    intro H; try discriminate H; injection H as <- <-; lia.
Qed.

Lemma shortest_ok (fuel : nat) :
  forall k, 1 <= k <= L -> L - k < Z.of_nat fuel ->
    snd (shortest x N D fuel L k) = L
    /\ 0 <= fst (shortest x N D fuel L k) < 10 ^ L.
Proof.
  induction fuel as [|fuel IH]; intros k Hk Hf; [lia |].
  cbn [shortest].
  destruct (Z.eq_dec k L) as [-> | Hne].
  - rewrite digits_at_last. cbn [fst snd]. lia.
  - destruct (digits_at x N D L k) as [[s n] |] eqn:E.
    + destruct (digits_at_ok k s n ltac:(lia) E) as [-> Hs].
      cbn [fst snd]. lia.
    + apply IH; lia.
Qed.

(** The rendering of [z]: as many decimal digits as [z] has. *)
Lemma toString_pos_integer :
  all_digits (toString_pos m e) = true
  /\ Z.of_nat (String.length (toString_pos m e)) = L.
Proof.
  destruct integer_facts as [Hz53 [He [Hm HD]]].
  unfold toString_pos. cbv zeta.
  assert (EN : (if 0 <=? e then Z.shiftl (Zpos m) e else Zpos m) = N).
  { unfold N, D. destruct (Z.leb_spec 0 e).
    - assert (e = 0) by lia. subst e. rewrite Z.shiftl_0_r, Hm. reflexivity.
    - exact Hm. }
  assert (ED : (if 0 <=? e then 1 else Z.shiftl 1 (- e)) = D).
  { unfold D. destruct (Z.leb_spec 0 e).
    - assert (e = 0) by lia. subst e. reflexivity.
    - apply Z.shiftl_1_l. }
  rewrite EN, ED. fold x.
  assert (Edec : decade N D = L).
  { unfold decade.
    replace (D <=? N) with true by (symmetry; apply Z.leb_le; unfold N; nia).
    unfold N. rewrite Z.div_mul by lia.
    rewrite (decimal_length z (Z.to_nat L)); [lia | lia |].
    rewrite Z2Nat.id by lia. exact Hz. }
  rewrite Edec.
  pose proof (shortest_ok 17 1 ltac:(lia) ltac:(cbn; lia)) as [Hn Hs].
  destruct (shortest x N D 17 L 1) as [s n]. cbn [fst snd] in *. subst n.
  pose proof (decimal_length_le s (Z.to_nat L) ltac:(lia)
                ltac:(rewrite Z2Nat.id by lia; lia)) as Hlen.
  unfold format_digits. cbv zeta.
  replace ((Z.of_nat (String.length (decimal s)) <=? L) && (L <=? 21))
    with true
    by (symmetry; apply andb_true_iff; split; apply Z.leb_le; lia).
  split.
  - rewrite all_digits_append, decimal_digits by lia.
    cbn [andb]. unfold zeros.
    induction (Z.to_nat (L - Z.of_nat (String.length (decimal s))));
      cbn; auto.
  - rewrite length_append. unfold zeros.
    assert (Hr : forall j, String.length (repeat_char "0" j) = j)
      by (induction j; cbn; congruence).
    rewrite Hr. lia.
Qed.

End Integer.

(** An integer of [L] decimal digits, [L <= 15], is rendered by [L]
    digits. *)
Lemma toString_integer (z L : Z) :
  1 <= L <= 15 -> 10 ^ (L - 1) <= z < 10 ^ L ->
  all_digits (Number_toString (ofZ z)) = true
  /\ Z.of_nat (String.length (Number_toString (ofZ z))) = L.
Proof.
  intros HL Hz.
  assert (H1 : 0 < 10 ^ (L - 1)) by (apply Z.pow_pos_nonneg; lia).
  assert (H2 : 10 ^ L <= 10 ^ 15) by (apply Z.pow_le_mono_r; lia).
  change (10 ^ 15) with 1000000000000000 in H2.
  rewrite ofZ_canon by (change (2 ^ 53) with 9007199254740992; lia).
  destruct (canon z) as [s | s | | s m e] eqn:E; try discriminate E.
  assert (s = false) by (unfold canon in E; congruence). subst s.
  cbn [Number_toString].
  exact (toString_pos_integer z L m e HL Hz E).
Qed.

End ToStringFacts.

(** * Generated strings pass their validators when the draws lie in
      the unit interval *)

Module ValidFacts.
Import NumeralFacts DigitCount ToStringFacts DrawFacts SeededFacts.

Lemma append_nil_r (s : string) : append s EmptyString = s.
Proof. induction s as [|c s IH]; cbn; [reflexivity | now rewrite IH]. Qed.

Lemma at_least_digits (n : nat) (cont : string -> bool) :
  forall d s, all_digits d = true -> String.length d = n ->
    at_least Digit n cont (append d s) = cont s.
Proof.
  induction n as [|n IH]; intros d s Hd Hl.
  - destruct d; [reflexivity | discriminate Hl].
  - destruct d as [|c d]; [discriminate Hl |].
    cbn [all_digits] in Hd. apply andb_true_iff in Hd as [Hc Hd].
    cbn [append at_least]. rewrite Hc. cbn [andb].
    apply IH; [exact Hd | now injection Hl].
Qed.

Lemma match_lit (c : ascii) (ps : list piece) (s : string) :
  matches (lit c :: ps) (String c s) = matches ps s.
Proof.
  cbn [matches lit cls rmin rmax Nat.sub at_least at_most in_class].
  now rewrite Ascii.eqb_refl.
Qed.

Lemma match_digits (lo hi : nat) (ps : list piece) (d s : string) :
  all_digits d = true -> String.length d = lo ->
  matches (Piece Digit lo hi :: ps) (append d s)
  = at_most Digit (hi - lo) (matches ps) s.
Proof.
  intros Hd Hl. cbn [matches cls rmin rmax]. now apply at_least_digits.
Qed.

Lemma digits_prefix (n : nat) (s : string) :
  all_digits s = true -> (n <= String.length s)%nat ->
  all_digits (substring 0 n s) = true
  /\ String.length (substring 0 n s) = n.
Proof.
  intros Hd Hl. split; [| apply substring_length; lia].
  rewrite <- (substring_split n s Hl), all_digits_append in Hd.
  now apply andb_true_iff in Hd.
Qed.

Section UnitDraws.
Variables r1 r2 : number.
Hypothesis Hv1 : valid_binary prec emax r1 = true.
Hypothesis Hu1 : unit_interval r1 = true.
Hypothesis Hv2 : valid_binary prec emax r2 = true.
Hypothesis Hu2 : unit_interval r2 = true.

Lemma pin_digits_nine :
  all_digits (pin_digits r1) = true
  /\ String.length (pin_digits r1) = 9%nat.
Proof.
  unfold pin_digits. destruct (pin_number r1 Hv1 Hu1) as [z [Hz ->]].
  destruct (toString_integer z 9 ltac:(lia) ltac:(cbn; lia)) as [Hd Hl].
  split; [exact Hd | lia].
Qed.

Lemma tcc_digits_six :
  all_digits (tcc_digits r1) = true
  /\ String.length (tcc_digits r1) = 6%nat.
Proof.
  unfold tcc_digits, slice0.
  destruct (tcc_number r1 Hv1 Hu1) as [z [Hz ->]].
  destruct (toString_integer z 8 ltac:(lia) ltac:(cbn; lia)) as [Hd Hl].
  apply digits_prefix; [exact Hd | lia].
Qed.

Lemma pin_valid :
  validatePINFormat (append "P" (append (pin_digits r1) (pin_letter r2)))
  = true.
Proof.
  destruct pin_digits_nine as [Hd Hl].
  destruct (pin_letter_upper r2 Hv2 Hu2) as [c [-> Hc]].
  unfold validatePINFormat. cbn [append].
  rewrite match_lit, (match_digits 9 9) by assumption.
  cbn [Nat.sub at_most matches cls rmin rmax at_least at_end].
  now rewrite Hc.
Qed.

Lemma tcc_valid : validateTCCFormat (append "TCC" (tcc_digits r1)) = true.
Proof.
  destruct tcc_digits_six as [Hd Hl].
  unfold validateTCCFormat. cbn [append].
  rewrite !match_lit, <- (append_nil_r (tcc_digits r1)).
  rewrite (match_digits 6 8) by assumption. reflexivity.
Qed.

Lemma eslip_valid :
  validateEslipFormat (append "ESLIP" (pin_digits r1)) = true.
Proof.
  destruct pin_digits_nine as [Hd Hl].
  unfold validateEslipFormat. cbn [append].
  rewrite !match_lit, <- (append_nil_r (pin_digits r1)).
  rewrite (match_digits 9 12) by assumption. reflexivity.
Qed.

End UnitDraws.

End ValidFacts.

(** * Properties *)

(** ** What a seeded call computes *)

Lemma generatePIN_seeded (s : number) (w : World) :
  generatePIN (Some s) w
  = (append "P" (append (pin_digits (emitted s 0)) (pin_letter (emitted s 1))),
     w).
Proof. reflexivity. Qed.

Lemma generateTCC_seeded (s : number) (w : World) :
  generateTCC (Some s) w = (append "TCC" (tcc_digits (emitted s 0)), w).
Proof. reflexivity. Qed.

Lemma generateEslip_seeded (s : number) (w : World) :
  generateEslip (Some s) w = (append "ESLIP" (pin_digits (emitted s 0)), w).
Proof. reflexivity. Qed.

(** The draws of a run on [Math.random]. *)
Lemma generatePIN_platform (w : World) :
  fst (generatePIN None w)
  = append "P" (append (pin_digits (entropy w (drawn w)))
                  (pin_letter (entropy w (S (drawn w))))).
Proof. reflexivity. Qed.

(** ** The documented example seed *)

Example generatePIN_12345 (w : World) :
  fst (generatePIN (Some (ofZ 12345)) w) = "P471844135A".
Proof. rewrite generatePIN_seeded. vm_compute. reflexivity. Qed.

(** ** Where the generators do keep their promises

    With draws in the unit interval -- every number [Math.random]
    returns, and every number a seeded generator emits for an integer
    seed from -5 on -- the strings have the documented shape and pass
    their validators. *)

Lemma generated_valid_on_platform (w : World) :
  valid_binary prec emax (entropy w (drawn w)) = true ->
  unit_interval (entropy w (drawn w)) = true ->
  valid_binary prec emax (entropy w (S (drawn w))) = true ->
  unit_interval (entropy w (S (drawn w))) = true ->
  validatePINFormat (fst (generatePIN None w)) = true
  /\ validateTCCFormat (fst (generateTCC None w)) = true
  /\ validateEslipFormat (fst (generateEslip None w)) = true.
Proof.
  intros Hv1 Hu1 Hv2 Hu2. rewrite generatePIN_platform.
  split; [now apply ValidFacts.pin_valid |].
  split; [now apply ValidFacts.tcc_valid | now apply ValidFacts.eslip_valid].
Qed.

Lemma generated_valid_on_seed (s : Z) (w : World) :
  -5 <= s -> s * 9301 + 49297 < 2 ^ 53 ->
  validatePINFormat (fst (generatePIN (Some (ofZ s)) w)) = true
  /\ validateTCCFormat (fst (generateTCC (Some (ofZ s)) w)) = true
  /\ validateEslipFormat (fst (generateEslip (Some (ofZ s)) w)) = true.
Proof.
  intros Hlo Hhi.
  rewrite generatePIN_seeded, generateTCC_seeded, generateEslip_seeded.
  cbn [fst].
  destruct (SeededFacts.seeded_draws_in_unit_interval s 0 Hlo Hhi)
    as [Hv0 Hu0].
  destruct (SeededFacts.seeded_draws_in_unit_interval s 1 Hlo Hhi)
    as [Hv1 Hu1].
  split; [now apply ValidFacts.pin_valid |].
  split; [now apply ValidFacts.tcc_valid | now apply ValidFacts.eslip_valid].
Qed.

Lemma generated_digit_counts_on_seed (s : Z) (w : World) :
  -5 <= s -> s * 9301 + 49297 < 2 ^ 53 ->
  (exists d, fst (generateTCC (Some (ofZ s)) w) = append "TCC" d
             /\ all_digits d = true /\ String.length d = 6%nat)
  /\ (exists d, fst (generateEslip (Some (ofZ s)) w) = append "ESLIP" d
                /\ all_digits d = true /\ String.length d = 9%nat).
Proof.
  intros Hlo Hhi. rewrite generateTCC_seeded, generateEslip_seeded.
  cbn [fst].
  destruct (SeededFacts.seeded_draws_in_unit_interval s 0 Hlo Hhi)
    as [Hv0 Hu0].
  split; eexists; (split; [reflexivity |]).
  - now apply ValidFacts.tcc_digits_six.
  - now apply ValidFacts.pin_digits_nine.
Qed.

(** ** C1, C2, C3: negative seeds *)

(** C1.  The claim is that for every seed the generated PIN, TCC and
    e-slip pass their validators.  The remainder operator keeps the sign
    of the dividend, so a seed of -6 leaves the generator at -6509 and the
    first draw is negative: the PIN has eight digits and the character
    "9" where the letter should be, and the e-slip has eight digits; a
    seed of -9 makes the TCC start with a minus sign.  None of them passes
    its validator. *)
Theorem generated_fails_validator_on_negative_seed (w : World) :
  fst (generatePIN (Some (ofZ (-6))) w) = "P748881179"
  /\ validatePINFormat (fst (generatePIN (Some (ofZ (-6))) w)) = false
  /\ validateEslipFormat (fst (generateEslip (Some (ofZ (-6))) w)) = false
  /\ validateTCCFormat (fst (generateTCC (Some (ofZ (-9))) w)) = false.
Proof.
  rewrite generatePIN_seeded, generateEslip_seeded, generateTCC_seeded.
  cbn [fst]. repeat split; vm_compute; reflexivity.
Qed.

(** C2.  The claim is that every number emitted by the seeded generator
    lies in [0, 1).  For the seed -6 the state after one step is
    (-6 * 9301 + 49297) % 233280 = -6509 and the first number emitted is
    -6509 / 233280, which is negative. *)
Theorem seeded_draw_negative_on_negative_seed :
  lcg_step (ofZ (-6)) = ofZ (-6509)
  /\ emitted (ofZ (-6)) 0 = div (ofZ (-6509)) (ofZ 233280)
  /\ ltb (emitted (ofZ (-6)) 0) (ofZ 0) = true
  /\ unit_interval (emitted (ofZ (-6)) 0) = false.
Proof. repeat split; vm_compute; reflexivity. Qed.

(** C3.  The claim is that for every seed the TCC is "TCC" followed by
    exactly six digits and the e-slip is "ESLIP" followed by exactly nine
    digits.  For the seed -9 the TCC is "TCC-32762" and for the seed -6
    the e-slip is "ESLIP74888117", with eight digits. *)
Theorem tcc_eslip_digit_count_on_negative_seed (w : World) :
  fst (generateTCC (Some (ofZ (-9))) w) = "TCC-32762"
  /\ fst (generateEslip (Some (ofZ (-6))) w) = "ESLIP74888117"
  /\ validateTCCFormat "TCC-32762" = false
  /\ validateEslipFormat "ESLIP74888117" = false.
Proof.
  rewrite generateTCC_seeded, generateEslip_seeded.
  cbn [fst]. repeat split; vm_compute; reflexivity.
Qed.


(** ** C8: seeded calls are reproducible *)

(** C8.  For every seed, two calls of a seeded generator return equal
    results, whatever the state of the platform at each call: the result
    is a function of the first two numbers the seeded generator emits (the
    first one for the TCC and the e-slip), drawn in that order, and the
    call neither reads nor advances [Math.random] or the clock. *)
Theorem seeded_generators_deterministic (s : number) (w1 w2 : World) :
  (fst (generatePIN (Some s) w1) = fst (generatePIN (Some s) w2)
   /\ fst (generateTCC (Some s) w1) = fst (generateTCC (Some s) w2)
   /\ fst (generateEslip (Some s) w1) = fst (generateEslip (Some s) w2))
  /\ (fst (generatePIN (Some s) w1)
        = append "P" (append (pin_digits (emitted s 0))
                        (pin_letter (emitted s 1)))
      /\ fst (generateTCC (Some s) w1) = append "TCC" (tcc_digits (emitted s 0))
      /\ fst (generateEslip (Some s) w1)
         = append "ESLIP" (pin_digits (emitted s 0)))
  /\ (snd (generatePIN (Some s) w1) = w1
      /\ snd (generateTCC (Some s) w1) = w1
      /\ snd (generateEslip (Some s) w1) = w1).
Proof.
  rewrite !generatePIN_seeded, !generateTCC_seeded, !generateEslip_seeded.
  cbn [fst snd]. repeat split; reflexivity.
Qed.

(** ** C9: the digits of the PIN and of the e-slip of one seed *)


(** The characters of the PIN between its first and its last character
    are the characters of the e-slip after "ESLIP": both render
    [floor(r * 900000000 + 100000000)] for the first number [r] of the
    seeded generator. *)
Lemma pin_and_eslip_share_digits (s : number) (w w' : World) :
  pin_digit_block (fst (generatePIN (Some s) w))
  = eslip_digit_block (fst (generateEslip (Some s) w'))
  /\ pin_digit_block (fst (generatePIN (Some s) w)) = pin_digits (emitted s 0).
Proof.
  rewrite generatePIN_seeded, generateEslip_seeded. cbn [fst].
  set (D := pin_digits (emitted s 0)). set (L := pin_letter (emitted s 1)).
  assert (HL : String.length L = 1%nat) by apply fromCharCode_length.
  assert (Hp : pin_digit_block (append "P" (append D L)) = D).
  { unfold pin_digit_block. cbn [append String.length substring].
    rewrite length_append, HL.
    replace (S (String.length D + 1) - 2)%nat with (String.length D) by lia.
    apply substring_prefix. }
  assert (He : eslip_digit_block (append "ESLIP" D) = D).
  { unfold eslip_digit_block. cbn [append String.length substring].
    replace (S (S (S (S (S (String.length D))))) - 5)%nat
      with (String.length D) by lia.
    apply substring_all. }
  rewrite Hp, He. split; reflexivity.
Qed.

(** C9.  The claim is that for every seed the nine digits of the PIN,
    between the leading "P" and the trailing letter, are the digits of the
    e-slip.  For the seed -6 the first number of the seeded generator is
    negative, [floor(r * 900000000 + 100000000)] is 74888117, of eight
    digits, and the second number gives the character "9" in place of a
    letter: the PIN is "P748881179" and the e-slip "ESLIP74888117".  The
    nine characters after "P" are "748881179", which is not the digit
    block "74888117" of the e-slip, and the PIN ends in no letter. *)
Theorem pin_nine_digits_differ_on_negative_seed (w : World) :
  fst (generatePIN (Some (ofZ (-6))) w) = "P748881179"
  /\ fst (generateEslip (Some (ofZ (-6))) w) = "ESLIP74888117"
  /\ substring 1 9 (fst (generatePIN (Some (ofZ (-6))) w)) = "748881179"
  /\ eslip_digit_block (fst (generateEslip (Some (ofZ (-6))) w))
     = "74888117"
  /\ String.eqb
       (substring 1 9 (fst (generatePIN (Some (ofZ (-6))) w)))
       (eslip_digit_block (fst (generateEslip (Some (ofZ (-6))) w)))
     = false
  /\ (exists c, substring 10 1 (fst (generatePIN (Some (ofZ (-6))) w))
                = EmptyString
                /\ substring 9 1 (fst (generatePIN (Some (ofZ (-6))) w))
                   = String c EmptyString
                /\ in_class UpperAZ c = false).
Proof.
  rewrite generatePIN_seeded, generateEslip_seeded. cbn [fst].
  assert (EP : append "P" (append (pin_digits (emitted (ofZ (-6)) 0))
                             (pin_letter (emitted (ofZ (-6)) 1)))
               = "P748881179") by (vm_compute; reflexivity).
  assert (EE : append "ESLIP" (pin_digits (emitted (ofZ (-6)) 0))
               = "ESLIP74888117") by (vm_compute; reflexivity).
  rewrite EP, EE.
  repeat split; try reflexivity.
  exists "9"%char. repeat split; reflexivity.
Qed.


(** ** Bulk generation: sets and loops *)

Section Bulk.
Variable gen : World -> string * World.

Lemma Set_has_In (s : list string) (x : string) :
  Set_has s x = true <-> In x s.
Proof.
  unfold Set_has. rewrite existsb_exists. split.
  - intros [y [Hy Heq]]. apply String.eqb_eq in Heq. now subst.
  - intro H. exists x. split; [exact H | apply String.eqb_refl].
Qed.

Lemma Set_add_NoDup (s : list string) (x : string) :
  NoDup s -> NoDup (Set_add s x).
Proof.
  intro H. unfold Set_add. destruct (Set_has s x) eqn:E; [exact H |].
  assert (Hx : ~ In x s).
  { intro Hin. apply Set_has_In in Hin. congruence. }
  clear E. induction H as [|y l Hy Hl IH]; cbn.
  - constructor; [intros [] | constructor].
  - constructor.
    + rewrite in_app_iff. cbn. intros [Hin | [Heq | []]].
      * contradiction.
      * apply Hx. left. symmetry. exact Heq.
    + apply IH. intro Hin. apply Hx. right. exact Hin.
Qed.

Lemma Set_add_length (s : list string) (x : string) :
  (List.length s <= List.length (Set_add s x) <= S (List.length s))%nat.
Proof.
  unfold Set_add. destruct (Set_has s x).
  - lia.
  - rewrite length_app. cbn. lia.
Qed.

(** The loop keeps the set free of duplicates; when it ends the size is
    no longer below [count], and the last element added, if any, was
    added to a set whose size was below [count]. *)
Lemma fill_set_spec (fuel : nat) (count : number) :
  forall (set : list string) (w : World) (l : list string) (w' : World),
    NoDup set ->
    fill_set fuel count gen set w = Some (l, w') ->
    NoDup l
    /\ ltb (ofZ (Z.of_nat (List.length l))) count = false
    /\ (l = set
        \/ exists l0 : list string,
             ltb (ofZ (Z.of_nat (List.length l0))) count = true
             /\ (List.length l0 <= List.length l <= S (List.length l0))%nat).
Proof.
  induction fuel as [|fuel IH]; intros set w l w' Hnd H; cbn [fill_set] in H.
  - destruct (ltb (ofZ (Z.of_nat (List.length set))) count) eqn:E;
      [discriminate |].
    injection H as <- <-. auto.
  - destruct (ltb (ofZ (Z.of_nat (List.length set))) count) eqn:E.
    + destruct (gen w) as [x w1].
      apply IH in H; [| now apply Set_add_NoDup].
      destruct H as [Hl [Hend Hlast]].
      split; [exact Hl |]. split; [exact Hend |]. right.
      destruct Hlast as [-> | Hlast]; [| exact Hlast].
      exists set. split; [exact E | apply Set_add_length].
    + injection H as <- <-. auto.
Qed.

Lemma array_fill_length (n : nat) (w : World) :
  List.length (fst (array_fill n gen w)) = n.
Proof.
  revert w. induction n as [|n IH]; intro w; cbn; [reflexivity |].
  destruct (gen w) as [x w1]. specialize (IH w1).
  destruct (array_fill n gen w1) as [xs w2]. cbn in *. now rewrite IH.
Qed.

End Bulk.

(** ** C7: a window of zero days *)

Section ZeroWindow.






End ZeroWindow.




(** ** The month of a tax period *)


Section TaxPeriod.




End TaxPeriod.

Example taxPeriod_month_zero_sample :
  fst (generateTaxPeriod (ofZ 0) (Some (ofZ 0)) sample_world) = "202611".
Proof. vm_compute. reflexivity. Qed.

(** ** Amounts between 1000 and 2000 with two decimals *)


(** For every random draw in [0, 1) -- every number [Math.random] can
    return, and every number of a seeded generator that lies in the
    interval -- [generateAmount(1000, 2000, 2)] returns a number [x] with
    [1000 <= x <= 2000] that has at most two fractional digits: it is the
    number read from the numeral that [toFixed(2)] prints. *)
Lemma generateAmount_1000_2000 (seed : option number) (w : World)
  (Hvalid : valid_binary prec emax (fst (fst (call (random_of seed) w)))
            = true)
  (Hdraw : unit_interval (fst (fst (call (random_of seed) w))) = true) :
  exists x,
    fst (generateAmount (ofZ 1000) (ofZ 2000) (ofZ 2) seed w) = Some x
    /\ leb (ofZ 1000) x = true /\ leb x (ofZ 2000) = true
    /\ at_most_fraction_digits 2 x.
Proof.
  unfold generateAmount.
  destruct (call (random_of seed) w) as [[r random'] w'].
  cbn [fst snd] in *.
  pose proof (AmountBounds.amount_in_range r Hvalid Hdraw) as Hr.
  destruct (add (mul r (sub (ofZ 2000) (ofZ 1000))) (ofZ 1000))
    as [s | s | | s m e] eqn:E; cbn [in_range] in Hr;
    try contradiction; [lia |].
  destruct Hr as [-> [He Hm]].
  pose proof (AmountBounds.nearest_scaled_range m e
                (conj eq_refl (conj He Hm))) as Hn.
  rewrite AmountBounds.toFixed_2 by exact He. cbn [option_map].
  set (n := nearest_scaled m e 2) in *.
  exists (Number_ofString (fixed_digits n 2)).
  split; [reflexivity |].
  rewrite NumeralFacts.read_fixed_digits by lia.
  change (10 ^ Z.of_nat 2) with 100.
  destruct n as [|p|p] eqn:En; try lia.
  assert (Hp : 1000 * 100 <= Zpos p <= 2000 * 100) by lia.
  pose proof (DivisionFacts.ofRatio_in_range p 100 1000 2000
                ltac:(lia) ltac:(lia) Hp) as Hin.
  pose proof (DivisionFacts.ofRatio_valid p 100) as Hv.
  destruct (DivisionFacts.leb_1000_2000 _ Hv Hin) as [H1 H2].
  repeat split; try assumption.
  exists (Zpos p). split; [lia | reflexivity].
Qed.

(** In particular for every integer seed from -5 on. *)
Lemma generateAmount_1000_2000_on_seed (s : Z) (w : World) :
  -5 <= s -> s * 9301 + 49297 < 2 ^ 53 ->
  exists x,
    fst (generateAmount (ofZ 1000) (ofZ 2000) (ofZ 2) (Some (ofZ s)) w)
    = Some x
    /\ leb (ofZ 1000) x = true /\ leb x (ofZ 2000) = true
    /\ at_most_fraction_digits 2 x.
Proof.
  intros Hlo Hhi.
  destruct (SeededFacts.seeded_draws_in_unit_interval s 0 Hlo Hhi)
    as [Hv Hu].
  now apply generateAmount_1000_2000.
Qed.

Example generateAmount_sample :
  option_map Number_toString
    (fst (generateAmount (ofZ 1000) (ofZ 2000) (ofZ 2) None sample_world))
  = Some "1885.88".
Proof. vm_compute. reflexivity. Qed.

(** C6.  The claim is that [generateAmount(1000, 2000, 2)] returns a
    number between 1000 and 2000 with at most two fractional digits for
    every random draw in [0, 1) and, equivalently, for every seed.  For
    the draws of the interval this holds (above).  It does not hold for
    every seed: the seed -6 gives the draw -6509 / 233280, the amount
    972.0979..., and the result 972.1, below 1000. *)
Theorem generateAmount_below_1000_on_negative_seed (w : World) :
  exists x,
    fst (generateAmount (ofZ 1000) (ofZ 2000) (ofZ 2) (Some (ofZ (-6))) w)
    = Some x
    /\ Number_toString x = "972.1"
    /\ ltb x (ofZ 1000) = true
    /\ leb (ofZ 1000) x = false.
Proof.
  eexists. split; [vm_compute; reflexivity |].
  repeat split; vm_compute; reflexivity.
Qed.

(** * More on decimal renderings *)

Module DecimalExact.
Import Rounding DivisionFacts ExactFacts NumeralFacts DigitCount
  ToStringFacts.

Lemma append_assoc (a b c : string) :
  append (append a b) c = append a (append b c).
Proof. induction a as [|x a IH]; cbn; [reflexivity | now rewrite IH]. Qed.

Lemma string_of_revapp (d d' : Decimal.uint) :
  NilEmpty.string_of_uint (Decimal.revapp d d')
  = append (NilEmpty.string_of_uint (Decimal.revapp d Decimal.Nil))
      (NilEmpty.string_of_uint d').
Proof.
  revert d'. induction d as [|d IH|d IH|d IH|d IH|d IH|d IH|d IH|d IH|d IH|d IH];
    intro d'; cbn [Decimal.revapp]; [reflexivity | ..];
    rewrite IH; symmetry; rewrite IH; rewrite append_assoc; reflexivity.
Qed.

(** Ten times a positive number: one more digit, a zero. *)
Lemma decimal_tenfold (n : Z) :
  0 < n -> decimal (10 * n) = append (decimal n) "0".
Proof.
  intro Hn.
  destruct (decimal_uint (10 * n) ltac:(lia)) as [-> _].
  destruct (decimal_uint n ltac:(lia)) as [-> _].
  destruct n as [|p|p]; try lia.
  change (Z.to_N (10 * Zpos p)) with (10 * Npos p)%N.
  change (Z.to_N (Zpos p)) with (Npos p).
  assert (E : forall q, N.to_uint (Npos q)
                        = Decimal.rev (DecimalPos.Unsigned.to_lu (Npos q)))
    by reflexivity.
  change (10 * Npos p)%N with (Npos (10 * p)) at 1.
  rewrite !E. change (Npos (10 * p)) with (10 * Npos p)%N.
  rewrite DecimalPos.Unsigned.to_ldec_tenfold.
  unfold Decimal.rev. cbn [Decimal.revapp].
  apply string_of_revapp.
Qed.

Lemma decimal_shift (s : Z) (j : nat) :
  0 < s -> decimal (s * 10 ^ Z.of_nat j) = append (decimal s) (zeros (Z.of_nat j)).
Proof.
  intro Hs. unfold zeros. rewrite Nat2Z.id.
  induction j as [|j IH].
  - cbn [repeat_char]. change (10 ^ Z.of_nat 0) with 1.
    rewrite Z.mul_1_r. symmetry. apply ValidFacts.append_nil_r.
  - rewrite Nat2Z.inj_succ, Z.pow_succ_r by lia.
    replace (s * (10 * 10 ^ Z.of_nat j)) with (10 * (s * 10 ^ Z.of_nat j))
      by lia.
    assert (0 < 10 ^ Z.of_nat j) by (apply Z.pow_pos_nonneg; lia).
    rewrite decimal_tenfold by nia. rewrite IH, append_assoc. f_equal.
    clear. induction j as [|j IH]; cbn; [reflexivity |].
    cbn in IH. now rewrite IH.
Qed.

(** An integer below [z] does not read back as [z]. *)
Lemma integer_below_differs (z v : Z) :
  0 < v < z -> z < 2 ^ 53 -> ofRatio v 1 <> canon z.
Proof.
  intros Hv Hz E.
  destruct v as [|pv|pv]; try lia.
  pose proof (ofRatio_in_range pv 1 (Zpos pv) (Zpos pv)
                ltac:(lia) ltac:(lia) ltac:(lia)) as Hin.
  rewrite E in Hin. unfold canon in Hin. cbn [in_range] in Hin.
  destruct Hin as [_ [He [_ Hhi]]].
  destruct (canon_mantissa z ltac:(lia)) as [Em [Hd Hd53]].
  rewrite Em in Hhi.
  replace (0 - (Zdigits2 z - 53)) with (53 - Zdigits2 z) in Hhi by lia.
  pose proof (pow2_pos (53 - Zdigits2 z) ltac:(lia)). nia.
Qed.

Section Integer.
Variables (z L : Z) (m : positive) (e : Z).
Hypothesis HL : 1 <= L <= 15.
Hypothesis Hz : 10 ^ (L - 1) <= z < 10 ^ L.
Hypothesis Hx : canon z = S754_finite false m e.

Let x : number := S754_finite false m e.
Let D : Z := 2 ^ (- e).
Let N : Z := z * D.

(** Fewer digits than [z] has are enough only when the digits left out
    are zeros. *)
Lemma digits_at_exact (k s n : Z) :
  1 <= k < L -> digits_at x N D L k = Some (s, n) ->
  n = L /\ s * 10 ^ (L - k) = z /\ 10 ^ (k - 1) <= s < 10 ^ k.
Proof.
  intros Hk.
  destruct (integer_facts z L m e HL Hz Hx) as [Hz53 [He [Hm HD]]].
  fold D in HD.
  assert (HP : 0 < 10 ^ (L - k)) by (apply Z.pow_pos_nonneg; lia).
  pose proof (candidate_below z L m e HL Hz Hx k ltac:(lia)) as Hc.
  assert (Hlow : 10 ^ (k - 1) <= z / 10 ^ (L - k)).
  { apply Z.div_le_lower_bound; [exact HP |].
    rewrite (Z.mul_comm), <- Z.pow_add_r by lia.
    replace (k - 1 + (L - k)) with (L - 1) by lia. lia. }
  unfold digits_at. cbv zeta.
  replace (0 <=? k - L) with false by (symmetry; apply Z.leb_gt; lia).
  replace (- (k - L)) with (L - k) by lia.
  assert (Elo : N / (D * 10 ^ (L - k)) = z / 10 ^ (L - k)).
  { unfold N. rewrite (Z.mul_comm z D).
    apply Z.div_mul_cancel_l; lia. }
  assert (Emod : N mod (D * 10 ^ (L - k)) = D * (z mod 10 ^ (L - k))).
  { unfold N. rewrite (Z.mul_comm z D).
    apply Z.mul_mod_distr_l; lia. }
  rewrite Elo, Emod.
  pose proof (hi_differs z L m e HL Hz Hx k Hk) as Hhi. fold x in Hhi.
  replace (z / 10 ^ (L - k) =? 10 ^ k) with false
    by (symmetry; apply Z.eqb_neq; lia).
  pose proof (Z.div_mod z (10 ^ (L - k)) ltac:(lia)) as Hdm.
  pose proof (Z.mod_pos_bound z (10 ^ (L - k)) HP) as Hmb.
  destruct (D * (z mod 10 ^ (L - k)) =? 0) eqn:Er.
  - apply Z.eqb_eq in Er. clear Hhi. intro H. injection H as <- <-.
    assert (z mod 10 ^ (L - k) = 0) by nia.
    repeat split; try lia; nia.
  - apply Z.eqb_neq in Er.
    rewrite Hhi.
    destruct (reads_back x (z / 10 ^ (L - k)) (k - L)) eqn:Erb;
      [intros _; exfalso | intro H; discriminate H].
    unfold reads_back in Erb.
    replace (0 <=? k - L) with false in Erb
      by (symmetry; apply Z.leb_gt; lia).
    replace (- (k - L)) with (L - k) in Erb by lia.
    apply number_eqb_eq in Erb. unfold x in Erb. rewrite <- Hx in Erb.
    assert (0 < 10 ^ (k - 1)) by (apply Z.pow_pos_nonneg; lia).
    apply (integer_below_differs z (z / 10 ^ (L - k) * 10 ^ (L - k)));
      [| lia | exact Erb].
    assert (z mod 10 ^ (L - k) <> 0) by nia. nia.
Qed.

Lemma shortest_exact (fuel : nat) :
  forall k, 1 <= k <= L -> L - k < Z.of_nat fuel ->
    exists s j, shortest x N D fuel L k = (s, L)
      /\ 1 <= j <= L /\ s * 10 ^ (L - j) = z /\ 10 ^ (j - 1) <= s < 10 ^ j.
Proof.
  induction fuel as [|fuel IH]; intros k Hk Hf; [lia |].
  cbn [shortest].
  destruct (Z.eq_dec k L) as [-> | Hne].
  - unfold x, N, D. rewrite (digits_at_last z L m e HL Hz Hx).
    exists z, L. rewrite Z.sub_diag. change (10 ^ 0) with 1.
    repeat split; lia.
  - destruct (digits_at x N D L k) as [[s n] |] eqn:E.
    + destruct (digits_at_exact k s n ltac:(lia) E) as [-> [Hs Hr]].
      exists s, k. repeat split; lia.
    + apply IH; lia.
Qed.

Lemma toString_pos_decimal : toString_pos m e = decimal z.
Proof.
  destruct (integer_facts z L m e HL Hz Hx) as [Hz53 [He [Hm HD]]].
  fold D in HD.
  unfold toString_pos. cbv zeta.
  assert (EN : (if 0 <=? e then Z.shiftl (Zpos m) e else Zpos m) = N).
  { unfold N, D. destruct (Z.leb_spec 0 e).
    - assert (e = 0) by lia. subst e. rewrite Z.shiftl_0_r, Hm. reflexivity.
    - exact Hm. }
  assert (ED : (if 0 <=? e then 1 else Z.shiftl 1 (- e)) = D).
  { unfold D. destruct (Z.leb_spec 0 e).
    - assert (e = 0) by lia. subst e. reflexivity.
    - apply Z.shiftl_1_l. }
  rewrite EN, ED. fold x.
  assert (Edec : decade N D = L).
  { unfold decade.
    replace (D <=? N) with true by (symmetry; apply Z.leb_le; unfold N; nia).
    unfold N. rewrite Z.div_mul by lia.
    rewrite (decimal_length z (Z.to_nat L)); [lia | lia |].
    rewrite Z2Nat.id by lia. exact Hz. }
  rewrite Edec.
  destruct (shortest_exact 17 1 ltac:(lia) ltac:(cbn; lia))
    as [s [j [-> [Hj [Hs Hr]]]]].
  assert (Hlen : String.length (decimal s) = Z.to_nat j).
  { apply decimal_length; [lia |]. rewrite Z2Nat.id by lia. exact Hr. }
  unfold format_digits. cbv zeta. rewrite Hlen, Z2Nat.id by lia.
  replace ((j <=? L) && (L <=? 21)) with true
    by (symmetry; apply andb_true_iff; split; apply Z.leb_le; lia).
  assert (0 < 10 ^ (j - 1)) by (apply Z.pow_pos_nonneg; lia).
  rewrite <- Hs. replace (L - j) with (Z.of_nat (Z.to_nat (L - j))) by lia.
  symmetry. apply decimal_shift. lia.
Qed.

End Integer.

Lemma digit_count (z : Z) :
  0 < z < 10 ^ 15 ->
  exists L, 1 <= L <= 15 /\ 10 ^ (L - 1) <= z < 10 ^ L.
Proof.
  intro Hz.
  assert (G : forall n : nat, z < 10 ^ Z.of_nat n ->
              exists L, 1 <= L <= Z.of_nat n /\ 10 ^ (L - 1) <= z < 10 ^ L).
  { induction n as [|n IH]; intro Hn.
    - change (10 ^ Z.of_nat 0) with 1 in Hn. lia.
    - destruct (Z_lt_ge_dec z (10 ^ Z.of_nat n)) as [Hlt | Hge].
      + destruct (IH Hlt) as [L [HL HzL]]. exists L. split; [lia | exact HzL].
      + exists (Z.of_nat (S n)). split; [lia |].
        replace (Z.of_nat (S n) - 1) with (Z.of_nat n) by lia. lia. }
  destruct (G 15%nat ltac:(change (Z.of_nat 15) with 15; lia)) as [L [HL H]].
  exists L. split; [change (Z.of_nat 15) with 15 in HL; lia | exact H].
Qed.

(** A non-negative integer below [10^15] is rendered by its decimal
    digits. *)
Lemma toString_natural (z : Z) :
  0 <= z < 10 ^ 15 -> Number_toString (ofZ z) = decimal z.
Proof.
  intro Hz. destruct (Z.eq_dec z 0) as [-> | Hne]; [reflexivity |].
  destruct (digit_count z ltac:(lia)) as [L [HL HzL]].
  change (10 ^ 15) with 1000000000000000 in Hz.
  rewrite ofZ_canon by (change (2 ^ 53) with 9007199254740992; lia).
  destruct (canon z) as [s | s | | s m e] eqn:E; try discriminate E.
  assert (s = false) by (unfold canon in E; congruence). subst s.
  cbn [Number_toString].
  exact (toString_pos_decimal z L m e HL HzL E).
Qed.

(** The decimal digits of a positive number do not start with a zero. *)
Lemma decimal_first_digit (z : Z) :
  0 < z ->
  exists c rest, decimal z = String c rest
    /\ in_class Digit c = true /\ c <> "0"%char.
Proof.
  intro Hz. destruct (decimal_uint z ltac:(lia)) as [E _].
  pose proof (decimal_digits z ltac:(lia)) as Hd.
  rewrite E in *.
  destruct z as [|p|p]; try lia.
  change (Z.to_N (Zpos p)) with (Npos p) in *.
  pose proof (DecimalN.Unsigned.to_of (N.to_uint (Npos p))) as Hn.
  rewrite DecimalN.Unsigned.of_to in Hn.
  pose proof (DecimalPos.Unsigned.to_uint_nonzero p) as Hnz.
  change (N.to_uint (Npos p)) with (Pos.to_uint p) in *.
  destruct (Pos.to_uint p) as [|d|d|d|d|d|d|d|d|d|d] eqn:Ed;
    cbn [NilEmpty.string_of_uint] in *.
  - exfalso. exact (DecimalPos.Unsigned.to_uint_nonnil p Ed).
  - exfalso. rewrite DecimalFacts.unorm_D0 in Hn.
    pose proof (DecimalFacts.nb_digits_unorm d) as Hle.
    destruct d as [|d|d|d|d|d|d|d|d|d|d];
      [apply Hnz; reflexivity | ..];
      (specialize (Hle ltac:(discriminate)); rewrite <- Hn in Hle;
       cbn [Decimal.nb_digits] in Hle; lia).
  - eexists _, _. split; [reflexivity |]. split; [reflexivity | discriminate].
  - eexists _, _. split; [reflexivity |]. split; [reflexivity | discriminate].
  - eexists _, _. split; [reflexivity |]. split; [reflexivity | discriminate].
  - eexists _, _. split; [reflexivity |]. split; [reflexivity | discriminate].
  - eexists _, _. split; [reflexivity |]. split; [reflexivity | discriminate].
  - eexists _, _. split; [reflexivity |]. split; [reflexivity | discriminate].
  - eexists _, _. split; [reflexivity |]. split; [reflexivity | discriminate].
  - eexists _, _. split; [reflexivity |]. split; [reflexivity | discriminate].
  - eexists _, _. split; [reflexivity |]. split; [reflexivity | discriminate].
Qed.

End DecimalExact.

(** * Draws scaled by a constant *)

Module ScaledFacts.
Import Rounding DivisionFacts ExactFacts SeededFacts DrawFacts ToStringFacts
  DecimalExact.

Lemma lcg_state_shift (v : number) (n : nat) :
  lcg_state v (S n) = lcg_state (lcg_step v) n.
Proof.
  induction n as [|n IH]; [reflexivity |].
  change (lcg_state v (S (S n))) with (lcg_step (lcg_state v (S n))).
  rewrite IH. reflexivity.
Qed.

Lemma nth_draw_seeded (v : number) (w : World) (n : nat) :
  nth_draw (SeededClosure v) w n = emitted v n.
Proof.
  revert v. induction n as [|n IH]; intro v; [reflexivity |].
  cbn [nth_draw call]. rewrite IH. unfold emitted.
  rewrite lcg_state_shift. reflexivity.
Qed.

Lemma nth_draw_platform (w : World) (n : nat) :
  nth_draw PlatformRandom w n = entropy w (drawn w + n).
Proof.
  revert w. induction n as [|n IH]; intro w.
  - cbn. now rewrite Nat.add_0_r.
  - cbn [nth_draw call Math_random]. rewrite IH. cbn [entropy drawn].
    f_equal. lia.
Qed.

Lemma unit_draws_platform (k : nat) (w : World) :
  fair_platform w -> unit_draws k PlatformRandom w.
Proof. intros H n _. rewrite nth_draw_platform. apply H. Qed.

Lemma unit_draws_seeded (k : nat) (s : Z) (w : World) :
  -5 <= s -> s * 9301 + 49297 < 2 ^ 53 ->
  unit_draws k (seededRandom (ofZ s)) w.
Proof.
  intros Hlo Hhi n _. unfold seededRandom. rewrite nth_draw_seeded.
  exact (seeded_draws_in_unit_interval s n Hlo Hhi).
Qed.

(** The binary64 form of a positive integer below [2^52]. *)
Lemma canon_small (k : Z) :
  0 < k < 2 ^ 52 ->
  exists M K, canon k = S754_finite false M K
    /\ K < 0 /\ -53 < K /\ Zpos M = k * 2 ^ (- K)
    /\ 2 ^ 52 <= Zpos M < 2 ^ 53.
Proof.
  intro Hk.
  assert (Hk53 : 0 < k < 2 ^ 53)
    by (change (2 ^ 53) with 9007199254740992;
        change (2 ^ 52) with 4503599627370496 in Hk; lia).
  destruct (canon_mantissa k Hk53) as [Em [Hd Hd53]].
  pose proof (Zdigits2_le k 52 ltac:(lia) ltac:(lia)) as Hd52.
  destruct (Zdigits2_pos_bounds k ltac:(lia)) as [_ [Hlo Hhi]].
  exists (Z.to_pos (k * 2 ^ (53 - Zdigits2 k))), (Zdigits2 k - 53).
  split; [reflexivity |]. split; [lia |]. split; [lia |].
  replace (- (Zdigits2 k - 53)) with (53 - Zdigits2 k) by lia.
  split; [exact Em |]. rewrite Em.
  pose proof (pow2_pos (53 - Zdigits2 k) ltac:(lia)).
  assert (E1 : 2 ^ 52 = 2 ^ (Zdigits2 k - 1) * 2 ^ (53 - Zdigits2 k))
    by (rewrite <- Z.pow_add_r by lia; f_equal; lia).
  assert (E2 : 2 ^ 53 = 2 ^ Zdigits2 k * 2 ^ (53 - Zdigits2 k))
    by (rewrite <- Z.pow_add_r by lia; f_equal; lia).
  rewrite E1, E2. nia.
Qed.

(** The product of a draw with a power of two stays below it. *)
Lemma mul_unit_below_pow2 (m : positive) (e eM : Z) :
  e <= -52 -> Zpos m * 2 ^ 53 <= (2 ^ 53 - 1) * 2 ^ (- e) ->
  -1073 <= eM <= 971 ->
  below false (eM - 1) (2 ^ 53)
    (mul (S754_finite false m e) (S754_finite false 4503599627370496 eM)).
Proof.
  intros He Hm HeM. rewrite mul_finite. cbn [xorb].
  apply (round_below false _ _ loc_Exact
           (Zpos (m * 4503599627370496)) 1);
    [lia | lia | apply exact_rec | lia | lia | lia |].
  replace (eM - 1 - (e + eM)) with (- e - 1) by lia.
  rewrite Pos2Z.inj_mul.
  assert (E : 2 ^ (- e) = 2 * 2 ^ (- e - 1)).
  { change 2 with (2 ^ 1) at 2. rewrite <- Z.pow_add_r by lia.
    f_equal; lia. }
  pose proof (pow2_pos (- e - 1) ltac:(lia)).
  rewrite E in Hm.
  change (2 ^ 53) with 9007199254740992 in *. nia.
Qed.

(** [Math.floor(r * k)] for a draw [r] of the unit interval and a
    positive integer [k]: an integer from 0 to [k - 1].  A draw of [-0]
    gives [-0]. *)
Lemma floor_scaled (k : Z) (r : number) :
  0 < k < 2 ^ 52 ->
  valid_binary prec emax r = true -> unit_interval r = true ->
  exists q, 0 <= q < k
    /\ (floor (mul r (ofZ k)) = ofZ q
        \/ q = 0 /\ floor (mul r (ofZ k)) = S754_zero true).
Proof.
  intros Hk Hv Hu.
  assert (Hk53 : 0 < k < 2 ^ 53)
    by (change (2 ^ 53) with 9007199254740992;
        change (2 ^ 52) with 4503599627370496 in Hk; lia).
  rewrite ofZ_canon by exact Hk53.
  destruct (canon_small k Hk) as [M [K [-> [HK [HK53 [HM HMr]]]]]].
  destruct (unit_interval_cases r Hv Hu)
    as [[s ->] | [m [e [-> [He Hm]]]]].
  - exists 0. split; [lia |]. destruct s; [right | left]; auto.
  - assert (C : Zpos M = 2 ^ 52 \/ 2 ^ 52 < Zpos M) by lia.
    destruct C as [C | C].
    + assert (EM : M = 4503599627370496%positive)
        by (change (2 ^ 52) with 4503599627370496 in C; lia).
      subst M.
      pose proof (mul_unit_below_pow2 m e K He Hm ltac:(lia)) as Hb.
      destruct (floor_below k _ (K - 1) ltac:(lia)
                  ltac:(replace (k * 2 ^ (- (K - 1))) with (2 ^ 53);
                        [exact Hb |];
                        replace (- (K - 1)) with (1 + - K) by lia;
                        rewrite Z.pow_add_r by lia;
                        change (2 ^ 1) with 2;
                        change (2 ^ 53) with 9007199254740992;
                        change (2 ^ 52) with 4503599627370496 in C; lia))
        as [q [Hq Hf]].
      exists q. split; [exact Hq | left; exact Hf].
    + destruct (mul_unit_below (S754_finite false m e) M K Hv Hu
                  ltac:(lia) ltac:(lia))
        as [[s E] | [m' [e' [E Hb]]]]; [discriminate E |].
      rewrite HM in Hb.
      destruct (floor_below k _ K HK Hb) as [q [Hq Hf]].
      exists q. split; [exact Hq | left; exact Hf].
Qed.

Lemma number_eqb_refl (x : number) : number_eqb x x = true.
Proof.
  destruct x as [s | s | | s m e]; cbn; try reflexivity;
    try (destruct s; reflexivity).
  rewrite Pos.eqb_refl, Z.eqb_refl. destruct s; reflexivity.
Qed.

(** A small positive integer: [Math.floor] keeps it, and its integer
    part is itself. *)
Lemma integer_canon (k : Z) :
  0 < k < 2 ^ 52 ->
  floor (ofZ k) = ofZ k /\ truncate (ofZ k) = k
  /\ exists m e, ofZ k = S754_finite false m e.
Proof.
  intro Hk.
  assert (Hk53 : 0 < k < 2 ^ 53)
    by (change (2 ^ 53) with 9007199254740992;
        change (2 ^ 52) with 4503599627370496 in Hk; lia).
  rewrite (ofZ_canon k Hk53).
  destruct (canon_small k Hk) as [M [K [E [HK [HK53 [HM HMr]]]]]].
  rewrite E. unfold floor, truncate.
  replace (0 <=? K) with false by (symmetry; apply Z.leb_gt; lia).
  cbn [cond_Zopp].
  assert (Es : Z.shiftr (Zpos M) (- K) = k).
  { rewrite Z.shiftr_div_pow2, HM by lia.
    apply Z.div_mul. pose proof (pow2_pos (- K) ltac:(lia)). lia. }
  rewrite Es. split; [| split; [reflexivity | now exists M, K]].
  rewrite (ofZ_canon k Hk53). exact E.
Qed.

(** Reading an array at an index that [Math.floor] produced. *)
Lemma array_get_floor (arr : list string) (x : number) (q : Z) :
  0 <= q < 2 ^ 52 ->
  x = ofZ q \/ q = 0 /\ x = S754_zero true ->
  array_get arr x = nth_error arr (Z.to_nat q).
Proof.
  intros Hq [-> | [-> ->]]; [| reflexivity].
  destruct (Z.eq_dec q 0) as [-> | Hne]; [reflexivity |].
  destruct (integer_canon q ltac:(lia)) as [Hf [Ht [m [e E]]]].
  unfold array_get, is_integral. rewrite Hf, number_eqb_refl, Ht.
  rewrite E. reflexivity.
Qed.

(** An element picked with a draw of the unit interval is an element of
    the array. *)
Lemma pick_in (arr : list string) (r : number) :
  (0 < List.length arr)%nat -> Z.of_nat (List.length arr) < 2 ^ 52 ->
  valid_binary prec emax r = true -> unit_interval r = true ->
  exists s, pick arr r = Some s /\ In s arr.
Proof.
  intros Hne Hlen Hv Hu. unfold pick, array_length.
  destruct (floor_scaled (Z.of_nat (List.length arr)) r ltac:(lia) Hv Hu)
    as [q [Hq Hf]].
  rewrite (array_get_floor arr _ q ltac:(lia) Hf).
  destruct (nth_error arr (Z.to_nat q)) as [s |] eqn:E.
  - exists s. split; [reflexivity |]. now apply nth_error_In in E.
  - apply nth_error_None in E. lia.
Qed.

End ScaledFacts.

(** * The other scalar generators on draws of the unit interval *)

Module GeneratorFacts.
Import Rounding DivisionFacts ExactFacts SeededFacts DrawFacts ToStringFacts
  NumeralFacts DigitCount DecimalExact ScaledFacts.

Lemma unit_draws_step (k : nat) (random random' : Random) (w w' : World)
  (r : number) :
  call random w = (r, random', w') ->
  unit_draws (S k) random w ->
  unit_number r /\ unit_draws k random' w'.
Proof.
  intros E H. split.
  - specialize (H 0%nat ltac:(lia)). cbn [nth_draw] in H.
    now rewrite E in H.
  - intros n Hn. specialize (H (S n) ltac:(lia)). cbn [nth_draw] in H.
    now rewrite E in H.
Qed.

(** Destructs the next call of the generator in the goal and records
    that the draw is a number of the unit interval. *)
Ltac next_draw H r :=
  let E := fresh "E" in
  let Hr := fresh "H" r in
  let random' := fresh "random" in
  let w' := fresh "w" in
  match goal with
  | |- context [call ?rnd ?w] =>
      destruct (call rnd w) as [[r random'] w'] eqn:E;
      destruct (unit_draws_step _ _ _ _ _ _ E H) as [Hr H'];
      clear H E; rename H' into H
  end.

Lemma generateTaxpayerName_shape (t : TaxpayerType) (seed : option number)
  (w : World) :
  unit_draws 3 (random_of seed) w ->
  taxpayer_name_shape t (fst (generateTaxpayerName (Some t) seed w)).
Proof.
  intro H. unfold generateTaxpayerName.
  destruct t.
  - next_draw H r1. next_draw H r2. cbn [fst].
    destruct Hr1 as [Hv1 Hu1], Hr2 as [Hv2 Hu2].
    destruct (pick_in firstNames r1 ltac:(cbn; lia) ltac:(cbn; lia) Hv1 Hu1)
      as [f [-> Hf]].
    destruct (pick_in lastNames r2 ltac:(cbn; lia) ltac:(cbn; lia) Hv2 Hu2)
      as [l [-> Hl]].
    exists f, l. repeat split; assumption.
  - next_draw H r1. next_draw H r2. next_draw H r3. cbn [fst].
    destruct Hr1 as [Hv1 Hu1], Hr2 as [Hv2 Hu2], Hr3 as [Hv3 Hu3].
    destruct (pick_in prefixes r1 ltac:(cbn; lia) ltac:(cbn; lia) Hv1 Hu1)
      as [p [-> Hp]].
    destruct (pick_in types r2 ltac:(cbn; lia) ltac:(cbn; lia) Hv2 Hu2)
      as [ty [-> Hty]].
    destruct (pick_in suffixes r3 ltac:(cbn; lia) ltac:(cbn; lia) Hv3 Hu3)
      as [s [-> Hs]].
    exists p, ty, s. repeat split; try assumption.
    destruct s; reflexivity.
  - next_draw H r1. next_draw H r2. cbn [fst].
    destruct Hr1 as [Hv1 Hu1], Hr2 as [Hv2 Hu2].
    destruct (pick_in names r1 ltac:(cbn; lia) ltac:(cbn; lia) Hv1 Hu1)
      as [a [-> Ha]].
    destruct (pick_in names r2 ltac:(cbn; lia) ltac:(cbn; lia) Hv2 Hu2)
      as [b [-> Hb]].
    exists a, b. repeat split; assumption.
Qed.


(** *** Obligation identifiers *)

Lemma ofZ_999 : ofZ 999 = S754_finite false 8787296929185792 (-43).
Proof. reflexivity. Qed.

(** [Math.floor(r * 999 + 1)] is an integer from 1 to 999. *)
Lemma obligation_number (r : number) :
  valid_binary prec emax r = true -> unit_interval r = true ->
  exists z, 1 <= z < 1000
    /\ floor (add (mul r (ofZ 999)) (ofZ 1)) = ofZ z.
Proof.
  intros Hv Hu. rewrite ofZ_999, ofZ_1.
  destruct (mul_unit_below r 8787296929185792 (-43) Hv Hu)
    as [[s ->] | [m [e [-> Hb]]]].
  - change (2 ^ 52) with 4503599627370496.
    change (2 ^ 53) with 9007199254740992. lia.
  - lia.
  - exists 1. split; [lia |]. destruct s; vm_compute; reflexivity.
  - assert (Hva : valid_binary prec emax
                    (mul (S754_finite false m e)
                       (S754_finite false 8787296929185792 (-43))) = true)
      by (apply mul_valid; [exact Hv | reflexivity]).
    destruct (mul (S754_finite false m e)
                (S754_finite false 8787296929185792 (-43)))
      as [s | s | | s m1 e1]; cbn [below] in Hb; try contradiction.
    + destruct Hb as [-> _]. exists 1. split; [lia |].
      vm_compute. reflexivity.
    + destruct Hb as [-> [He1 Hm1]].
      apply valid_mantissa in Hva as [Hm53 _].
      change (2 ^ 53) with 9007199254740992 in Hm53.
      apply (floor_between 1 1000 (-43) 8796093022208000);
        [lia | lia | |].
      * apply add_finite_in_range; [lia | lia | cbn; lia | cbn; lia |].
        change (1 * 2 ^ (- -43)) with 8796093022208.
        destruct (Z_le_gt_dec e1 (-52)) as [Hc | Hc].
        -- replace (Z.min e1 (-52)) with e1 by lia.
           rewrite Z.sub_diag. change (2 ^ 0) with 1.
           assert (E1 : 2 ^ (-43 - e1) = 2 ^ (-52 - e1) * 512).
           { change 512 with (2 ^ 9). rewrite <- Z.pow_add_r by lia.
             f_equal; lia. }
           pose proof (pow2_pos (-52 - e1) ltac:(lia)).
           rewrite E1. nia.
        -- replace (Z.min e1 (-52)) with (-52) by lia.
           change (-43 - -52) with 9. change (-52 - -52) with 0.
           change (2 ^ 0) with 1. change (2 ^ 9) with 512.
           assert (E1 : 2 ^ (-43 - e1) * 2 ^ (e1 - -52) = 512).
           { rewrite <- Z.pow_add_r by lia.
             replace (-43 - e1 + (e1 - -52)) with 9 by lia. reflexivity. }
           pose proof (pow2_pos (-43 - e1) ltac:(lia)).
           pose proof (pow2_pos (e1 - -52) ltac:(lia)). nia.
      * apply add_finite_below; [lia | lia | cbn; lia |].
        change (1000 * 2 ^ (- -43)) with 8796093022208000.
        destruct (Z_le_gt_dec e1 (-52)) as [Hc | Hc].
        -- replace (Z.min e1 (-52)) with e1 by lia.
           rewrite Z.sub_diag. change (2 ^ 0) with 1.
           assert (E1 : 2 ^ (-43 - e1) = 2 ^ (-52 - e1) * 512).
           { change 512 with (2 ^ 9). rewrite <- Z.pow_add_r by lia.
             f_equal; lia. }
           assert (E2 : 4503599627370496 <= 2 ^ (-52 - e1) * 4503599627370496)
             by (pose proof (pow2_pos (-52 - e1) ltac:(lia)); nia).
           pose proof (pow2_pos (-52 - e1) ltac:(lia)).
           rewrite E1. nia.
        -- replace (Z.min e1 (-52)) with (-52) by lia.
           change (-43 - -52) with 9. change (-52 - -52) with 0.
           change (2 ^ 0) with 1. change (2 ^ 9) with 512.
           destruct (Z.eq_dec e1 (-43)) as [-> | Hne].
           ++ change (-43 - -43) with 0 in Hm1.
              change (2 ^ 0) with 1 in Hm1.
              change (2 ^ (-43 - -52)) with 512. lia.
           ++ assert (E1 : 2 ^ (e1 - -52) <= 2 ^ 8)
                by (apply Z.pow_le_mono_r; lia).
              change (2 ^ 8) with 256 in E1.
              pose proof (pow2_pos (e1 - -52) ltac:(lia)). nia.
Qed.

Lemma repeat_char_length (c : ascii) (n : nat) :
  String.length (repeat_char c n) = n.
Proof. induction n; cbn; congruence. Qed.

Lemma repeat_zero_digits (n : nat) : all_digits (repeat_char "0" n) = true.
Proof. induction n; cbn; auto. Qed.

(** A number padded with zeros to a width: that many digits, unless the
    number has more. *)
Lemma padStart_digits (k : nat) (z : Z) :
  (0 < k)%nat -> 0 <= z < 10 ^ Z.of_nat k ->
  all_digits (padStart k "0" (decimal z)) = true
  /\ String.length (padStart k "0" (decimal z)) = k.
Proof.
  intros Hk Hz. unfold padStart.
  pose proof (decimal_length_le z k Hk Hz) as Hl.
  rewrite all_digits_append, length_append, repeat_char_length,
    repeat_zero_digits, decimal_digits by lia.
  split; [reflexivity | lia].
Qed.


Lemma obligation_digits_shape (r : number) :
  valid_binary prec emax r = true -> unit_interval r = true ->
  exists z, 1 <= z < 1000
    /\ obligation_digits r = padStart 3 "0" (decimal z).
Proof.
  intros Hv Hu. destruct (obligation_number r Hv Hu) as [z [Hz E]].
  exists z. split; [exact Hz |]. unfold obligation_digits.
  rewrite E, toString_natural; [reflexivity |].
  change (10 ^ 15) with 1000000000000000. lia.
Qed.

(** *** Numbers of nine and of eight digits *)

Lemma pin_digits_decimal (r : number) :
  valid_binary prec emax r = true -> unit_interval r = true ->
  exists z, 100000000 <= z < 1000000000 /\ pin_digits r = decimal z.
Proof.
  intros Hv Hu. destruct (pin_number r Hv Hu) as [z [Hz E]].
  exists z. split; [exact Hz |]. unfold pin_digits.
  rewrite E, toString_natural; [reflexivity |].
  change (10 ^ 15) with 1000000000000000. lia.
Qed.

Lemma phone_digits_decimal (r : number) :
  valid_binary prec emax r = true -> unit_interval r = true ->
  exists z, 10000000 <= z < 100000000 /\ phone_digits r = decimal z.
Proof.
  intros Hv Hu. destruct (tcc_number r Hv Hu) as [z [Hz E]].
  exists z. split; [exact Hz |]. unfold phone_digits.
  rewrite E, toString_natural; [reflexivity |].
  change (10 ^ 15) with 1000000000000000. lia.
Qed.

(** *** The number in an e-mail address *)

Lemma email_number_decimal (r : number) :
  valid_binary prec emax r = true -> unit_interval r = true ->
  exists z, 0 <= z < 1000000 /\ email_number r = decimal z.
Proof.
  intros Hv Hu.
  destruct (floor_scaled 1000000 r
              ltac:(change (2 ^ 52) with 4503599627370496; lia) Hv Hu)
    as [z [Hz [E | [-> E]]]]; unfold email_number; rewrite E.
  - exists z. split; [exact Hz |]. apply toString_natural.
    change (10 ^ 15) with 1000000000000000. lia.
  - exists 0. split; [lia | reflexivity].
Qed.

End GeneratorFacts.

(** * What the validators accept *)

Module ValidatorFacts.
Import NumeralFacts.

Lemma all_class_digits (s : string) : all_class Digit s = all_digits s.
Proof. induction s as [|c s IH]; cbn; [reflexivity | now rewrite IH]. Qed.

Lemma at_least_iff (k : charclass) (n : nat) (cont : string -> bool) :
  forall s,
    at_least k n cont s = true
    <-> exists a b, s = append a b /\ String.length a = n
                    /\ all_class k a = true /\ cont b = true.
Proof.
  induction n as [|n IH]; intro s; cbn [at_least].
  - split.
    + intro H. exists EmptyString, s. repeat split; assumption.
    + intros [a [b [-> [Hl [_ Hc]]]]]. destruct a; [exact Hc | discriminate].
  - destruct s as [|c s].
    + split; [discriminate |].
      intros [a [b [E [Hl _]]]]. destruct a; discriminate.
    + rewrite andb_true_iff, IH. split.
      * intros [Hc [a [b [-> [Hl [Ha Hb]]]]]].
        exists (String c a), b. cbn. rewrite Hc, Ha, Hl. auto.
      * intros [a [b [E [Hl [Ha Hb]]]]].
        destruct a as [|c' a]; [discriminate |].
        cbn in E, Hl, Ha. injection E as -> ->.
        apply andb_true_iff in Ha as [Hc Ha].
        split; [exact Hc |]. exists a, b. repeat split; auto.
Qed.

Lemma at_most_iff (k : charclass) (n : nat) (cont : string -> bool) :
  forall s,
    at_most k n cont s = true
    <-> exists a b, s = append a b /\ (String.length a <= n)%nat
                    /\ all_class k a = true /\ cont b = true.
Proof.
  induction n as [|n IH]; intro s; cbn [at_most].
  - split.
    + intro H. exists EmptyString, s. repeat split; auto.
    + intros [a [b [-> [Hl [_ Hc]]]]].
      destruct a; [exact Hc | cbn in Hl; lia].
  - destruct s as [|c s].
    + split.
      * intro H. exists EmptyString, EmptyString. repeat split; auto.
        cbn; lia.
      * intros [a [b [E [_ [_ Hc]]]]].
        destruct a; [cbn in E; now subst b | discriminate].
    + rewrite orb_true_iff, andb_true_iff, IH. split.
      * intros [[Hc [a [b [-> [Hl [Ha Hb]]]]]] | Hc].
        -- exists (String c a), b. cbn. rewrite Hc, Ha. repeat split; auto.
           lia.
        -- exists EmptyString, (String c s). repeat split; auto. cbn; lia.
      * intros [a [b [E [Hl [Ha Hb]]]]].
        destruct a as [|c' a].
        -- right. cbn in E. now subst b.
        -- left. cbn in E, Hl, Ha. injection E as -> ->.
           apply andb_true_iff in Ha as [Hc Ha].
           split; [exact Hc |]. exists a, b. repeat split; auto. lia.
Qed.

Lemma all_class_append (k : charclass) (a b : string) :
  all_class k (append a b) = all_class k a && all_class k b.
Proof.
  induction a as [|c a IH]; cbn; [reflexivity |].
  now rewrite IH, andb_assoc.
Qed.

(** A piece of a pattern: between [lo] and [hi] characters of a class,
    then the rest of the pattern. *)
Lemma matches_piece (k : charclass) (lo hi : nat) (ps : list piece)
  (s : string) :
  (lo <= hi)%nat ->
  matches (Piece k lo hi :: ps) s = true
  <-> exists a b, s = append a b
                  /\ (lo <= String.length a <= hi)%nat
                  /\ all_class k a = true /\ matches ps b = true.
Proof.
  intro Hle. cbn [matches cls rmin rmax]. rewrite at_least_iff. split.
  - intros [a [b [-> [Hl [Ha Hb]]]]].
    apply at_most_iff in Hb as [a' [b' [-> [Hl' [Ha' Hb']]]]].
    exists (append a a'), b'.
    rewrite DecimalExact.append_assoc, length_append, all_class_append,
      Ha, Ha'.
    repeat split; auto; lia.
  - intros [a [b [-> [Hl [Ha Hb]]]]].
    exists (substring 0 lo a),
      (append (substring lo (String.length a - lo) a) b).
    pose proof (substring_split lo a ltac:(lia)) as Es.
    rewrite <- Es in Ha. rewrite all_class_append in Ha.
    apply andb_true_iff in Ha as [Ha1 Ha2].
    split; [now rewrite <- DecimalExact.append_assoc, Es |].
    split; [apply substring_length; lia |].
    split; [exact Ha1 |].
    apply at_most_iff.
    exists (substring lo (String.length a - lo) a), b.
    repeat split; auto.
    rewrite substring_length by lia. lia.
Qed.

Lemma matches_lit (c : ascii) (ps : list piece) (s : string) :
  matches (lit c :: ps) s = true
  <-> exists rest, s = String c rest /\ matches ps rest = true.
Proof.
  unfold lit. rewrite matches_piece by lia. split.
  - intros [a [b [-> [Hl [Ha Hb]]]]].
    destruct a as [|c' [|c'' a]]; cbn in Hl; try lia.
    cbn in Ha. rewrite andb_true_r in Ha. apply Ascii.eqb_eq in Ha.
    subst c'. exists b. split; [reflexivity | exact Hb].
  - intros [rest [-> H]]. exists (String c EmptyString), rest.
    cbn. rewrite Ascii.eqb_refl. repeat split; auto.
Qed.

Lemma matches_end (s : string) : matches [] s = true <-> s = EmptyString.
Proof. destruct s; cbn; split; congruence. Qed.

End ValidatorFacts.

(** * The calendar of the language *)

Module CalendarFacts.

Lemma DayFromYear_step (y : Z) :
  DayFromYear (y + 1) = DayFromYear y + DaysInYear y.
Proof.
  unfold DayFromYear, DaysInYear.
  destruct (Z.eqb_spec (y mod 4) 0); cbn [negb];
    [destruct (Z.eqb_spec (y mod 100) 0); cbn [negb];
     [destruct (Z.eqb_spec (y mod 400) 0); cbn [negb] |] |];
    Z.div_mod_to_equations; lia.
Qed.

Lemma DaysInYear_cases (y : Z) : DaysInYear y = 365 \/ DaysInYear y = 366.
Proof.
  unfold DaysInYear.
  destruct (negb (y mod 4 =? 0)), (negb (y mod 100 =? 0)),
    (negb (y mod 400 =? 0)); auto.
Qed.

Lemma DayFromYear_mono (y y' : Z) :
  y <= y' -> DayFromYear y <= DayFromYear y'.
Proof.
  intro H. unfold DayFromYear. Z.div_mod_to_equations. lia.
Qed.

(** The estimate of the year from the mean length of a year is off by
    at most one. *)
Lemma estimate_close (d : Z) :
  let est := 1970 + (d * 400) / 146097 in
  DayFromYear (est - 1) <= d < DayFromYear (est + 2).
Proof.
  cbv zeta. unfold DayFromYear. Z.div_mod_to_equations. lia.
Qed.

Lemma year_search (d y0 : Z) :
  DayFromYear (y0 - 1) <= d < DayFromYear (y0 + 2) ->
  let y := year_up 3 d (year_down 3 d y0) in
  DayFromYear y <= d < DayFromYear (y + 1).
Proof.
  intros [Hlo Hhi]. cbv zeta.
  assert (Hd : year_down 3 d y0 = y0 /\ DayFromYear y0 <= d
               \/ year_down 3 d y0 = y0 - 1 /\ d < DayFromYear y0).
  { cbn [year_down].
    destruct (Z.ltb_spec d (DayFromYear y0)); [right | left; auto].
    destruct (Z.ltb_spec d (DayFromYear (y0 - 1))); [lia | auto]. }
  destruct Hd as [[-> H0] | [-> H0]].
  - cbn [year_up].
    destruct (Z.leb_spec (DayFromYear (y0 + 1)) d); cbv iota; [| lia].
    replace (y0 + 1 + 1) with (y0 + 2) by lia.
    destruct (Z.leb_spec (DayFromYear (y0 + 2)) d); cbv iota; [lia |].
    replace (y0 + 1 + 1) with (y0 + 2) by lia. lia.
  - cbn [year_up]. replace (y0 - 1 + 1) with y0 by lia.
    destruct (Z.leb_spec (DayFromYear y0) d); cbv iota; [lia |].
    replace (y0 - 1 + 1) with y0 by lia. lia.
Qed.

(** [YearFromTime] finds the year that contains the day. *)
Lemma YearFromTime_spec (t : Z) :
  DayFromYear (YearFromTime t) <= Day t
  < DayFromYear (YearFromTime t + 1).
Proof.
  unfold YearFromTime. cbv zeta.
  apply year_search. apply estimate_close.
Qed.

Lemma DayWithinYear_range (t : Z) :
  0 <= DayWithinYear t < 365 + InLeapYear t.
Proof.
  pose proof (YearFromTime_spec t) as H.
  rewrite DayFromYear_step in H.
  unfold DayWithinYear, InLeapYear.
  destruct (DaysInYear_cases (YearFromTime t)) as [E | E]; rewrite E in *.
  - change (365 =? 366) with false. cbv iota. lia.
  - change (366 =? 366) with true. cbv iota. lia.
Qed.

Lemma InLeapYear_cases (t : Z) : InLeapYear t = 0 \/ InLeapYear t = 1.
Proof. unfold InLeapYear. destruct (_ =? 366); auto. Qed.

Lemma MonthFromTime_range (t : Z) : 0 <= MonthFromTime t <= 11.
Proof.
  unfold MonthFromTime. cbv zeta.
  repeat match goal with
         | |- context [if ?c then _ else _] => destruct c
         end; lia.
Qed.

Lemma DateFromTime_range (t : Z) : 1 <= DateFromTime t <= 31.
Proof.
  pose proof (DayWithinYear_range t) as Hd.
  pose proof (InLeapYear_cases t) as Hl.
  unfold DateFromTime, MonthFromTime. cbv zeta.
  set (d := DayWithinYear t) in *. set (l := InLeapYear t) in *.
  repeat match goal with
         | |- context [if ?a <? ?b then _ else _] =>
             destruct (Z.ltb_spec a b)
         end; cbv iota; lia.
Qed.

End CalendarFacts.

(** * Dates: the window of [generateDate] and the form of [formatDate] *)

Module DateFacts.
Import Rounding DivisionFacts ExactFacts SeededFacts DrawFacts ToStringFacts
  NumeralFacts DigitCount DecimalExact ScaledFacts GeneratorFacts
  CalendarFacts ValidatorFacts.

(** *** Exact integer arithmetic, zero included *)

Lemma sub_exact (a b : Z) :
  0 < b -> b <= a -> a < 2 ^ 53 ->
  sub (ofZ a) (ofZ b) = ofZ (a - b).
Proof.
  intros Hb Hba Ha.
  rewrite (ofZ_canon a), (ofZ_canon b) by lia.
  unfold canon at 1 2. unfold sub, SFsub. cbv zeta.
  destruct (canon_mantissa a ltac:(lia)) as [Ema [Hda Hda']].
  destruct (canon_mantissa b ltac:(lia)) as [Emb [Hdb Hdb']].
  set (ea := Zdigits2 a - 53) in *. set (eb := Zdigits2 b - 53) in *.
  set (ez := Z.min ea eb).
  pose proof (shl_align_spec (Z.to_pos (a * 2 ^ (53 - Zdigits2 a))) ea ez)
    as [H1e H1m].
  pose proof (shl_align_spec (Z.to_pos (b * 2 ^ (53 - Zdigits2 b))) eb ez)
    as [H2e H2m].
  replace (snd (shl_align (Z.to_pos (a * 2 ^ (53 - Zdigits2 a))) ea ez))
    with ez in H1m by (unfold ez in *; lia).
  replace (snd (shl_align (Z.to_pos (b * 2 ^ (53 - Zdigits2 b))) eb ez))
    with ez in H2m by (unfold ez in *; lia).
  cbn [cond_Zopp]. rewrite H1m, H2m, Ema, Emb.
  assert (E1 : a * 2 ^ (53 - Zdigits2 a) * 2 ^ (ea - ez) = a * 2 ^ (- ez)).
  { rewrite <- Z.mul_assoc, <- Z.pow_add_r by (unfold ez, ea; lia).
    f_equal. f_equal. unfold ea. lia. }
  assert (E2 : b * 2 ^ (53 - Zdigits2 b) * 2 ^ (eb - ez) = b * 2 ^ (- ez)).
  { rewrite <- Z.mul_assoc, <- Z.pow_add_r by (unfold ez, eb; lia).
    f_equal. f_equal. unfold eb. lia. }
  rewrite E1, E2, <- Z.mul_sub_distr_r.
  pose proof (pow2_pos (- ez) ltac:(unfold ez, ea, eb; lia)) as HP.
  destruct ((a - b) * 2 ^ (- ez)) as [|S|S] eqn:ES; try nia.
  - assert (a - b = 0) by nia. replace (a - b) with 0 by lia. reflexivity.
  - cbn [binary_normalize]. rewrite (ofZ_canon (a - b)) by nia.
    apply binary_round_exact;
      [nia | unfold ez, ea, eb; lia | now rewrite ES].
Qed.

Lemma ofZ_positive (a : Z) :
  0 < a < 2 ^ 53 -> exists m e, ofZ a = S754_finite false m e.
Proof. intro H. rewrite ofZ_canon by exact H. now eexists _, _. Qed.

Lemma add_natural (a b : Z) :
  0 <= a -> 0 <= b -> a + b < 2 ^ 53 ->
  add (ofZ a) (ofZ b) = ofZ (a + b).
Proof.
  intros Ha Hb Hab.
  destruct (Z.eq_dec a 0) as [-> | Hna], (Z.eq_dec b 0) as [-> | Hnb].
  - reflexivity.
  - destruct (ofZ_positive b ltac:(lia)) as [m [e E]].
    rewrite Z.add_0_l, E. reflexivity.
  - destruct (ofZ_positive a ltac:(lia)) as [m [e E]].
    rewrite Z.add_0_r, E. reflexivity.
  - apply add_exact; lia.
Qed.

Lemma mul_natural (a b : Z) :
  0 <= a -> 0 < b -> b < 2 ^ 53 -> a * b < 2 ^ 53 ->
  mul (ofZ a) (ofZ b) = ofZ (a * b).
Proof.
  intros Ha Hb Hb53 Hab.
  destruct (Z.eq_dec a 0) as [-> | Hna].
  - destruct (ofZ_positive b ltac:(lia)) as [m [e E]].
    rewrite E. reflexivity.
  - apply mul_exact; lia.
Qed.

(** A number of days in milliseconds. *)
Lemma days_ms (n : Z) :
  0 <= n -> n * msPerDay < 2 ^ 53 ->
  mul (mul (mul (mul (ofZ n) (ofZ 24)) (ofZ 60)) (ofZ 60)) (ofZ 1000)
  = ofZ (n * msPerDay).
Proof.
  unfold msPerDay. change (2 ^ 53) with 9007199254740992. intros Hn Hb.
  rewrite (mul_natural n 24), (mul_natural (n * 24) 60),
    (mul_natural (n * 24 * 60) 60), (mul_natural (n * 24 * 60 * 60) 1000)
    by (change (2 ^ 53) with 9007199254740992; lia).
  f_equal. lia.
Qed.

(** *** The random offset and the instant *)

(** A draw of the unit interval times a positive integer: at most the
    integer. *)
Lemma mul_unit_le (r : number) (R : Z) :
  valid_binary prec emax r = true -> unit_interval r = true ->
  0 < R < 2 ^ 53 ->
  (exists s, mul r (ofZ R) = S754_zero s)
  \/ in_range false 0 0 R (mul r (ofZ R)).
Proof.
  intros Hv Hu HR. rewrite ofZ_canon by exact HR. unfold canon.
  destruct (canon_mantissa R HR) as [EM [Hd Hd53]].
  set (M := Z.to_pos (R * 2 ^ (53 - Zdigits2 R))) in *.
  set (eR := Zdigits2 R - 53).
  destruct (unit_interval_cases r Hv Hu)
    as [[s ->] | [m [e [-> [He Hm]]]]].
  - left. exists s. destruct s; reflexivity.
  - right. rewrite mul_finite. cbn [xorb].
    apply (round_in_range false _ _ loc_Exact (Zpos (m * M)) 1 0);
      [lia | lia | apply exact_rec | unfold eR; lia | lia | lia | lia |].
    rewrite Pos2Z.inj_mul, EM.
    replace (0 - (e + eR)) with (- e + (53 - Zdigits2 R))
      by (unfold eR; lia).
    rewrite Z.pow_add_r by lia.
    pose proof (pow2_pos (- e) ltac:(lia)).
    pose proof (pow2_pos (53 - Zdigits2 R) ltac:(lia)).
    change (2 ^ 53) with 9007199254740992 in *. nia.
Qed.

(** An instant plus an offset of at most [R]. *)
Lemma window_sum (P R : Z) (x : number) :
  0 < P -> 0 <= R -> P + R < 2 ^ 53 ->
  (exists s, x = S754_zero s) \/ in_range false 0 0 R x ->
  in_range false 0 P (P + R) (add (ofZ P) x).
Proof.
  intros HP HR Hfit Hx.
  assert (HP53 : 0 < P < 2 ^ 53) by lia.
  rewrite ofZ_canon by exact HP53. unfold canon.
  destruct (canon_mantissa P HP53) as [EM [Hd Hd53]].
  set (M := Z.to_pos (P * 2 ^ (53 - Zdigits2 P))) in *.
  set (eP := Zdigits2 P - 53).
  pose proof (pow2_pos (53 - Zdigits2 P) ltac:(lia)) as Hpow.
  assert (Hself : in_range false 0 P (P + R) (S754_finite false M eP)).
  { cbn [in_range]. split; [reflexivity |]. split; [unfold eP; lia |].
    replace (0 - eP) with (53 - Zdigits2 P) by (unfold eP; lia).
    rewrite EM. nia. }
  destruct Hx as [[s ->] | Hx]; [exact Hself |].
  destruct x as [s | s | | s mx ex]; cbn [in_range] in Hx;
    try contradiction; [exact Hself |].
  destruct Hx as [-> [Hex [_ Hmx]]].
  apply add_finite_in_range; [unfold eP; lia | lia | lia | exact Hfit |].
  set (ez := Z.min eP ex).
  assert (E1 : Zpos M * 2 ^ (eP - ez) = P * 2 ^ (0 - ez)).
  { rewrite EM, <- Z.mul_assoc, <- Z.pow_add_r by (unfold ez, eP; lia).
    f_equal. f_equal. unfold eP. lia. }
  assert (E2 : 2 ^ (0 - ex) * 2 ^ (ex - ez) = 2 ^ (0 - ez)).
  { rewrite <- Z.pow_add_r by (unfold ez; lia). f_equal. lia. }
  pose proof (pow2_pos (ex - ez) ltac:(unfold ez; lia)).
  pose proof (pow2_pos (0 - ex) ltac:(lia)).
  pose proof (pow2_pos (0 - ez) ltac:(unfold ez, eP; lia)).
  rewrite E1. nia.
Qed.

Lemma ofZ_max_time :
  ofZ 8640000000000000 = S754_finite false 8640000000000000 0.
Proof. reflexivity. Qed.

(** [TimeClip] of a positive number within the range of time values:
    its integer part. *)
Lemma TimeClip_in_range (P Q : Z) (x : number) :
  0 < P -> Q <= 8640000000000000 ->
  in_range false 0 P Q x ->
  exists t, TimeClip x = ofZ t /\ P <= t <= Q.
Proof.
  intros HP HQ Hx.
  destruct x as [s | s | | s m e]; cbn [in_range] in Hx;
    try contradiction; [lia |].
  destruct Hx as [-> [He [Hlo Hhi]]].
  pose proof (pow2_pos (0 - e) ltac:(lia)) as Hpow.
  exists (truncate (S754_finite false m e)). split.
  - unfold TimeClip. cbn [is_finite negb SFabs].
    rewrite ofZ_max_time.
    replace (ltb (S754_finite false 8640000000000000 0)
               (S754_finite false m e)) with false; [reflexivity |].
    unfold ltb, SFltb, SFcompare.
    destruct (Z.compare_spec 0 e) as [E | E | E]; [| lia | reflexivity].
    subst e. change (2 ^ (0 - 0)) with 1 in Hhi.
    rewrite Pos.compare_cont_spec. cbn [Pos.switch_Eq].
    destruct (Pos.compare_spec 8640000000000000 m) as [E | E | E];
      [reflexivity | lia | reflexivity].
  - unfold truncate. cbn [cond_Zopp].
    destruct (Z.leb_spec 0 e).
    + assert (e = 0) by lia. subst e. rewrite Z.shiftl_0_r.
      change (2 ^ (0 - 0)) with 1 in *. lia.
    + rewrite Z.shiftr_div_pow2 by lia.
      replace (0 - e) with (- e) in * by lia. split.
      * apply Z.div_le_lower_bound; lia.
      * apply Z.div_le_upper_bound; [lia |]. nia.
Qed.


(** *** The form of a formatted date *)

Lemma local_field_value (w : World) (f : Z -> Z) (date : Date) :
  time_value date <> NaN ->
  local_field w f date = ofZ (f (local_instant w date)).
Proof.
  intro H. unfold local_field, local_instant.
  destruct (time_value date); try reflexivity. now contradiction H.
Qed.

Lemma formatDate_value (w : World) (date : Date) :
  time_value date <> NaN ->
  0 <= YearFromTime (local_instant w date) < 10 ^ 15 ->
  formatDate w date
  = append (decimal (YearFromTime (local_instant w date)))
      (append "-"
         (append
            (padStart 2 "0"
               (decimal (MonthFromTime (local_instant w date) + 1)))
            (append "-"
               (padStart 2 "0"
                  (decimal (DateFromTime (local_instant w date))))))).
Proof.
  intros Hn Hy. unfold formatDate, getFullYear, getMonth, getDate.
  rewrite !local_field_value by exact Hn.
  pose proof (MonthFromTime_range (local_instant w date)) as Hm.
  pose proof (DateFromTime_range (local_instant w date)) as Hd.
  rewrite add_1_table by lia.
  rewrite !toString_natural
    by (change (10 ^ 15) with 1000000000000000 in *; lia).
  reflexivity.
Qed.

Lemma is_date_string_digits (y m d : string) :
  all_digits y = true -> String.length y = 4%nat ->
  all_digits m = true -> String.length m = 2%nat ->
  all_digits d = true -> String.length d = 2%nat ->
  is_date_string (append y (append "-" (append m (append "-" d)))) = true.
Proof.
  intros Hy Ly Hm Lm Hd Ld. unfold is_date_string.
  apply matches_piece; [lia |]. exists y, (append "-" (append m (append "-" d))).
  rewrite all_class_digits. repeat split; auto; try lia.
  apply matches_lit. exists (append m (append "-" d)).
  split; [reflexivity |].
  apply matches_piece; [lia |]. exists m, (append "-" d).
  rewrite all_class_digits. repeat split; auto; try lia.
  apply matches_lit. exists d. split; [reflexivity |].
  apply matches_piece; [lia |]. exists d, EmptyString.
  rewrite all_class_digits, ValidFacts.append_nil_r.
  repeat split; auto; lia.
Qed.

Lemma is_date_string_length (s : string) :
  is_date_string s = true -> String.length s = 10%nat.
Proof.
  unfold is_date_string. intro H.
  apply matches_piece in H as [y [s1 [-> [Ly [_ H]]]]]; [| lia].
  apply matches_lit in H as [s2 [-> H]].
  apply matches_piece in H as [m [s3 [-> [Lm [_ H]]]]]; [| lia].
  apply matches_lit in H as [s4 [-> H]].
  apply matches_piece in H as [d [s5 [-> [Ld [_ H]]]]]; [| lia].
  apply matches_end in H. subst s5.
  repeat first [rewrite length_append | progress cbn [String.length]]. lia.
Qed.


(** *** The date of [Date.now()] *)

Lemma now_time_value (now : Z) :
  0 < now <= 8640000000000000 ->
  time_value (new_Date (ofZ now)) = ofZ now
  /\ truncate (ofZ now) = now
  /\ exists m e, ofZ now = S754_finite false m e.
Proof.
  intro Hn.
  assert (H53 : 8640000000000000 < 2 ^ 53) by reflexivity.
  pose proof (window_sum now 0 (S754_zero false) ltac:(lia) ltac:(lia)
                ltac:(lia) (or_introl (ex_intro _ false eq_refl))) as Hin.
  destruct (ofZ_positive now ltac:(lia)) as [m [e E]].
  rewrite Z.add_0_r in Hin.
  replace (add (ofZ now) (S754_zero false)) with (ofZ now) in Hin
    by (rewrite E; reflexivity).
  destruct (TimeClip_in_range now now (ofZ now) ltac:(lia) ltac:(lia) Hin)
    as [t [Et Ht]].
  assert (t = now) by lia. subst t.
  split; [exact Et |]. split; [| now exists m, e].
  rewrite E in *. cbn [in_range] in Hin. destruct Hin as [_ [He Hm]].
  unfold truncate. cbn [cond_Zopp].
  pose proof (pow2_pos (0 - e) ltac:(lia)) as Hp.
  destruct (Z.leb_spec 0 e).
  - assert (e = 0) by lia. subst e. rewrite Z.shiftl_0_r.
    change (2 ^ (0 - 0)) with 1 in Hm. lia.
  - rewrite Z.shiftr_div_pow2 by lia.
    replace (0 - e) with (- e) in * by lia.
    replace (Zpos m) with (now * 2 ^ (- e)) by lia.
    apply Z.div_mul. lia.
Qed.

(** The local year of the instant [Date.now()]. *)
Lemma current_year_value (w : World) :
  0 < now_ms w <= 8640000000000000 ->
  current_year w
  = ofZ (YearFromTime (now_ms w + localTZA w (now_ms w))).
Proof.
  intro Hn. unfold current_year, getFullYear, Date_now.
  destruct (now_time_value (now_ms w) Hn) as [Et [Etr [m [e E]]]].
  rewrite local_field_value by (rewrite Et, E; discriminate).
  unfold local_instant, LocalTime. rewrite Et, Etr. reflexivity.
Qed.

Lemma sub_natural (a b : Z) :
  0 <= b -> b <= a -> 0 < a < 2 ^ 53 -> sub (ofZ a) (ofZ b) = ofZ (a - b).
Proof.
  intros Hb Hba Ha. destruct (Z.eq_dec b 0) as [-> | Hnb].
  - destruct (ofZ_positive a ltac:(lia)) as [m [e E]].
    rewrite Z.sub_0_r, E. reflexivity.
  - apply sub_exact; lia.
Qed.

End DateFacts.

(** * The period of the seeded generator *)

Module PeriodFacts.
Import ExactFacts ScaledFacts.

Lemma lcg_int_mod (v : Z) :
  0 <= v -> lcg_int v = ((v mod 233280) * 9301 + 49297) mod 233280.
Proof.
  intro Hv. unfold lcg_int. rewrite Z.rem_mod_nonneg by lia.
  rewrite <- (Z.add_mod_idemp_l (v * 9301)) by lia.
  rewrite <- (Z.mul_mod_idemp_l v) by lia.
  rewrite Z.add_mod_idemp_l by lia. reflexivity.
Qed.

Lemma lcg_int_state_congruent (s s' : Z) (n : nat) :
  0 <= s -> 0 <= s' -> s mod 233280 = s' mod 233280 ->
  lcg_int_state s n = lcg_int_state s' n.
Proof.
  intros Hs Hs' E. induction n as [|n IH]; cbn [lcg_int_state].
  - now rewrite !lcg_int_mod, E by lia.
  - now rewrite IH.
Qed.

Lemma emitted_congruent (s s' : Z) (n : nat) :
  0 <= s -> s * 9301 + 49297 < 2 ^ 53 ->
  0 <= s' -> s' * 9301 + 49297 < 2 ^ 53 ->
  s mod 233280 = s' mod 233280 ->
  emitted (ofZ s) n = emitted (ofZ s') n.
Proof.
  intros Hs Hb Hs' Hb' E. unfold emitted.
  destruct (lcg_state_int s n ltac:(lia) Hb) as [-> _].
  destruct (lcg_state_int s' n ltac:(lia) Hb') as [-> _].
  now rewrite (lcg_int_state_congruent s s' n Hs Hs' E).
Qed.

End PeriodFacts.

(** * Amounts between two integers *)

Module AmountFacts.
Import Rounding DivisionFacts ExactFacts SeededFacts DrawFacts NumeralFacts
  ScaledFacts DateFacts.

(** Comparison with the integers that bound a number. *)
Lemma leb_between (A B : Z) (x : number) :
  0 < A -> A <= B -> B < 2 ^ 53 ->
  valid_binary prec emax x = true ->
  in_range false 0 A B x ->
  leb (ofZ A) x = true /\ leb x (ofZ B) = true.
Proof.
  intros HA HAB HB Hv Hr.
  destruct x as [s | s | | s m e]; cbn [in_range] in Hr;
    try contradiction; [lia |].
  destruct Hr as [-> [He [Hlo Hhi]]].
  replace (0 - e) with (- e) in * by lia.
  apply valid_mantissa in Hv as [Hm53 [Hc _]].
  change (Zpos (digits2_pos m)) with (Zdigits2 (Zpos m)) in Hc.
  pose proof (pow2_pos (- e) ltac:(lia)) as HP.
  rewrite (ofZ_canon A), (ofZ_canon B) by lia. unfold canon.
  destruct (canon_mantissa A ltac:(lia)) as [EA [HdA HdA']].
  destruct (canon_mantissa B ltac:(lia)) as [EB [HdB HdB']].
  destruct (Zdigits2_pos_bounds A ltac:(lia)) as [_ [HAlo HAhi]].
  destruct (Zdigits2_pos_bounds B ltac:(lia)) as [_ [HBlo HBhi]].
  set (mA := Z.to_pos (A * 2 ^ (53 - Zdigits2 A))) in *.
  set (mB := Z.to_pos (B * 2 ^ (53 - Zdigits2 B))) in *.
  unfold leb, SFleb. cbn [SFcompare].
  rewrite !Pos.compare_cont_spec. cbn [Pos.switch_Eq].
  split.
  - destruct (Z.compare_spec (Zdigits2 A - 53) e) as [E | E | E].
    + subst e. replace (- (Zdigits2 A - 53)) with (53 - Zdigits2 A) in *
        by lia.
      destruct (Pos.compare_spec mA m) as [E | E | E]; try reflexivity.
      apply Pos2Z.pos_lt_pos in E. lia.
    + reflexivity.
    + exfalso.
      assert (Hlt : 2 ^ (Zdigits2 A - 1 + - e) < 2 ^ 53).
      { rewrite Z.pow_add_r by lia.
        pose proof (pow2_pos (Zdigits2 A - 1) ltac:(lia)). nia. }
      apply Z.pow_lt_mono_r_iff in Hlt; lia.
  - destruct (Z.compare_spec e (Zdigits2 B - 53)) as [E | E | E].
    + subst e. replace (- (Zdigits2 B - 53)) with (53 - Zdigits2 B) in *
        by lia.
      destruct (Pos.compare_spec m mB) as [E | E | E]; try reflexivity.
      apply Pos2Z.pos_lt_pos in E. lia.
    + reflexivity.
    + exfalso.
      assert (Hd : Zdigits2 (Zpos m) = 53) by (unfold fexp64 in Hc; lia).
      destruct (Zdigits2_pos_bounds (Zpos m) ltac:(lia)) as [_ [Hmlo _]].
      rewrite Hd in Hmlo. change (53 - 1) with 52 in Hmlo.
      assert (Hlt : 2 ^ 52 < 2 ^ (Zdigits2 B + - e)).
      { rewrite Z.pow_add_r by lia.
        pose proof (pow2_pos (Zdigits2 B) ltac:(lia)). nia. }
      apply Z.pow_lt_mono_r_iff in Hlt; lia.
Qed.

Lemma add_zero_l (s : bool) (P : Z) :
  0 < P < 2 ^ 53 -> add (S754_zero s) (ofZ P) = ofZ P.
Proof.
  intro H. destruct (ofZ_positive P H) as [m [e E]]. rewrite E. reflexivity.
Qed.

(** The sum of two positive numbers does not depend on their order. *)
Lemma add_comm_finite (m1 m2 : positive) (e1 e2 : Z) :
  add (S754_finite false m1 e1) (S754_finite false m2 e2)
  = add (S754_finite false m2 e2) (S754_finite false m1 e1).
Proof.
  unfold add, SFadd. cbv zeta. rewrite (Z.min_comm e2 e1).
  rewrite (Z.add_comm
             (cond_Zopp false
                (Zpos (fst (shl_align m2 e2 (Z.min e1 e2)))))).
  reflexivity.
Qed.

(** [r * (max - min) + min] lies between [min] and [max]. *)
Lemma amount_between (min max : Z) (r : number) :
  0 < min -> min <= max -> max < 2 ^ 53 ->
  valid_binary prec emax r = true -> unit_interval r = true ->
  in_range false 0 min max
    (add (mul r (sub (ofZ max) (ofZ min))) (ofZ min)).
Proof.
  intros Hmin Hle Hmax Hv Hu.
  rewrite sub_exact by lia.
  assert (Hx : (exists s, mul r (ofZ (max - min)) = S754_zero s)
               \/ in_range false 0 0 (max - min) (mul r (ofZ (max - min)))).
  { destruct (Z.eq_dec (max - min) 0) as [-> | Hne].
    - left. destruct (unit_interval_cases r Hv Hu)
        as [[s ->] | [m [e [-> _]]]]; eexists; reflexivity.
    - apply mul_unit_le; [exact Hv | exact Hu | lia]. }
  pose proof (window_sum min (max - min) _ Hmin ltac:(lia) ltac:(lia) Hx)
    as Hin.
  replace (min + (max - min)) with max in Hin by lia.
  destruct (ofZ_positive min ltac:(lia)) as [mm [em Em]].
  destruct Hx as [[s Ez] | Hr].
  - rewrite Ez in *. rewrite add_zero_l by lia.
    rewrite Em in *. exact Hin.
  - destruct (mul r (ofZ (max - min))) as [s | s | | s m e];
      cbn [in_range] in Hr; try contradiction.
    + rewrite add_zero_l by lia. rewrite Em in *. exact Hin.
    + destruct Hr as [-> _]. rewrite Em in *.
      rewrite add_comm_finite. exact Hin.
Qed.

(** The integer that [toFixed(2)] prints. *)
Lemma nearest_scaled_between (m : positive) (e A B : Z) :
  0 <= A ->
  in_range false 0 A B (S754_finite false m e) ->
  100 * A <= nearest_scaled m e 2 <= 100 * B.
Proof.
  intro HA. cbn [in_range]. intros [_ [He Hm]].
  replace (0 - e) with (- e) in Hm by lia.
  unfold nearest_scaled. change (10 ^ 2) with 100.
  destruct (Z.leb_spec 0 e) as [H0 | H0].
  - assert (e = 0) by lia. subst e. change (2 ^ (- 0)) with 1 in Hm.
    rewrite Z.shiftl_0_r. lia.
  - rewrite !Z.shiftl_1_l.
    pose proof (pow2_pos (- e) ltac:(lia)) as HP.
    assert (Hs : 2 ^ (1 - e) = 2 * 2 ^ (- e)).
    { replace (1 - e) with (1 + - e) by lia.
      now rewrite Z.pow_add_r by lia. }
    rewrite Hs. split.
    + apply Z.div_le_lower_bound; nia.
    + apply Z.lt_succ_r. apply Z.div_lt_upper_bound; nia.
Qed.

(** Negative integers. *)
Lemma finish_opp (R e1 : Z) : finish true R e1 = SFopp (finish false R e1).
Proof.
  unfold finish. cbv zeta.
  destruct (R / 2 ^ (Z.max e1 (fexp64 (Zdigits2 R + e1)) - e1));
    [reflexivity | | reflexivity].
  destruct (_ <=? _); reflexivity.
Qed.

Lemma ofZ_opp (k : Z) : 0 < k -> ofZ (- k) = SFopp (ofZ k).
Proof.
  intro Hk. destruct k as [|p|p]; try lia.
  unfold ofZ. cbn [Z.opp binary_normalize]. unfold binary_round.
  destruct (shl_align p 0 (fexp prec emax (Zpos (digits2_pos p) + 0)))
    as [mz ez].
  rewrite !(binary_round_aux_spec _ _ _ _ (Zpos mz) 1)
    by (try lia; apply exact_rec).
  cbv zeta. apply finish_opp.
Qed.

Lemma truncate_ofZ (d : Z) : - 2 ^ 52 < d < 2 ^ 52 -> truncate (ofZ d) = d.
Proof.
  intro Hd. destruct (Z_dec d 0) as [[Hneg | Hpos] | ->].
  - replace d with (- - d) by lia. rewrite ofZ_opp by lia.
    destruct (integer_canon (- d) ltac:(lia)) as [_ [Ht [m [e E]]]].
    rewrite E in *. cbn [SFopp negb]. unfold truncate in *.
    cbn [cond_Zopp] in *. lia.
  - now destruct (integer_canon d ltac:(lia)) as [_ [Ht _]].
  - reflexivity.
Qed.

Lemma ToInteger_ofZ (d : Z) :
  - 2 ^ 52 < d < 2 ^ 52 -> ToIntegerOrInfinity (ofZ d) = Some d.
Proof.
  intro Hd. unfold ToIntegerOrInfinity.
  rewrite <- (truncate_ofZ d Hd) at 2.
  destruct (ofZ d) eqn:E; try reflexivity.
  exfalso. destruct (Z_dec d 0) as [[Hneg | Hpos] | ->].
  - replace d with (- - d) in E by lia. rewrite ofZ_opp in E by lia.
    destruct (ofZ_positive (- d)
                ltac:(change (2 ^ 53) with 9007199254740992;
                      change (2 ^ 52) with 4503599627370496 in Hd; lia))
      as [m [e Em]].
    rewrite Em in E. discriminate E.
  - destruct (ofZ_positive d
                ltac:(change (2 ^ 53) with 9007199254740992;
                      change (2 ^ 52) with 4503599627370496 in Hd; lia))
      as [m [e Em]].
    rewrite Em in E. discriminate E.
  - discriminate E.
Qed.

End AmountFacts.

(** * Sizes compared with a count *)

Module CompareFacts.
Import Rounding DivisionFacts ExactFacts ScaledFacts DateFacts AmountFacts.

(** Integers below [2^53] compare as numbers the way they compare as
    integers. *)
Lemma ltb_ofZ (a b : Z) :
  0 <= a < 2 ^ 53 -> 0 <= b < 2 ^ 53 ->
  ltb (ofZ a) (ofZ b) = (a <? b).
Proof.
  intros Ha Hb.
  destruct (Z.eq_dec a 0) as [-> | Hna], (Z.eq_dec b 0) as [-> | Hnb].
  - reflexivity.
  - destruct (ofZ_positive b ltac:(lia)) as [m [e E]]. rewrite E.
    symmetry. apply Z.ltb_lt. lia.
  - destruct (ofZ_positive a ltac:(lia)) as [m [e E]]. rewrite E.
    symmetry. apply Z.ltb_ge. lia.
  - rewrite (ofZ_canon a), (ofZ_canon b) by lia. unfold canon.
    destruct (canon_mantissa a ltac:(lia)) as [EA [HdA HdA']].
    destruct (canon_mantissa b ltac:(lia)) as [EB [HdB HdB']].
    destruct (Zdigits2_pos_bounds a ltac:(lia)) as [_ [HAlo HAhi]].
    destruct (Zdigits2_pos_bounds b ltac:(lia)) as [_ [HBlo HBhi]].
    set (mA := Z.to_pos (a * 2 ^ (53 - Zdigits2 a))) in *.
    set (mB := Z.to_pos (b * 2 ^ (53 - Zdigits2 b))) in *.
    unfold ltb, SFltb. cbn [SFcompare].
    rewrite Pos.compare_cont_spec. cbn [Pos.switch_Eq].
    destruct (Z.compare_spec (Zdigits2 a - 53) (Zdigits2 b - 53))
      as [E | E | E].
    + assert (Ed : Zdigits2 a = Zdigits2 b) by lia.
      rewrite Ed in EA.
      pose proof (pow2_pos (53 - Zdigits2 b) ltac:(lia)) as HP.
      destruct (Pos.compare_spec mA mB) as [E' | E' | E'].
      * symmetry. apply Z.ltb_ge. assert (Zpos mA = Zpos mB) by congruence.
        nia.
      * apply Pos2Z.pos_lt_pos in E'. symmetry. apply Z.ltb_lt. nia.
      * apply Pos2Z.pos_lt_pos in E'. symmetry. apply Z.ltb_ge. nia.
    + symmetry. apply Z.ltb_lt.
      assert (Hp : 2 ^ Zdigits2 a <= 2 ^ (Zdigits2 b - 1))
        by (apply Z.pow_le_mono_r; lia).
      lia.
    + symmetry. apply Z.ltb_ge.
      assert (Hp : 2 ^ Zdigits2 b <= 2 ^ (Zdigits2 a - 1))
        by (apply Z.pow_le_mono_r; lia).
      lia.
Qed.

(** The sign of a rounded integer is the sign asked for. *)
Lemma binary_round_sign (s : bool) (p : positive) :
  binary_round prec emax s p 0 = S754_zero s
  \/ binary_round prec emax s p 0 = S754_infinity s
  \/ exists m e, binary_round prec emax s p 0 = S754_finite s m e.
Proof.
  unfold binary_round.
  destruct (shl_align p 0 (fexp prec emax (Zpos (digits2_pos p) + 0)))
    as [mz ez].
  rewrite (binary_round_aux_spec _ _ _ _ (Zpos mz) 1)
    by (try lia; apply exact_rec).
  cbv zeta. unfold finish. cbv zeta.
  match goal with
  | |- context [rne ?r] =>
      pose proof (rne_nonneg (Zpos mz)
                    (1 * 2 ^ (Z.max ez (fexp64 (Zdigits2 (Zpos mz) + ez))
                              - ez))
                    ltac:(lia)
                    ltac:(pose proof (pow2_pos
                                        (Z.max ez
                                           (fexp64 (Zdigits2 (Zpos mz) + ez))
                                         - ez) ltac:(lia)); lia)) as HR
  end.
  match goal with
  | |- context [?R / 2 ^ ?k] =>
      assert (Hq : 0 <= R / 2 ^ k)
        by (apply Z.div_pos; [exact HR | apply pow2_pos; lia]);
      destruct (R / 2 ^ k) as [|q|q]; [auto | | lia]
  end.
  destruct (_ <=? _); [right; right; now eexists _, _ | auto].
Qed.

Lemma ofZ_nonpositive (n : Z) : n <= 0 -> leb (ofZ n) (ofZ 0) = true.
Proof.
  intro Hn. destruct n as [|p|p]; [reflexivity | lia |].
  unfold ofZ. cbn [binary_normalize].
  destruct (binary_round_sign true p) as [E | [E | [m [e E]]]];
    rewrite E; reflexivity.
Qed.

(** An integer of at least [2^53] rounds to a number of at least
    [2^52] with a positive exponent, or to infinity. *)
Lemma ofZ_large (n : Z) :
  2 ^ 53 <= n ->
  ofZ n = S754_infinity false
  \/ exists m e, ofZ n = S754_finite false m e
                 /\ 1 <= e /\ 2 ^ 52 <= Zpos m * 2 ^ e.
Proof.
  intro Hn. destruct n as [|p|p]; try (cbn in Hn; lia).
  unfold ofZ. cbn [binary_normalize]. unfold binary_round.
  destruct (Zdigits2_pos_bounds (Zpos p) ltac:(lia)) as [Hd [Hlo Hhi]].
  assert (Hd54 : 53 < Zdigits2 (Zpos p))
    by (apply Zdigits2_gt; [lia | exact Hn]).
  change (Zpos (digits2_pos p)) with (Zdigits2 (Zpos p)).
  rewrite fexp_fexp64, Z.add_0_r.
  pose proof (shl_align_spec p 0 (fexp64 (Zdigits2 (Zpos p)))) as [He Hm].
  destruct (shl_align p 0 (fexp64 (Zdigits2 (Zpos p)))) as [mz ez].
  cbn [fst snd] in He, Hm.
  assert (Ez : ez = 0) by (unfold fexp64 in He; lia). clear He. subst ez.
  change (2 ^ (0 - 0)) with 1 in Hm. rewrite Z.mul_1_r in Hm.
  rewrite (binary_round_aux_spec _ _ _ _ (Zpos mz) 1)
    by (try lia; apply exact_rec).
  cbv zeta. rewrite Hm, Z.add_0_r.
  set (e1 := Z.max 0 (fexp64 (Zdigits2 (Zpos p)))).
  assert (Ee1 : e1 = Zdigits2 (Zpos p) - 53) by (unfold e1, fexp64; lia).
  replace (1 * 2 ^ (e1 - 0)) with (2 ^ e1) by (rewrite Z.sub_0_r; lia).
  pose proof (pow2_pos e1 ltac:(lia)) as HP1.
  destruct (rne_nearest (Zpos p) (2 ^ e1) ltac:(lia) HP1) as [[HRlo HRhi] _].
  set (R := rne (rec_of (Zpos p) (2 ^ e1))) in *.
  assert (Hs1 : 2 ^ (Zdigits2 (Zpos p) - 1) = 2 ^ 52 * 2 ^ e1)
    by (rewrite <- Z.pow_add_r by lia; f_equal; lia).
  assert (Hs2 : 2 ^ Zdigits2 (Zpos p) = 2 ^ 53 * 2 ^ e1)
    by (rewrite <- Z.pow_add_r by lia; f_equal; lia).
  assert (Hq : 2 ^ 52 <= Zpos p / 2 ^ e1 < 2 ^ 53).
  { split; [apply Z.div_le_lower_bound; lia
           | apply Z.div_lt_upper_bound; lia]. }
  assert (HR : 2 ^ 52 <= R <= 2 ^ 53) by lia.
  assert (HdR : 52 < Zdigits2 R <= 54).
  { split; [apply Zdigits2_gt; lia |].
    apply Zdigits2_le; [lia |].
    change (2 ^ 54) with 18014398509481984.
    change (2 ^ 53) with 9007199254740992 in HR. lia. }
  unfold finish. cbv zeta.
  set (e2 := Z.max e1 (fexp64 (Zdigits2 R + e1))).
  assert (He2 : e2 = e1 \/ e2 = e1 + 1) by (unfold e2, fexp64; lia).
  assert (Hm2 : 2 ^ 51 <= R / 2 ^ (e2 - e1)).
  { destruct He2 as [-> | ->].
    - rewrite Z.sub_diag. change (2 ^ 0) with 1. rewrite Z.div_1_r.
      change (2 ^ 51) with 2251799813685248.
      change (2 ^ 52) with 4503599627370496 in HR. lia.
    - replace (e1 + 1 - e1) with 1 by lia. change (2 ^ 1) with 2.
      apply Z.div_le_lower_bound; [lia |].
      change (2 ^ 51) with 2251799813685248.
      change (2 ^ 52) with 4503599627370496 in HR. lia. }
  destruct (R / 2 ^ (e2 - e1)) as [|m|m] eqn:Em;
    [change (2 ^ 51) with 2251799813685248 in Hm2; lia | |
     change (2 ^ 51) with 2251799813685248 in Hm2; lia].
  destruct (e2 <=? emax - prec); [right | left; reflexivity].
  exists m, e2. split; [reflexivity |]. split; [lia |].
  assert (Hp2 : 2 <= 2 ^ e2).
  { change 2 with (2 ^ 1) at 1. apply Z.pow_le_mono_r; lia. }
  change (2 ^ 52) with (2251799813685248 * 2).
  change (2 ^ 51) with 2251799813685248 in Hm2. nia.
Qed.

(** The size of a set against an integer count, however large. *)
Lemma compare_size (k n : Z) :
  0 <= k < 2 ^ 53 -> 0 <= n ->
  ltb (ofZ k) (ofZ n) = (k <? n).
Proof.
  intros Hk Hn. destruct (Z_lt_ge_dec n (2 ^ 53)) as [Hlt | Hge].
  - apply ltb_ofZ; lia.
  - replace (k <? n) with true by (symmetry; apply Z.ltb_lt; lia).
    destruct (ofZ_large n ltac:(lia)) as [-> | [m [e [-> [He _]]]]].
    + destruct (Z.eq_dec k 0) as [-> | Hne]; [reflexivity |].
      destruct (ofZ_positive k ltac:(lia)) as [mk [ek ->]]. reflexivity.
    + destruct (Z.eq_dec k 0) as [-> | Hne]; [reflexivity |].
      rewrite (ofZ_canon k) by lia. unfold canon.
      destruct (canon_mantissa k ltac:(lia)) as [_ [Hd Hd']].
      unfold ltb, SFltb. cbn [SFcompare].
      replace (Zdigits2 k - 53 ?= e) with Lt
        by (symmetry; apply Z.compare_lt_iff; lia).
      reflexivity.
Qed.

(** A smaller size is below whatever a larger size is below. *)
Lemma ltb_ofZ_trans (k K : Z) (c : number) :
  0 <= k <= K -> K < 2 ^ 53 ->
  ltb (ofZ K) c = true -> ltb (ofZ k) c = true.
Proof.
  intros Hk HK H.
  destruct (Z.eq_dec k K) as [-> | Hne]; [exact H |].
  assert (HK0 : 0 < K) by lia.
  destruct (Z.eq_dec k 0) as [-> | Hk0].
  - rewrite (ofZ_canon K) in H by lia. unfold canon in H.
    destruct c as [s | s | | s m e]; try discriminate H;
      destruct s; try discriminate H; reflexivity.
  - rewrite (ofZ_canon K) in H by lia. rewrite (ofZ_canon k) by lia.
    unfold canon in *.
    destruct (canon_mantissa k ltac:(lia)) as [Ek [Hdk Hdk']].
    destruct (canon_mantissa K ltac:(lia)) as [EK [HdK HdK']].
    pose proof (Zdigits2_mono k K ltac:(lia)) as Hmono.
    set (mk := Z.to_pos (k * 2 ^ (53 - Zdigits2 k))) in *.
    set (mK := Z.to_pos (K * 2 ^ (53 - Zdigits2 K))) in *.
    destruct c as [s | s | | s m e]; try discriminate H;
      destruct s; try discriminate H; try reflexivity.
    unfold ltb, SFltb in *. cbn [SFcompare] in *.
    rewrite Pos.compare_cont_spec in *. cbn [Pos.switch_Eq] in *.
    destruct (Z.compare_spec (Zdigits2 K - 53) e) as [E | E | E];
      try discriminate H.
    + destruct (Pos.compare_spec mK m) as [E' | E' | E'];
        try discriminate H.
      apply Pos2Z.pos_lt_pos in E'.
      destruct (Z.compare_spec (Zdigits2 k - 53) e) as [F | F | F];
        [| reflexivity | lia].
      assert (Ed : Zdigits2 k = Zdigits2 K) by lia.
      rewrite Ed in Ek.
      pose proof (pow2_pos (53 - Zdigits2 K) ltac:(lia)) as HP.
      destruct (Pos.compare_spec mk m) as [F' | F' | F'];
        [| reflexivity |].
      * assert (Zpos mk = Zpos m) by congruence. nia.
      * apply Pos2Z.pos_lt_pos in F'. nia.
    + replace (Zdigits2 k - 53 ?= e) with Lt
        by (symmetry; apply Z.compare_lt_iff; lia).
      reflexivity.
Qed.

(** The integer part of a non-negative integer below [2^53]. *)
Lemma truncate_natural (n : Z) :
  0 <= n < 2 ^ 53 -> ToIntegerOrInfinity (ofZ n) = Some n.
Proof.
  intro Hn. destruct (Z.eq_dec n 0) as [-> | Hne]; [reflexivity |].
  rewrite (ofZ_canon n) by lia. unfold canon, ToIntegerOrInfinity, truncate.
  destruct (canon_mantissa n ltac:(lia)) as [Em [Hd Hd']].
  cbn [cond_Zopp]. rewrite Em. f_equal.
  pose proof (pow2_pos (53 - Zdigits2 n) ltac:(lia)) as HP.
  destruct (Z.leb_spec 0 (Zdigits2 n - 53)).
  - assert (Ed : Zdigits2 n = 53) by lia. rewrite Ed.
    change (2 ^ (53 - 53)) with 1. change (53 - 53) with 0.
    rewrite Z.shiftl_0_r. lia.
  - rewrite Z.shiftr_div_pow2 by lia.
    replace (- (Zdigits2 n - 53)) with (53 - Zdigits2 n) by lia.
    apply Z.div_mul. lia.
Qed.

Lemma ToLength_ofZ (n : Z) : 0 <= n < 2 ^ 53 -> ToLength (ofZ n) = n.
Proof.
  intro Hn. unfold ToLength. rewrite truncate_natural by exact Hn.
  change (2 ^ 53) with 9007199254740992 in *. lia.
Qed.

(** Beyond the largest length of an array. *)
Lemma ToLength_large (n : Z) :
  2 ^ 32 <= n -> max_array_length < ToLength (ofZ n).
Proof.
  intro Hn. unfold max_array_length.
  change (2 ^ 32) with 4294967296 in *.
  destruct (Z_lt_ge_dec n (2 ^ 53)) as [Hlt | Hge].
  - rewrite ToLength_ofZ by lia. lia.
  - unfold ToLength.
    destruct (ofZ_large n ltac:(lia)) as [-> | [m [e [-> [He Hm]]]]].
    + cbn [ToIntegerOrInfinity]. change (2 ^ 53) with 9007199254740992. lia.
    + unfold ToIntegerOrInfinity, truncate. cbn [cond_Zopp].
      replace (0 <=? e) with true by (symmetry; apply Z.leb_le; lia).
      rewrite Z.shiftl_mul_pow2 by lia.
      change (2 ^ 52) with 4503599627370496 in Hm.
      change (2 ^ 53) with 9007199254740992. lia.
Qed.

(** A count that is not positive: no size is below it, and its length
    is 0. *)
Lemma nonpositive_count (count : number) :
  leb count (ofZ 0) = true ->
  ltb (ofZ 0) count = false /\ ToLength count = 0.
Proof.
  intro H. destruct count as [s | s | | s m e].
  - split; reflexivity.
  - destruct s; [split; reflexivity | discriminate H].
  - discriminate H.
  - destruct s; [| discriminate H]. split; [reflexivity |].
    unfold ToLength, ToIntegerOrInfinity, truncate. cbn [cond_Zopp].
    assert (Hs : 0 <= (if 0 <=? e then Z.shiftl (Zpos m) e
                       else Z.shiftr (Zpos m) (- e))).
    { destruct (0 <=? e);
        [apply Z.shiftl_nonneg | apply Z.shiftr_nonneg]; lia. }
    change (2 ^ 53) with 9007199254740992. lia.
Qed.

End CompareFacts.

(** * Bulk generation: what the elements are, and when the loop cannot
    end *)

Module BulkFacts.
Import NumeralFacts ValidFacts.

Section Invariant.
Variable gen : World -> string * World.
Variable I : World -> Prop.
Variable P : string -> Prop.
Hypothesis gen_keeps : forall w, I w -> I (snd (gen w)).
Hypothesis gen_gives : forall w, I w -> P (fst (gen w)).

Lemma array_fill_all (n : nat) :
  forall w, I w ->
    Forall P (fst (array_fill n gen w)) /\ I (snd (array_fill n gen w)).
Proof.
  induction n as [|n IH]; intros w Hw; cbn [array_fill].
  - split; [constructor | exact Hw].
  - pose proof (gen_keeps w Hw) as Hk. pose proof (gen_gives w Hw) as Hg.
    destruct (gen w) as [x w1]. cbn [fst snd] in *.
    destruct (IH w1 Hk) as [Hall Hi].
    destruct (array_fill n gen w1) as [xs w2]. cbn [fst snd] in *.
    split; [constructor; assumption | exact Hi].
Qed.

Lemma Set_add_all (set : list string) (x : string) :
  Forall P set -> P x -> Forall P (Set_add set x).
Proof.
  intros Hs Hx. unfold Set_add. destruct (Set_has set x); [exact Hs |].
  apply Forall_app. split; [exact Hs | constructor; [exact Hx | constructor]].
Qed.

Lemma fill_set_all (fuel : nat) (count : number) :
  forall set w l w',
    I w -> Forall P set ->
    fill_set fuel count gen set w = Some (l, w') ->
    Forall P l /\ I w'.
Proof.
  induction fuel as [|fuel IH]; intros set w l w' Hw Hs H; cbn in H.
  - destruct (ltb (ofZ (Z.of_nat (List.length set))) count);
      [discriminate |].
    injection H as <- <-. split; assumption.
  - destruct (ltb (ofZ (Z.of_nat (List.length set))) count).
    + pose proof (gen_keeps w Hw) as Hk. pose proof (gen_gives w Hw) as Hg.
      destruct (gen w) as [x w1]. cbn [fst snd] in *.
      apply (IH _ _ _ _ Hk (Set_add_all set x Hs Hg) H).
    + injection H as <- <-. split; assumption.
Qed.

Lemma generateMany_all (fuel : nat) (count : number) (unique : bool)
  (w w' : World) (l : list string) :
  I w -> generateMany gen fuel count unique w = Some (Returned l, w') ->
  Forall P l /\ I w'.
Proof.
  intros Hw H. unfold generateMany in H. destruct unique; cbn [negb] in H.
  - destruct (fill_set fuel count gen [] w) as [[set w1] |] eqn:E;
      [| discriminate H].
    unfold array_from_set in H.
    destruct (max_array_length <? Z.of_nat (List.length set));
      [discriminate H |].
    injection H as <- <-.
    apply (fill_set_all fuel count [] w set w1 Hw (Forall_nil P) E).
  - unfold array_from in H.
    destruct (max_array_length <? ToLength count); [discriminate H |].
    pose proof (array_fill_all (Z.to_nat (ToLength count)) w Hw) as [Ha Hi].
    destruct (array_fill (Z.to_nat (ToLength count)) gen w) as [xs w2].
    injection H as <- <-. split; assumption.
Qed.

(** When every value the generator can give lies in a finite list and
    more distinct values are asked for than the list holds, the loop of
    the unique mode never ends. *)
Variable U : list string.
Hypothesis gen_in : forall w, I w -> In (fst (gen w)) U.

Lemma fill_set_stuck (count : number) :
  (forall k, (k <= List.length U)%nat ->
             ltb (ofZ (Z.of_nat k)) count = true) ->
  forall fuel set w,
    I w -> NoDup set -> incl set U ->
    fill_set fuel count gen set w = None.
Proof.
  intros Hc. induction fuel as [|fuel IH]; intros set w Hw Hnd Hin;
    cbn [fill_set];
    pose proof (NoDup_incl_length Hnd Hin) as Hlen;
    rewrite (Hc _ Hlen); [reflexivity |].
  pose proof (gen_keeps w Hw) as Hk. pose proof (gen_in w Hw) as Hg.
  destruct (gen w) as [x w1]. cbn [fst snd] in *.
  apply IH; [exact Hk | now apply Set_add_NoDup |].
  unfold Set_add. destruct (Set_has set x); [exact Hin |].
  intros y Hy. apply in_app_or in Hy as [Hy | [<- | []]]; auto.
Qed.

End Invariant.

(** *** All the strings of [k] digits *)

Lemma length_flat_map_const {A B : Type} (f : A -> list B) (n : nat)
  (l : list A) :
  (forall a, List.length (f a) = n) ->
  List.length (flat_map f l) = (List.length l * n)%nat.
Proof.
  intro H. induction l as [|a l IH]; cbn; [reflexivity |].
  rewrite length_app, H, IH. reflexivity.
Qed.

Lemma digit_words_length (k : nat) :
  List.length (digit_words k) = (10 ^ k)%nat.
Proof.
  induction k as [|k IH]; [reflexivity |].
  cbn [digit_words].
  rewrite (length_flat_map_const _ (List.length (digit_words k)))
    by (intro; apply length_map).
  rewrite IH. cbn [List.length digit_chars Nat.pow]. lia.
Qed.

Lemma digit_in_chars (c : ascii) :
  in_class Digit c = true -> In c digit_chars.
Proof.
  destruct c as [[] [] [] [] [] [] [] []]; cbn; intro H;
    try discriminate H; tauto.
Qed.

Lemma digit_words_complete (k : nat) :
  forall s, all_digits s = true -> String.length s = k ->
    In s (digit_words k).
Proof.
  induction k as [|k IH]; intros s Hd Hl.
  - destruct s; [left; reflexivity | discriminate].
  - destruct s as [|c s]; [discriminate |].
    cbn in Hd, Hl. apply andb_true_iff in Hd as [Hc Hd].
    cbn [digit_words]. apply in_flat_map. exists c.
    split; [now apply digit_in_chars |].
    apply in_map. apply IH; [exact Hd | lia].
Qed.

(** *** The platform's invariant *)

Lemma fair_after_PIN (w : World) :
  fair_platform w -> fair_platform (snd (generatePIN None w)).
Proof. intros H n. exact (H n). Qed.

Lemma fair_after_TCC (w : World) :
  fair_platform w -> fair_platform (snd (generateTCC None w)).
Proof. intros H n. exact (H n). Qed.

Lemma fair_after_Eslip (w : World) :
  fair_platform w -> fair_platform (snd (generateEslip None w)).
Proof. intros H n. exact (H n). Qed.

Lemma fair_PIN_valid (w : World) :
  fair_platform w -> validatePINFormat (fst (generatePIN None w)) = true.
Proof.
  intro H. destruct (H (drawn w)) as [Hv1 Hu1].
  destruct (H (S (drawn w))) as [Hv2 Hu2].
  change (fst (generatePIN None w))
    with (append "P" (append (pin_digits (entropy w (drawn w)))
                        (pin_letter (entropy w (S (drawn w)))))).
  now apply pin_valid.
Qed.

Lemma fair_TCC_shape (w : World) :
  fair_platform w ->
  fst (generateTCC None w) = append "TCC" (tcc_digits (entropy w (drawn w)))
  /\ all_digits (tcc_digits (entropy w (drawn w))) = true
  /\ String.length (tcc_digits (entropy w (drawn w))) = 6%nat.
Proof.
  intro H. destruct (H (drawn w)) as [Hv Hu].
  split; [reflexivity |]. now apply tcc_digits_six.
Qed.

Lemma fair_TCC_valid (w : World) :
  fair_platform w -> validateTCCFormat (fst (generateTCC None w)) = true.
Proof.
  intro H. destruct (H (drawn w)) as [Hv Hu].
  change (fst (generateTCC None w))
    with (append "TCC" (tcc_digits (entropy w (drawn w)))).
  now apply tcc_valid.
Qed.

Lemma fair_Eslip_valid (w : World) :
  fair_platform w -> validateEslipFormat (fst (generateEslip None w)) = true.
Proof.
  intro H. destruct (H (drawn w)) as [Hv Hu].
  change (fst (generateEslip None w))
    with (append "ESLIP" (pin_digits (entropy w (drawn w)))).
  now apply eslip_valid.
Qed.

End BulkFacts.

(** * Bulk generation and tax periods *)

Section BulkContracts.
Import Rounding ExactFacts DateFacts AmountFacts CompareFacts.
Variable gen : World -> string * World.

(** The non-unique mode up to the largest length of an array. *)
Lemma array_from_length (n : Z) (w : World) :
  0 <= n <= max_array_length ->
  exists l w',
    array_from (ofZ n) gen w = (Returned l, w')
    /\ Z.of_nat (List.length l) = n.
Proof.
  intro Hn. unfold array_from.
  assert (H32 : max_array_length < 2 ^ 53) by reflexivity.
  rewrite ToLength_ofZ by lia.
  replace (max_array_length <? n) with false
    by (symmetry; apply Z.ltb_ge; lia).
  pose proof (array_fill_length gen (Z.to_nat n) w) as Hl.
  destruct (array_fill (Z.to_nat n) gen w) as [xs w'].
  exists xs, w'. split; [reflexivity |]. cbn [fst] in Hl. lia.
Qed.

(** Beyond it the array cannot be created. *)
Lemma array_from_overflow (n : Z) (w : World) :
  max_array_length < n -> array_from (ofZ n) gen w = (RangeError, w).
Proof.
  intro Hn. unfold array_from.
  pose proof (ToLength_large n
                ltac:(unfold max_array_length in Hn; lia)) as Hl.
  replace (max_array_length <? ToLength (ofZ n)) with true
    by (symmetry; apply Z.ltb_lt; exact Hl).
  reflexivity.
Qed.

(** What the unique mode returns. *)
Lemma unique_returns (n : Z) (fuel : nat) (w w' : World)
  (l : list string) :
  0 <= n ->
  generateMany gen fuel (ofZ n) true w = Some (Returned l, w') ->
  Z.of_nat (List.length l) = n /\ NoDup l
  /\ n <= max_array_length.
Proof.
  intros Hn H. unfold generateMany in H. cbn [negb] in H.
  destruct (fill_set fuel (ofZ n) gen [] w) as [[set w1] |] eqn:E;
    [| discriminate H].
  unfold array_from_set in H.
  destruct (Z.ltb_spec max_array_length (Z.of_nat (List.length set)))
    as [Hbig | Hfit]; [discriminate H |].
  injection H as <- <-.
  assert (H32 : max_array_length < 2 ^ 53) by reflexivity.
  destruct (fill_set_spec gen fuel (ofZ n) [] w set w1 (NoDup_nil _) E)
    as [Hnd [Hend Hlast]].
  rewrite compare_size in Hend by lia. apply Z.ltb_ge in Hend.
  assert (Hlen : Z.of_nat (List.length set) = n).
  { destruct Hlast as [-> | [l0 [Hl0 Hle]]].
    - cbn [List.length] in *. lia.
    - rewrite compare_size in Hl0 by lia. apply Z.ltb_lt in Hl0. lia. }
  split; [exact Hlen |]. split; [exact Hnd | lia].
Qed.

Lemma generateMany_unique_contract (n : Z) :
  0 <= n -> unique_contract (generateMany gen) n.
Proof.
  intros Hn fuel w l w' H.
  destruct (unique_returns n fuel w w' l Hn H) as [Hl [Hnd _]]. auto.
Qed.

Lemma generateMany_nonunique_contract (n : Z) :
  0 <= n <= max_array_length -> nonunique_contract (generateMany gen) n.
Proof.
  intros Hn fuel w. unfold generateMany. cbn [negb].
  destruct (array_from_length n w Hn) as [l [w' [E Hl]]].
  exists l, w'. rewrite E. auto.
Qed.

Lemma generateMany_overflow (n : Z) :
  max_array_length < n -> bulk_overflow (generateMany gen) n.
Proof.
  intro Hn. split.
  - intros fuel w. unfold generateMany. cbn [negb].
    now rewrite array_from_overflow.
  - intros fuel w l w' H.
    assert (H0 : 0 <= n) by (unfold max_array_length in Hn; lia).
    destruct (unique_returns n fuel w w' l H0 H) as [_ [_ Hle]]. lia.
Qed.

(** A count that is not positive. *)
Lemma generateMany_nonpositive (count : number) (unique : bool)
  (fuel : nat) (w : World) :
  leb count (ofZ 0) = true ->
  generateMany gen fuel count unique w = Some (Returned [], w).
Proof.
  intro H. destruct (nonpositive_count count H) as [Hlt Hlen].
  unfold generateMany. destruct unique; cbn [negb].
  - assert (E : fill_set fuel count gen [] w = Some ([], w)).
    { destruct fuel; cbn [fill_set List.length Z.of_nat];
        rewrite Hlt; reflexivity. }
    rewrite E. reflexivity.
  - unfold array_from. rewrite Hlen. reflexivity.
Qed.

End BulkContracts.

(** C4.  For every integer [n >= 0]: whenever [generatePINs(n, true)]
    returns, the result has exactly [n] elements and they are pairwise
    distinct.  [generatePINs(n, false)] returns exactly [n] elements as
    long as [n] is at most [2^32 - 1], the largest length of an array, and
    these may repeat (they do when [Math.random] keeps returning the same
    number); for a larger [n] it fails with a [RangeError] before drawing
    anything, and the unique mode returns nothing.  The same holds of
    [generateTCCs] and [generateEslips]. *)
Theorem bulk_generators_length_and_distinct (n : Z) (Hn : 0 <= n) :
  (unique_contract generatePINs n
   /\ unique_contract generateTCCs n
   /\ unique_contract generateEslips n)
  /\ (n <= max_array_length ->
      nonunique_contract generatePINs n
      /\ nonunique_contract generateTCCs n
      /\ nonunique_contract generateEslips n)
  /\ (max_array_length < n ->
      bulk_overflow generatePINs n
      /\ bulk_overflow generateTCCs n
      /\ bulk_overflow generateEslips n)
  /\ (option_map fst (generatePINs 0 (ofZ 2) false stuck_world)
        = Some (Returned ["P550000000N"; "P550000000N"])
      /\ option_map fst (generateTCCs 0 (ofZ 2) false stuck_world)
         = Some (Returned ["TCC550000"; "TCC550000"])
      /\ option_map fst (generateEslips 0 (ofZ 2) false stuck_world)
         = Some (Returned ["ESLIP550000000"; "ESLIP550000000"])).
Proof.
  split; [| split; [| split]].
  - split; [| split]; apply generateMany_unique_contract; exact Hn.
  - intro Hle. split; [| split]; apply generateMany_nonunique_contract; lia.
  - intro Hgt. split; [| split]; apply generateMany_overflow; exact Hgt.
  - repeat split; vm_compute; reflexivity.
Qed.

(** On the sample platform three distinct PINs are found in three
    iterations. *)
Lemma bulk_generators_length_and_distinct_witness :
  0 <= 3
  /\ exists l w',
      generatePINs 3 (ofZ 3) true sample_world = Some (Returned l, w')
      /\ Z.of_nat (List.length l) = 3 /\ NoDup l.
Proof.
  split; [lia |].
  assert (H : option_map fst (generatePINs 3 (ofZ 3) true sample_world)
              = Some (Returned
                        ["P897295524V"; "P963090277U"; "P605736882S"]))
    by (vm_compute; reflexivity).
  destruct (generatePINs 3 (ofZ 3) true sample_world) as [[c w']|] eqn:E;
    [| discriminate H].
  cbn [option_map fst] in H. injection H as ->.
  eexists _, w'. split; [reflexivity |].
  destruct (bulk_generators_length_and_distinct 3 ltac:(lia))
    as [[HP _] _].
  exact (HP 3%nat sample_world _ w' E).
Defined.

(** The claim as it was stated fails at [n = 2^32]: the non-unique call
    returns no sequence. *)
Lemma generatePINs_beyond_array_length :
  generatePINs 0 (ofZ 4294967296) false sample_world
  = Some (RangeError, sample_world).
Proof.
  unfold generatePINs, generateMany. cbn [negb].
  rewrite array_from_overflow; [reflexivity |].
  unfold max_array_length. change (2 ^ 32) with 4294967296. lia.
Qed.

(** A count that is not an integer: the non-unique mode takes its
    integer part, the unique mode stops at the first size that is not
    below it. *)
Example generatePINs_fractional_count :
  option_map (fun r => match fst r with
                       | Returned l => Some (List.length l)
                       | RangeError => None
                       end)
    (generatePINs 0 (div (ofZ 5) (ofZ 2)) false sample_world)
  = Some (Some 2%nat)
  /\ option_map (fun r => match fst r with
                          | Returned l => Some (List.length l)
                          | RangeError => None
                          end)
       (generatePINs 3 (div (ofZ 5) (ofZ 2)) true sample_world)
     = Some (Some 3%nat).
Proof. split; vm_compute; reflexivity. Qed.

(** C5.  For a count that is zero or negative -- any number that is not
    above zero, integer or not, [-Infinity] included -- every bulk
    generator returns the empty sequence, with either value of the flag;
    with [unique = true] the loop body is never entered, so no iteration
    is needed, and no random number is consumed. *)
Theorem bulk_nonpositive_count_empty (count : number) (unique : bool)
  (fuel : nat) (w : World)
  (Hcount : leb count (ofZ 0) = true
            \/ exists n : Z, n <= 0 /\ count = ofZ n) :
  generatePINs fuel count unique w = Some (Returned [], w)
  /\ generateTCCs fuel count unique w = Some (Returned [], w)
  /\ generateEslips fuel count unique w = Some (Returned [], w).
Proof.
  assert (H : leb count (ofZ 0) = true).
  { destruct Hcount as [H | [n [Hn ->]]]; [exact H |].
    now apply CompareFacts.ofZ_nonpositive. }
  unfold generatePINs, generateTCCs, generateEslips.
  repeat split; now apply generateMany_nonpositive.
Qed.

Lemma bulk_nonpositive_count_empty_witness :
  (leb (ofZ (-3)) (ofZ 0) = true
   \/ exists n : Z, n <= 0 /\ ofZ (-3) = ofZ n)
  /\ generatePINs 0 (ofZ (-3)) true sample_world
     = Some (Returned [], sample_world)
  /\ generateTCCs 0 (ofZ (-3)) true sample_world
     = Some (Returned [], sample_world)
  /\ generateEslips 0 (ofZ (-3)) true sample_world
     = Some (Returned [], sample_world).
Proof.
  assert (H : leb (ofZ (-3)) (ofZ 0) = true
              \/ exists n : Z, n <= 0 /\ ofZ (-3) = ofZ n)
    by (right; exists (-3); split; [lia | reflexivity]).
  split; [exact H |].
  exact (bulk_nonpositive_count_empty (ofZ (-3)) true 0 sample_world H).
Defined.

(** ** The month of a tax period *)

Section TaxPeriodPadding.
Import DigitCount DecimalExact DateFacts GeneratorFacts.

(** Padding to two characters, case by case. *)
Lemma padStart_2 (s : string) : padStart 2 "0" s = zero_padded_2 s.
Proof. destruct s as [|c [|c' s]]; reflexivity. Qed.

(** A positive integer padded to two characters: a zero before a single
    digit, the digits themselves otherwise. *)
Lemma zero_padded_decimal (m : Z) :
  1 <= m < 10 ^ 15 -> zero_padded_2 (decimal m) = two_digits m.
Proof.
  intro Hm. unfold two_digits.
  destruct (digit_count m ltac:(lia)) as [L [HL HmL]].
  pose proof (decimal_length m (Z.to_nat L) ltac:(lia)
                ltac:(rewrite Z2Nat.id by lia; exact HmL)) as Hlen.
  destruct (Z.ltb_spec m 10) as [Hlt | Hge].
  - assert (L = 1).
    { destruct (Z.eq_dec L 1) as [-> | Hne]; [reflexivity | exfalso].
      assert (10 ^ 1 <= 10 ^ (L - 1)) by (apply Z.pow_le_mono_r; lia).
      change (10 ^ 1) with 10 in *. lia. }
    subst L. change (Z.to_nat 1) with 1%nat in Hlen.
    destruct (decimal m) as [|c [|c' s]]; try discriminate Hlen.
    reflexivity.
  - assert (2 <= L).
    { destruct (Z.eq_dec L 1) as [-> | Hne]; [| lia].
      change (10 ^ 1) with 10 in HmL. lia. }
    destruct (decimal m) as [|c [|c' s]]; cbn [String.length] in Hlen;
      try lia.
    reflexivity.
Qed.


End TaxPeriodPadding.



(** * Further properties of the generators *)

Import Rounding DivisionFacts ExactFacts SeededFacts DrawFacts ToStringFacts
  NumeralFacts DigitCount DecimalExact ScaledFacts GeneratorFacts
  ValidatorFacts BulkFacts CalendarFacts DateFacts PeriodFacts AmountFacts
  CompareFacts.

(** ** The seeded generator on integer seeds *)

(** X1.  For an integer seed [s] with [-5 <= s] (and small enough for
    [s * 9301 + 49297] to be computed exactly) the state of the seeded
    generator is always an integer from 0 to 233279, and every number it
    emits is that state divided by 233280, a number of [0, 1). *)
Theorem seeded_draws_unit (s : Z) (w : World) (n : nat) :
  -5 <= s -> s * 9301 + 49297 < 2 ^ 53 ->
  nth_draw (seededRandom (ofZ s)) w n
  = div (ofZ (lcg_int_state s n)) (ofZ 233280)
  /\ 0 <= lcg_int_state s n < 233280
  /\ unit_number (nth_draw (seededRandom (ofZ s)) w n).
Proof.
  intros Hlo Hhi. unfold seededRandom. rewrite nth_draw_seeded.
  destruct (lcg_state_int s n Hlo Hhi) as [E Hr].
  split; [unfold emitted; now rewrite E |]. split; [exact Hr |].
  exact (seeded_draws_in_unit_interval s n Hlo Hhi).
Qed.

Lemma seeded_draws_unit_witness :
  (-5 <= 12345 /\ 12345 * 9301 + 49297 < 2 ^ 53)
  /\ unit_number (nth_draw (seededRandom (ofZ 12345)) sample_world 1).
Proof.
  split; [lia |].
  apply (seeded_draws_unit 12345 sample_world 1); lia.
Defined.

(** X2.  For non-negative integer seeds in the range where the state is
    computed exactly ([(s + 233280 * k) * 9301 + 49297 < 2^53]), the
    seeded generator depends on the seed only through its remainder
    modulo 233280: the seeds [s] and [s + 233280 * k] give the same
    numbers, hence the same PIN, TCC and e-slip, which are those of the
    remainder of the seed, a seed from 0 to 233279. *)
Theorem seeded_outputs_periodic (s k : Z) (w : World) :
  0 <= s -> 0 <= k -> (s + 233280 * k) * 9301 + 49297 < 2 ^ 53 ->
  (forall n, nth_draw (seededRandom (ofZ (s + 233280 * k))) w n
             = nth_draw (seededRandom (ofZ s)) w n)
  /\ generatePIN (Some (ofZ (s + 233280 * k))) w
     = generatePIN (Some (ofZ s)) w
  /\ generateTCC (Some (ofZ (s + 233280 * k))) w
     = generateTCC (Some (ofZ s)) w
  /\ generateEslip (Some (ofZ (s + 233280 * k))) w
     = generateEslip (Some (ofZ s)) w
  /\ (0 <= (s + 233280 * k) mod 233280 < 233280
      /\ generatePIN (Some (ofZ (s + 233280 * k))) w
         = generatePIN (Some (ofZ ((s + 233280 * k) mod 233280))) w
      /\ generateTCC (Some (ofZ (s + 233280 * k))) w
         = generateTCC (Some (ofZ ((s + 233280 * k) mod 233280))) w
      /\ generateEslip (Some (ofZ (s + 233280 * k))) w
         = generateEslip (Some (ofZ ((s + 233280 * k) mod 233280))) w).
Proof.
  intros Hs Hk Hb.
  assert (E : forall n, emitted (ofZ (s + 233280 * k)) n
                        = emitted (ofZ s) n).
  { intro n. apply emitted_congruent; try lia.
    rewrite (Z.mul_comm 233280 k). apply Z.mod_add. lia. }
  pose proof (Z.mod_pos_bound (s + 233280 * k) 233280 ltac:(lia)) as Hmod.
  pose proof (Z.mod_le (s + 233280 * k) 233280 ltac:(lia) ltac:(lia))
    as Hle.
  assert (E' : forall n,
             emitted (ofZ ((s + 233280 * k) mod 233280)) n
             = emitted (ofZ s) n).
  { intro n. apply emitted_congruent; try lia.
    rewrite Z.mod_mod by lia.
    rewrite (Z.mul_comm 233280 k). apply Z.mod_add. lia. }
  split; [intro n; unfold seededRandom; rewrite !nth_draw_seeded; apply E |].
  rewrite !generatePIN_seeded, !generateTCC_seeded, !generateEslip_seeded.
  rewrite !E', !E. repeat split; try reflexivity; lia.
Qed.

Lemma seeded_outputs_periodic_witness :
  (0 <= 12345 /\ 0 <= 3 /\ (12345 + 233280 * 3) * 9301 + 49297 < 2 ^ 53)
  /\ generatePIN (Some (ofZ (12345 + 233280 * 3))) sample_world
     = generatePIN (Some (ofZ 12345)) sample_world.
Proof.
  split; [lia |].
  apply (seeded_outputs_periodic 12345 3 sample_world); lia.
Defined.

(** ** The scalar generators on draws of the unit interval *)

(** X3.  When the two draws are numbers of [0, 1), [generatePIN] returns
    "P", the decimal digits of an integer from 100000000 to 999999999,
    and one letter from A to Z; the result passes [validatePINFormat]. *)
Theorem generatePIN_shape (seed : option number) (w : World) :
  unit_draws 2 (random_of seed) w ->
  exists z c,
    100000000 <= z < 1000000000 /\ in_class UpperAZ c = true
    /\ fst (generatePIN seed w)
       = append "P" (append (decimal z) (String c EmptyString))
    /\ validatePINFormat (fst (generatePIN seed w)) = true.
Proof.
  intro H. unfold generatePIN.
  next_draw H r1. next_draw H r2. cbn [fst].
  destruct Hr1 as [Hv1 Hu1], Hr2 as [Hv2 Hu2].
  pose proof (ValidFacts.pin_valid r1 r2 Hv1 Hu1 Hv2 Hu2) as Hval.
  destruct (pin_digits_decimal r1 Hv1 Hu1) as [z [Hz Ez]].
  destruct (pin_letter_upper r2 Hv2 Hu2) as [c [Ec Hc]].
  exists z, c. rewrite <- Ez, <- Ec. repeat split; try assumption; lia.
Qed.

Lemma generatePIN_shape_witness :
  unit_draws 2 (random_of (Some (ofZ 12345))) sample_world
  /\ validatePINFormat (fst (generatePIN (Some (ofZ 12345)) sample_world))
     = true.
Proof.
  assert (H : unit_draws 2 (random_of (Some (ofZ 12345))) sample_world).
  { intros n Hn. destruct n as [|[|n]]; [| | lia];
      split; vm_compute; reflexivity. }
  split; [exact H |].
  destruct (generatePIN_shape (Some (ofZ 12345)) sample_world H)
    as [z [c [_ [_ [_ Hv]]]]].
  exact Hv.
Defined.

(** X4.  The digits of a generated PIN never start with 0: a PIN such as
    the documented "P051234567A" is never generated. *)
Theorem generatePIN_first_digit (seed : option number) (w : World) :
  unit_draws 2 (random_of seed) w ->
  exists c rest,
    fst (generatePIN seed w) = String "P" (String c rest)
    /\ in_class Digit c = true /\ c <> "0"%char.
Proof.
  intro H. unfold generatePIN.
  next_draw H r1. next_draw H r2. cbn [fst].
  destruct Hr1 as [Hv1 Hu1].
  destruct (pin_digits_decimal r1 Hv1 Hu1) as [z [Hz Ez]].
  destruct (decimal_first_digit z ltac:(lia)) as [c [rest [Ed [Hc Hne]]]].
  exists c, (append rest (pin_letter r2)).
  rewrite Ez, Ed. repeat split; assumption.
Qed.

Lemma generatePIN_first_digit_witness :
  unit_draws 2 (random_of (Some (ofZ 12345))) sample_world
  /\ exists c rest,
       fst (generatePIN (Some (ofZ 12345)) sample_world)
       = String "P" (String c rest)
       /\ in_class Digit c = true /\ c <> "0"%char.
Proof.
  assert (H : unit_draws 2 (random_of (Some (ofZ 12345))) sample_world).
  { intros n Hn. destruct n as [|[|n]]; [| | lia];
      split; vm_compute; reflexivity. }
  split; [exact H |].
  exact (generatePIN_first_digit (Some (ofZ 12345)) sample_world H).
Defined.

(** X5.  When the draw is a number of [0, 1), [generateTCC] returns "TCC"
    followed by exactly six digits, and [generateEslip] returns "ESLIP"
    followed by the decimal digits of an integer from 100000000 to
    999999999; both pass their validators. *)
Theorem generateTCC_Eslip_shape (seed : option number) (w : World) :
  unit_draws 1 (random_of seed) w ->
  (exists d, all_digits d = true /\ String.length d = 6%nat
     /\ fst (generateTCC seed w) = append "TCC" d
     /\ validateTCCFormat (fst (generateTCC seed w)) = true)
  /\ (exists z, 100000000 <= z < 1000000000
        /\ fst (generateEslip seed w) = append "ESLIP" (decimal z)
        /\ validateEslipFormat (fst (generateEslip seed w)) = true).
Proof.
  intro H. unfold generateTCC, generateEslip.
  next_draw H r. cbn [fst]. destruct Hr as [Hv Hu].
  split.
  - exists (tcc_digits r).
    destruct (ValidFacts.tcc_digits_six r Hv Hu) as [Hd Hl].
    repeat split; try assumption. now apply ValidFacts.tcc_valid.
  - destruct (pin_digits_decimal r Hv Hu) as [z [Hz Ez]].
    exists z. rewrite <- Ez. repeat split; try lia.
    now apply ValidFacts.eslip_valid.
Qed.

Lemma generateTCC_Eslip_shape_witness :
  unit_draws 1 (random_of (Some (ofZ 12345))) sample_world
  /\ validateTCCFormat (fst (generateTCC (Some (ofZ 12345)) sample_world))
     = true.
Proof.
  assert (H : unit_draws 1 (random_of (Some (ofZ 12345))) sample_world).
  { intros n Hn. destruct n as [|n]; [| lia];
      split; vm_compute; reflexivity. }
  split; [exact H |].
  destruct (generateTCC_Eslip_shape (Some (ofZ 12345)) sample_world H)
    as [[d [_ [_ [_ Hv]]]] _].
  exact Hv.
Defined.

(** X6.  When the draw is a number of [0, 1), [generateObligationID]
    returns "OBL" followed by an integer from 1 to 999 padded with zeros
    to three digits: six characters, and never "OBL000". *)
Theorem generateObligationID_shape (seed : option number) (w : World) :
  unit_draws 1 (random_of seed) w ->
  exists z, 1 <= z <= 999
    /\ fst (generateObligationID seed w)
       = append "OBL" (padStart 3 "0" (decimal z))
    /\ all_digits (padStart 3 "0" (decimal z)) = true
    /\ String.length (fst (generateObligationID seed w)) = 6%nat.
Proof.
  intro H. unfold generateObligationID.
  next_draw H r. cbn [fst]. destruct Hr as [Hv Hu].
  destruct (obligation_digits_shape r Hv Hu) as [z [Hz Ez]].
  destruct (padStart_digits 3 z ltac:(lia)
              ltac:(change (10 ^ Z.of_nat 3) with 1000; lia)) as [Hd Hl].
  exists z. rewrite Ez. repeat split; try assumption; try lia.
  rewrite length_append, Hl. reflexivity.
Qed.

Lemma generateObligationID_shape_witness :
  unit_draws 1 (random_of (Some (ofZ 12345))) sample_world
  /\ String.length
       (fst (generateObligationID (Some (ofZ 12345)) sample_world)) = 6%nat.
Proof.
  assert (H : unit_draws 1 (random_of (Some (ofZ 12345))) sample_world).
  { intros n Hn. destruct n as [|n]; [| lia];
      split; vm_compute; reflexivity. }
  split; [exact H |].
  destruct (generateObligationID_shape (Some (ofZ 12345)) sample_world H)
    as [z [_ [_ [_ Hl]]]].
  exact Hl.
Defined.

(** X7.  When the two draws are numbers of [0, 1), [generatePhoneNumber]
    returns "+254", one of the prefixes "7" and "1", and the decimal
    digits of an integer from 10000000 to 99999999: thirteen
    characters. *)
Theorem generatePhoneNumber_shape (seed : option number) (w : World) :
  unit_draws 2 (random_of seed) w ->
  exists p z,
    (p = "7" \/ p = "1") /\ 10000000 <= z < 100000000
    /\ fst (generatePhoneNumber seed w)
       = append "+254" (append p (decimal z))
    /\ String.length (fst (generatePhoneNumber seed w)) = 13%nat.
Proof.
  intro H. unfold generatePhoneNumber.
  next_draw H r1. next_draw H r2. cbn [fst].
  destruct Hr1 as [Hv1 Hu1], Hr2 as [Hv2 Hu2].
  destruct (pick_in phone_prefixes r1 ltac:(cbn; lia) ltac:(cbn; lia)
              Hv1 Hu1) as [p [-> Hp]].
  destruct (phone_digits_decimal r2 Hv2 Hu2) as [z [Hz Ez]].
  exists p, z. rewrite Ez. cbn [interpolate].
  assert (Hl : String.length (decimal z) = 8%nat)
    by (apply decimal_length; [lia | cbn; lia]).
  assert (Hp' : p = "7" \/ p = "1")
    by (destruct Hp as [<- | [<- | []]]; auto).
  repeat split; try assumption; try lia.
  rewrite !length_append, Hl.
  destruct Hp' as [-> | ->]; reflexivity.
Qed.

Lemma generatePhoneNumber_shape_witness :
  unit_draws 2 (random_of (Some (ofZ 12345))) sample_world
  /\ String.length
       (fst (generatePhoneNumber (Some (ofZ 12345)) sample_world)) = 13%nat.
Proof.
  assert (H : unit_draws 2 (random_of (Some (ofZ 12345))) sample_world).
  { intros n Hn. destruct n as [|[|n]]; [| | lia];
      split; vm_compute; reflexivity. }
  split; [exact H |].
  destruct (generatePhoneNumber_shape (Some (ofZ 12345)) sample_world H)
    as [p [z [_ [_ [_ Hl]]]]].
  exact Hl.
Defined.

(** X8.  When the draw is a number of [0, 1), [generateEmail] returns
    "taxpayer", the decimal digits of an integer from 0 to 999999 (not
    padded), "@" and the domain, which is "example.com" when none is
    given. *)
Theorem generateEmail_shape (domain : option string) (seed : option number)
  (w : World) :
  unit_draws 1 (random_of seed) w ->
  exists z, 0 <= z < 1000000
    /\ fst (generateEmail domain seed w)
       = append (append "taxpayer" (decimal z))
           (append "@" (match domain with
                        | Some d => d
                        | None => "example.com"
                        end)).
Proof.
  intro H. unfold generateEmail.
  next_draw H r. cbn [fst]. destruct Hr as [Hv Hu].
  destruct (email_number_decimal r Hv Hu) as [z [Hz Ez]].
  exists z. rewrite Ez. split; [exact Hz | reflexivity].
Qed.

Lemma generateEmail_shape_witness :
  unit_draws 1 (random_of (Some (ofZ 12345))) sample_world
  /\ exists z, 0 <= z < 1000000
       /\ fst (generateEmail None (Some (ofZ 12345)) sample_world)
          = append (append "taxpayer" (decimal z)) "@example.com".
Proof.
  assert (H : unit_draws 1 (random_of (Some (ofZ 12345))) sample_world).
  { intros n Hn. destruct n as [|n]; [| lia];
      split; vm_compute; reflexivity. }
  split; [exact H |].
  exact (generateEmail_shape None (Some (ofZ 12345)) sample_world H).
Defined.

(** X9.  When the draws are numbers of [0, 1), every index computed by
    [generateTaxpayerName] is within its array: an individual is a first
    name, a space and a last name of the corpora; a company is a prefix,
    a type and, unless the empty suffix was drawn, a suffix, separated by
    single spaces; a partnership is two names joined by " & " and followed
    by " Partners".  A call without type is a call for a company. *)
Theorem generateTaxpayerName_from_corpus (t : TaxpayerType)
  (seed : option number) (w : World) :
  unit_draws 3 (random_of seed) w ->
  taxpayer_name_shape t (fst (generateTaxpayerName (Some t) seed w))
  /\ generateTaxpayerName None seed w
     = generateTaxpayerName (Some Company) seed w.
Proof.
  intro H. split; [now apply generateTaxpayerName_shape | reflexivity].
Qed.

Lemma generateTaxpayerName_from_corpus_witness :
  unit_draws 3 (random_of (Some (ofZ 12345))) sample_world
  /\ taxpayer_name_shape Company
       (fst (generateTaxpayerName (Some Company) (Some (ofZ 12345))
               sample_world)).
Proof.
  assert (H : unit_draws 3 (random_of (Some (ofZ 12345))) sample_world).
  { intros n Hn. destruct n as [|[|[|n]]]; [| | | lia];
      split; vm_compute; reflexivity. }
  split; [exact H |].
  exact (proj1 (generateTaxpayerName_from_corpus Company
                  (Some (ofZ 12345)) sample_world H)).
Defined.

(** ** Amounts *)

(** X10.  For integers [0 < min <= max] and a draw of [0, 1),
    [generateAmount(min, max, 2, seed)] returns a number [x] with
    [min <= x <= max] that a numeral with two fractional digits denotes:
    the number read from what [toFixed(2)] prints.  The default call,
    with 1000 and 1000000, is an instance. *)
Theorem generateAmount_within_bounds (min max : Z) (seed : option number)
  (w : World) :
  0 < min -> min <= max -> max < 2 ^ 53 ->
  unit_draws 1 (random_of seed) w ->
  exists x,
    fst (generateAmount (ofZ min) (ofZ max) (ofZ 2) seed w) = Some x
    /\ leb (ofZ min) x = true /\ leb x (ofZ max) = true
    /\ at_most_fraction_digits 2 x.
Proof.
  intros Hmin Hle Hmax H. unfold generateAmount.
  next_draw H r. cbn [fst]. destruct Hr as [Hv Hu].
  pose proof (amount_between min max r Hmin Hle Hmax Hv Hu) as Hr.
  destruct (add (mul r (sub (ofZ max) (ofZ min))) (ofZ min))
    as [s | s | | s m e] eqn:E; cbn [in_range] in Hr;
    try contradiction; [lia |].
  destruct Hr as [-> [He Hm]].
  pose proof (nearest_scaled_between m e min max ltac:(lia)
                (conj eq_refl (conj He Hm))) as Hn.
  rewrite AmountBounds.toFixed_2 by exact He. cbn [option_map].
  set (n := nearest_scaled m e 2) in *.
  exists (Number_ofString (fixed_digits n 2)).
  split; [reflexivity |].
  rewrite read_fixed_digits by lia.
  change (10 ^ Z.of_nat 2) with 100.
  destruct n as [|p|p] eqn:En; try lia.
  assert (Hp : min * 100 <= Zpos p <= max * 100) by lia.
  pose proof (ofRatio_in_range p 100 min max ltac:(lia) Hmax Hp) as Hin.
  pose proof (ofRatio_valid p 100) as Hval.
  destruct (leb_between min max _ Hmin Hle Hmax Hval Hin) as [H1 H2].
  repeat split; try assumption.
  exists (Zpos p). split; [lia | reflexivity].
Qed.

Lemma generateAmount_within_bounds_witness :
  (0 < 1000 /\ 1000 <= 1000000 /\ 1000000 < 2 ^ 53
   /\ unit_draws 1 (random_of None) sample_world)
  /\ exists x,
       fst (generateAmount (ofZ 1000) (ofZ 1000000) (ofZ 2) None
              sample_world) = Some x
       /\ leb (ofZ 1000) x = true /\ leb x (ofZ 1000000) = true
       /\ at_most_fraction_digits 2 x.
Proof.
  assert (H : unit_draws 1 (random_of None) sample_world).
  { intros n Hn. destruct n as [|n]; [| lia];
      split; vm_compute; reflexivity. }
  split; [split; [lia | split; [lia | split; [lia | exact H]]] |].
  apply (generateAmount_within_bounds 1000 1000000 None sample_world);
    try lia; exact H.
Defined.

(** X11.  [generateAmount] fails with the [RangeError] of [toFixed]
    whenever [decimals] is an integer below 0 or above 100, whatever the
    bounds, the seed and the draw; an infinite [decimals] fails as
    well. *)
Theorem generateAmount_decimals_out_of_range (min max : number) (d : Z)
  (seed : option number) (w : World) :
  - 2 ^ 52 < d < 2 ^ 52 -> d < 0 \/ 100 < d ->
  fst (generateAmount min max (ofZ d) seed w) = None
  /\ forall s, fst (generateAmount min max (S754_infinity s) seed w) = None.
Proof.
  intros Hd Hout. unfold generateAmount.
  destruct (call (random_of seed) w) as [[r random'] w']. cbn [fst].
  split; [| reflexivity].
  unfold toFixed. rewrite ToInteger_ofZ by exact Hd.
  replace ((d <? 0) || (100 <? d)) with true; [reflexivity |].
  symmetry. apply orb_true_iff.
  destruct Hout; [left; apply Z.ltb_lt | right; apply Z.ltb_lt]; lia.
Qed.

Lemma generateAmount_decimals_out_of_range_witness :
  (- 2 ^ 52 < 101 < 2 ^ 52 /\ (101 < 0 \/ 100 < 101))
  /\ fst (generateAmount (ofZ 1000) (ofZ 2000) (ofZ 101) None sample_world)
     = None.
Proof.
  split; [split; [lia | right; lia] |].
  apply (generateAmount_decimals_out_of_range (ofZ 1000) (ofZ 2000) 101
           None sample_world); [lia | right; lia].
Defined.

(** ** Dates *)

(** X12.  For whole numbers of days [a] and [f], a clock after the
    window's start and a window that ends within the range of time
    values, and a draw of [0, 1), the date that [generateDate(a, f)]
    returns is a valid date whose time value lies between [a] days
    before and [f] days after [Date.now()], bounds included. *)
Theorem generateDate_in_window (a f : Z) (seed : option number) (w : World) :
  0 <= a -> 0 <= f ->
  a * msPerDay < now_ms w ->
  now_ms w + f * msPerDay <= 8640000000000000 ->
  unit_draws 1 (random_of seed) w ->
  exists t,
    time_value (fst (generateDate (ofZ a) (ofZ f) seed w)) = ofZ t
    /\ now_ms w - a * msPerDay <= t <= now_ms w + f * msPerDay.
Proof.
  intros Ha Hf Hstart Hend H.
  unfold msPerDay in *.
  assert (H53 : 8640000000000000 < 2 ^ 53) by reflexivity.
  unfold generateDate, Date_now.
  rewrite (add_natural a f Ha Hf) by lia.
  rewrite (days_ms (a + f)), (days_ms a) by (unfold msPerDay; lia).
  unfold msPerDay.
  next_draw H r. cbn [fst new_Date time_value]. destruct Hr as [Hv Hu].
  set (P := now_ms w - a * 86400000).
  set (R := (a + f) * 86400000).
  assert (EP : sub (ofZ (now_ms w)) (ofZ (a * 86400000)) = ofZ P).
  { destruct (Z.eq_dec a 0) as [-> | Hna].
    - destruct (ofZ_positive (now_ms w) ltac:(lia)) as [m [e E]].
      unfold P. rewrite Z.mul_0_l, Z.sub_0_r, E. reflexivity.
    - apply sub_exact; lia. }
  rewrite EP.
  assert (Hx : (exists s, mul r (ofZ R) = S754_zero s)
               \/ in_range false 0 0 R (mul r (ofZ R))).
  { destruct (Z.eq_dec R 0) as [-> | HnR].
    - left. destruct (unit_interval_cases r Hv Hu)
        as [[s ->] | [m [e [-> _]]]]; eexists; reflexivity.
    - apply mul_unit_le; [exact Hv | exact Hu | unfold R in *; lia]. }
  pose proof (window_sum P R _ ltac:(unfold P; lia) ltac:(unfold R; lia)
                ltac:(unfold P, R; lia) Hx) as Hin.
  destruct (TimeClip_in_range P (P + R) _ ltac:(unfold P; lia)
              ltac:(unfold P, R; lia) Hin) as [t [Et Ht]].
  exists t. split; [exact Et | unfold P, R in Ht; lia].
Qed.

Lemma generateDate_in_window_witness :
  (0 <= 30 /\ 0 <= 7
   /\ 30 * msPerDay < now_ms sample_world
   /\ now_ms sample_world + 7 * msPerDay <= 8640000000000000
   /\ unit_draws 1 (random_of None) sample_world)
  /\ exists t,
       time_value (fst (generateDate (ofZ 30) (ofZ 7) None sample_world))
       = ofZ t
       /\ now_ms sample_world - 30 * msPerDay <= t
          <= now_ms sample_world + 7 * msPerDay.
Proof.
  assert (H : unit_draws 1 (random_of None) sample_world).
  { intros n Hn. destruct n as [|n]; [| lia];
      split; vm_compute; reflexivity. }
  assert (H1 : 30 * msPerDay < now_ms sample_world) by reflexivity.
  assert (H2 : now_ms sample_world + 7 * msPerDay <= 8640000000000000)
    by (vm_compute; discriminate).
  split;
    [split; [lia | split; [lia | split; [exact H1 | split;
                                          [exact H2 | exact H]]]] |].
  apply (generateDate_in_window 30 7 None sample_world); try lia;
    assumption.
Defined.

(** X13.  [formatDate] of a valid date whose local year [Y] lies between
    0 and 9999 is the decimal digits of [Y], "-", the month of the date in
    local time, from 01 to 12, "-" and its day of the month, from 01 to
    31, both padded to two digits.  The year is not padded: the result
    has the form YYYY-MM-DD exactly when [Y] is at least 1000. *)
Theorem formatDate_shape (w : World) (date : Date) :
  time_value date <> NaN ->
  0 <= YearFromTime (local_instant w date) <= 9999 ->
  formatDate w date
  = append (decimal (YearFromTime (local_instant w date)))
      (append "-"
         (append (two_digits (MonthFromTime (local_instant w date) + 1))
            (append "-" (two_digits (DateFromTime (local_instant w date))))))
  /\ 1 <= MonthFromTime (local_instant w date) + 1 <= 12
  /\ 1 <= DateFromTime (local_instant w date) <= 31
  /\ DayFromYear (YearFromTime (local_instant w date))
     <= Day (local_instant w date)
     < DayFromYear (YearFromTime (local_instant w date) + 1)
  /\ is_date_string (formatDate w date)
     = (1000 <=? YearFromTime (local_instant w date)).
Proof.
  intros Hn Hy.
  pose proof (MonthFromTime_range (local_instant w date)) as Hm.
  pose proof (DateFromTime_range (local_instant w date)) as Hd.
  pose proof (YearFromTime_spec (local_instant w date)) as Hyear.
  rewrite (formatDate_value w date Hn)
    by (change (10 ^ 15) with 1000000000000000; lia).
  set (Y := YearFromTime (local_instant w date)) in *.
  set (M := MonthFromTime (local_instant w date) + 1) in *.
  set (D := DateFromTime (local_instant w date)) in *.
  assert (EM : padStart 2 "0" (decimal M) = two_digits M).
  { rewrite padStart_2. apply zero_padded_decimal.
    change (10 ^ 15) with 1000000000000000. lia. }
  assert (ED : padStart 2 "0" (decimal D) = two_digits D).
  { rewrite padStart_2. apply zero_padded_decimal.
    change (10 ^ 15) with 1000000000000000. lia. }
  destruct (padStart_digits 2 M ltac:(lia)
              ltac:(change (10 ^ Z.of_nat 2) with 100; lia)) as [HMd HMl].
  destruct (padStart_digits 2 D ltac:(lia)
              ltac:(change (10 ^ Z.of_nat 2) with 100; lia)) as [HDd HDl].
  rewrite EM, ED in *.
  split; [reflexivity |]. split; [lia |]. split; [lia |].
  split; [exact Hyear |].
  destruct (Z.leb_spec 1000 Y) as [Hge | Hlt].
  - apply is_date_string_digits; try assumption.
    + apply decimal_digits. lia.
    + apply decimal_length; [lia |].
      change (10 ^ (Z.of_nat 4 - 1)) with 1000.
      change (10 ^ Z.of_nat 4) with 10000. lia.
  - destruct (is_date_string _) eqn:E; [exfalso | reflexivity].
    apply is_date_string_length in E.
    pose proof (decimal_length_le Y 3 ltac:(lia)
                  ltac:(change (10 ^ Z.of_nat 3) with 1000; lia)) as Hl.
    revert E.
    repeat first [rewrite length_append | progress cbn [String.length]].
    rewrite HMl, HDl. lia.
Qed.

Lemma formatDate_shape_witness :
  (time_value (new_Date (Date_now sample_world)) <> NaN
   /\ 0 <= YearFromTime
             (local_instant sample_world (new_Date (Date_now sample_world)))
      <= 9999)
  /\ formatDate sample_world (new_Date (Date_now sample_world))
     = "2026-11-01"
  /\ is_date_string
       (formatDate sample_world (new_Date (Date_now sample_world))) = true.
Proof.
  assert (H1 : time_value (new_Date (Date_now sample_world)) <> NaN)
    by (vm_compute; discriminate).
  assert (H2 : 0 <= YearFromTime
                      (local_instant sample_world
                         (new_Date (Date_now sample_world))) <= 9999)
    by (vm_compute; split; discriminate).
  split; [split; assumption |].
  destruct (formatDate_shape sample_world
              (new_Date (Date_now sample_world)) H1 H2)
    as [E [_ [_ [_ Es]]]].
  split; [rewrite E | rewrite Es]; vm_compute; reflexivity.
Defined.

(** X14.  A day count that is not a number gives an invalid date,
    whatever the other arguments, the seed and the draw; and an invalid
    date is formatted as "NaN-NaN-NaN". *)
Theorem generateDate_NaN_days (x : number) (seed : option number)
  (w : World) :
  fst (generateDate NaN x seed w) = mkDate NaN
  /\ fst (generateDate x NaN seed w) = mkDate NaN
  /\ formatDate w (mkDate NaN) = "NaN-NaN-NaN".
Proof.
  unfold generateDate.
  destruct (call (random_of seed) w) as [[r random'] w']. cbn [fst].
  split; [| split; [| reflexivity]].
  - change (add NaN x) with NaN.
    change (mul (mul (mul (mul NaN (ofZ 24)) (ofZ 60)) (ofZ 60)) (ofZ 1000))
      with NaN.
    replace (sub (Date_now w) NaN) with NaN
      by (destruct (Date_now w); reflexivity).
    reflexivity.
  - replace (add x NaN) with NaN by (destruct x; reflexivity).
    change (mul (mul (mul (mul NaN (ofZ 24)) (ofZ 60)) (ofZ 60)) (ofZ 1000))
      with NaN.
    replace (mul r NaN) with NaN by (destruct r; reflexivity).
    match goal with
    | |- new_Date (add ?a NaN) = _ =>
        replace (add a NaN) with NaN by (destruct a; reflexivity)
    end.
    reflexivity.
Qed.

(** ** The validators *)

(** X15.  The validators accept exactly the documented forms:
    a PIN is "P", nine digits and one letter from A to Z; a TCC is "TCC"
    and six to eight digits; an e-slip is "ESLIP" and nine to twelve
    digits.  Nothing may precede or follow. *)
Theorem validators_accept_exactly (s : string) :
  (validatePINFormat s = true
   <-> exists d c, s = append "P" (append d (String c EmptyString))
                   /\ String.length d = 9%nat /\ all_digits d = true
                   /\ in_class UpperAZ c = true)
  /\ (validateTCCFormat s = true
      <-> exists d, s = append "TCC" d
                    /\ (6 <= String.length d <= 8)%nat
                    /\ all_digits d = true)
  /\ (validateEslipFormat s = true
      <-> exists d, s = append "ESLIP" d
                    /\ (9 <= String.length d <= 12)%nat
                    /\ all_digits d = true).
Proof.
  split; [| split].
  - unfold validatePINFormat. rewrite matches_lit. split.
    + intros [s1 [-> H]].
      apply matches_piece in H as [d [s2 [-> [Ld [Hd H]]]]]; [| lia].
      apply matches_piece in H as [l [s3 [-> [Ll [Hl H]]]]]; [| lia].
      apply matches_end in H. subst s3.
      destruct l as [|c [|c' l]]; cbn in Ll; try lia.
      cbn in Hl. rewrite andb_true_r in Hl.
      exists d, c. rewrite all_class_digits in Hd.
      repeat split; try assumption; lia.
    + intros [d [c [-> [Ld [Hd Hc]]]]].
      exists (append d (String c EmptyString)). split; [reflexivity |].
      apply matches_piece; [lia |]. exists d, (String c EmptyString).
      rewrite all_class_digits. repeat split; try assumption; try lia.
      apply matches_piece; [lia |]. exists (String c EmptyString), EmptyString.
      cbn [append String.length all_class matches at_end].
      rewrite Hc. repeat split; lia.
  - unfold validateTCCFormat. rewrite matches_lit. split.
    + intros [s1 [-> H]].
      apply matches_lit in H as [s2 [-> H]].
      apply matches_lit in H as [s3 [-> H]].
      apply matches_piece in H as [d [s4 [-> [Ld [Hd H]]]]]; [| lia].
      apply matches_end in H. subst s4.
      exists d. rewrite all_class_digits in Hd.
      rewrite ValidFacts.append_nil_r. repeat split; try assumption; lia.
    + intros [d [-> [Ld Hd]]].
      exists (append "CC" d). split; [reflexivity |].
      apply matches_lit. exists (append "C" d). split; [reflexivity |].
      apply matches_lit. exists d. split; [reflexivity |].
      apply matches_piece; [lia |]. exists d, EmptyString.
      rewrite all_class_digits, ValidFacts.append_nil_r.
      repeat split; try assumption; lia.
  - unfold validateEslipFormat. rewrite matches_lit. split.
    + intros [s1 [-> H]].
      apply matches_lit in H as [s2 [-> H]].
      apply matches_lit in H as [s3 [-> H]].
      apply matches_lit in H as [s4 [-> H]].
      apply matches_lit in H as [s5 [-> H]].
      apply matches_piece in H as [d [s6 [-> [Ld [Hd H]]]]]; [| lia].
      apply matches_end in H. subst s6.
      exists d. rewrite all_class_digits in Hd.
      rewrite ValidFacts.append_nil_r. repeat split; try assumption; lia.
    + intros [d [-> [Ld Hd]]].
      exists (append "SLIP" d). split; [reflexivity |].
      apply matches_lit. exists (append "LIP" d). split; [reflexivity |].
      apply matches_lit. exists (append "IP" d). split; [reflexivity |].
      apply matches_lit. exists (append "P" d). split; [reflexivity |].
      apply matches_lit. exists d. split; [reflexivity |].
      apply matches_piece; [lia |]. exists d, EmptyString.
      rewrite all_class_digits, ValidFacts.append_nil_r.
      repeat split; try assumption; lia.
Qed.

(** X16.  The three formats are disjoint and of bounded length: no
    string passes two of the validators; an accepted PIN has 11
    characters, an accepted TCC 9 to 11 and an accepted e-slip 14 to
    17. *)
Theorem validators_disjoint (s : string) :
  validatePINFormat s && validateTCCFormat s = false
  /\ validatePINFormat s && validateEslipFormat s = false
  /\ validateTCCFormat s && validateEslipFormat s = false
  /\ (validatePINFormat s = true -> String.length s = 11%nat)
  /\ (validateTCCFormat s = true -> (9 <= String.length s <= 11)%nat)
  /\ (validateEslipFormat s = true -> (14 <= String.length s <= 17)%nat).
Proof.
  assert (HP : validatePINFormat s = true ->
               exists r, s = String "P" r /\ String.length s = 11%nat).
  { unfold validatePINFormat. intro H.
    apply matches_lit in H as [s1 [-> H]].
    apply matches_piece in H as [d [s2 [-> [Ld [_ H]]]]]; [| lia].
    apply matches_piece in H as [l [s3 [-> [Ll [_ H]]]]]; [| lia].
    apply matches_end in H. subst s3.
    eexists. split; [reflexivity |].
    cbn [String.length]. rewrite !length_append. cbn [String.length]. lia. }
  assert (HT : validateTCCFormat s = true ->
               exists r, s = String "T" r
                         /\ (9 <= String.length s <= 11)%nat).
  { unfold validateTCCFormat. intro H.
    apply matches_lit in H as [s1 [-> H]].
    apply matches_lit in H as [s2 [-> H]].
    apply matches_lit in H as [s3 [-> H]].
    apply matches_piece in H as [d [s4 [-> [Ld [_ H]]]]]; [| lia].
    apply matches_end in H. subst s4.
    eexists. split; [reflexivity |].
    cbn [String.length]. rewrite !length_append. cbn [String.length]. lia. }
  assert (HE : validateEslipFormat s = true ->
               exists r, s = String "E" r
                         /\ (14 <= String.length s <= 17)%nat).
  { unfold validateEslipFormat. intro H.
    apply matches_lit in H as [s1 [-> H]].
    apply matches_lit in H as [s2 [-> H]].
    apply matches_lit in H as [s3 [-> H]].
    apply matches_lit in H as [s4 [-> H]].
    apply matches_lit in H as [s5 [-> H]].
    apply matches_piece in H as [d [s6 [-> [Ld [_ H]]]]]; [| lia].
    apply matches_end in H. subst s6.
    eexists. split; [reflexivity |].
    cbn [String.length]. rewrite !length_append. cbn [String.length]. lia. }
  split; [| split; [| split; [| split; [| split]]]].
  - destruct (validatePINFormat s) eqn:E1, (validateTCCFormat s) eqn:E2;
      try reflexivity.
    destruct (HP eq_refl) as [r1 [-> _]], (HT eq_refl) as [r2 [E _]].
    discriminate E.
  - destruct (validatePINFormat s) eqn:E1, (validateEslipFormat s) eqn:E2;
      try reflexivity.
    destruct (HP eq_refl) as [r1 [-> _]], (HE eq_refl) as [r2 [E _]].
    discriminate E.
  - destruct (validateTCCFormat s) eqn:E1, (validateEslipFormat s) eqn:E2;
      try reflexivity.
    destruct (HT eq_refl) as [r1 [-> _]], (HE eq_refl) as [r2 [E _]].
    discriminate E.
  - intro H. now destruct (HP H) as [r [_ Hl]].
  - intro H. now destruct (HT H) as [r [_ Hl]].
  - intro H. now destruct (HE H) as [r [_ Hl]].
Qed.

(** ** Bulk generation *)

(** X17.  As long as [Math.random] returns numbers of [0, 1), every
    element of what [generatePINs], [generateTCCs] and [generateEslips]
    return, for any count and in either mode, passes the validator of its
    kind. *)
Theorem bulk_elements_valid (fuel : nat) (count : number) (unique : bool)
  (w : World) (l : list string) :
  fair_platform w ->
  (option_map fst (generatePINs fuel count unique w) = Some (Returned l) ->
   Forall (fun s => validatePINFormat s = true) l)
  /\ (option_map fst (generateTCCs fuel count unique w) = Some (Returned l) ->
      Forall (fun s => validateTCCFormat s = true) l)
  /\ (option_map fst (generateEslips fuel count unique w)
      = Some (Returned l) ->
      Forall (fun s => validateEslipFormat s = true) l).
Proof.
  intro Hw. split; [| split]; intro H.
  - unfold generatePINs in H.
    destruct (generateMany (generatePIN None) fuel count unique w)
      as [[c w'] |] eqn:E; [| discriminate H].
    cbn [option_map fst] in H. injection H as ->.
    exact (proj1 (generateMany_all (generatePIN None) fair_platform _
                    fair_after_PIN fair_PIN_valid fuel count unique w w' l
                    Hw E)).
  - unfold generateTCCs in H.
    destruct (generateMany (generateTCC None) fuel count unique w)
      as [[c w'] |] eqn:E; [| discriminate H].
    cbn [option_map fst] in H. injection H as ->.
    exact (proj1 (generateMany_all (generateTCC None) fair_platform _
                    fair_after_TCC fair_TCC_valid fuel count unique w w' l
                    Hw E)).
  - unfold generateEslips in H.
    destruct (generateMany (generateEslip None) fuel count unique w)
      as [[c w'] |] eqn:E; [| discriminate H].
    cbn [option_map fst] in H. injection H as ->.
    exact (proj1 (generateMany_all (generateEslip None) fair_platform _
                    fair_after_Eslip fair_Eslip_valid fuel count unique w
                    w' l Hw E)).
Qed.

Lemma bulk_elements_valid_witness :
  (fair_platform stuck_world
   /\ option_map fst (generatePINs 0 (ofZ 2) false stuck_world)
      = Some (Returned ["P550000000N"; "P550000000N"]))
  /\ Forall (fun s => validatePINFormat s = true)
       ["P550000000N"; "P550000000N"].
Proof.
  assert (H : fair_platform stuck_world)
    by (intro n; split; vm_compute; reflexivity).
  assert (E : option_map fst (generatePINs 0 (ofZ 2) false stuck_world)
              = Some (Returned ["P550000000N"; "P550000000N"]))
    by (vm_compute; reflexivity).
  split; [split; assumption |].
  exact (proj1 (bulk_elements_valid 0 (ofZ 2) false stuck_world _ H) E).
Defined.

(** X18.  A TCC has six digits, so there are at most a million of them:
    asked for more than a million distinct TCCs -- a count above 1000000,
    an integer of any size or any other number, [Infinity] included --
    the loop of [generateTCCs(count, true)] never ends, however long it
    runs. *)
Theorem generateTCCs_unique_exhausts (fuel : nat) (count : number)
  (w : World) :
  fair_platform w ->
  (ltb (ofZ 1000000) count = true
   \/ exists n : Z, 1000000 < n /\ count = ofZ n) ->
  generateTCCs fuel count true w = None.
Proof.
  intros Hw Hn.
  assert (Hc : ltb (ofZ 1000000) count = true).
  { destruct Hn as [H | [n [Hn ->]]]; [exact H |].
    rewrite compare_size
      by (change (2 ^ 53) with 9007199254740992; lia).
    apply Z.ltb_lt. exact Hn. }
  unfold generateTCCs, generateMany. cbn [negb].
  rewrite (fill_set_stuck (generateTCC None) fair_platform fair_after_TCC
             (map (append "TCC") (digit_words 6))); [reflexivity | | | | |].
  - intros w0 Hw0. destruct (fair_TCC_shape w0 Hw0) as [-> [Hd Hl]].
    apply in_map. now apply digit_words_complete.
  - intros k Hk. rewrite length_map, digit_words_length in Hk.
    assert (Hk' : Z.of_nat k <= 1000000).
    { apply Nat2Z.inj_le in Hk. rewrite Nat2Z.inj_pow in Hk.
      change (Z.of_nat 10 ^ Z.of_nat 6) with 1000000 in Hk. exact Hk. }
    apply (ltb_ofZ_trans (Z.of_nat k) 1000000 count);
      [lia | reflexivity | exact Hc].
  - exact Hw.
  - constructor.
  - intros x [].
Qed.

Lemma generateTCCs_unique_exhausts_witness :
  (fair_platform stuck_world
   /\ (ltb (ofZ 1000000) (ofZ 1000001) = true
       \/ exists n : Z, 1000000 < n /\ ofZ 1000001 = ofZ n))
  /\ generateTCCs 50 (ofZ 1000001) true stuck_world = None.
Proof.
  assert (H : fair_platform stuck_world)
    by (intro n; split; vm_compute; reflexivity).
  assert (H' : ltb (ofZ 1000000) (ofZ 1000001) = true
               \/ exists n : Z, 1000000 < n /\ ofZ 1000001 = ofZ n)
    by (left; vm_compute; reflexivity).
  split; [split; assumption |].
  exact (generateTCCs_unique_exhausts 50 (ofZ 1000001) stuck_world H H').
Defined.

(** X19.  For every integer seed from -5 on (small enough for the state
    to be computed exactly) the PIN, the TCC and the e-slip generated
    from the seed pass their validators. *)
Theorem seeded_generated_valid (s : Z) (w : World) :
  -5 <= s -> s * 9301 + 49297 < 2 ^ 53 ->
  validatePINFormat (fst (generatePIN (Some (ofZ s)) w)) = true
  /\ validateTCCFormat (fst (generateTCC (Some (ofZ s)) w)) = true
  /\ validateEslipFormat (fst (generateEslip (Some (ofZ s)) w)) = true.
Proof. exact (generated_valid_on_seed s w). Qed.

Lemma seeded_generated_valid_witness :
  (-5 <= -5 /\ -5 * 9301 + 49297 < 2 ^ 53)
  /\ validatePINFormat (fst (generatePIN (Some (ofZ (-5))) sample_world))
     = true.
Proof.
  split; [lia |].
  apply (seeded_generated_valid (-5) sample_world); lia.
Defined.

(** ** Tax periods *)

(** X20.  With a clock within the range of time values, a local year
    [Y], a whole number [ya] of years ago with [1000 <= Y - ya] and
    [Y <= 9999], and a month from 1 to 12, given or drawn,
    [generateTaxPeriod] returns six digits: the four of the year
    [Y - ya] and the two of the month, padded with a zero. *)
Theorem generateTaxPeriod_format (ya : Z) (month : option Z) (w : World) :
  0 < now_ms w <= 8640000000000000 ->
  unit_number (entropy w (drawn w)) ->
  0 <= ya ->
  1000 <= YearFromTime (now_ms w + localTZA w (now_ms w)) - ya ->
  YearFromTime (now_ms w + localTZA w (now_ms w)) <= 9999 ->
  (forall m, month = Some m -> 1 <= m <= 12) ->
  exists k,
    1 <= k <= 12 /\ (forall m, month = Some m -> k = m)
    /\ fst (generateTaxPeriod (ofZ ya) (option_map ofZ month) w)
       = append
           (decimal (YearFromTime (now_ms w + localTZA w (now_ms w)) - ya))
           (padStart 2 "0" (decimal k))
    /\ all_digits (fst (generateTaxPeriod (ofZ ya) (option_map ofZ month) w))
       = true
    /\ String.length
         (fst (generateTaxPeriod (ofZ ya) (option_map ofZ month) w))
       = 6%nat.
Proof.
  intros Hnow [Hv Hu] Hya Hlo Hhi Hmonth.
  set (Y := YearFromTime (now_ms w + localTZA w (now_ms w))) in *.
  assert (Eyear : Number_toString (sub (current_year w) (ofZ ya))
                  = decimal (Y - ya)).
  { rewrite current_year_value by exact Hnow. fold Y.
    rewrite sub_natural
      by (change (2 ^ 53) with 9007199254740992; lia).
    apply toString_natural. change (10 ^ 15) with 1000000000000000. lia. }
  assert (Hshape : forall k, 1 <= k <= 12 ->
            all_digits (append (decimal (Y - ya))
                          (padStart 2 "0" (decimal k))) = true
            /\ String.length (append (decimal (Y - ya))
                                (padStart 2 "0" (decimal k))) = 6%nat).
  { intros k Hk.
    destruct (padStart_digits 2 k ltac:(lia)
                ltac:(change (10 ^ Z.of_nat 2) with 100; lia)) as [Hd Hl].
    rewrite all_digits_append, length_append, Hd, Hl,
      decimal_digits by lia.
    rewrite (decimal_length (Y - ya) 4); [split; reflexivity | lia |].
    change (10 ^ (Z.of_nat 4 - 1)) with 1000.
    change (10 ^ Z.of_nat 4) with 10000. lia. }
  assert (Hrandom : forall mo,
            (mo = None \/ mo = Some (ofZ 0)) ->
            exists k, 1 <= k <= 12
              /\ fst (generateTaxPeriod (ofZ ya) mo w)
                 = append (decimal (Y - ya)) (padStart 2 "0" (decimal k))).
  { intros mo Hmo.
    destruct (random_month _ Hv Hu) as [k [Hk Ek]].
    exists k. split; [exact Hk |].
    unfold generateTaxPeriod, Math_random.
    fold (current_year w).
    destruct Hmo as [-> | ->];
      [| change (truthy (ofZ 0)) with false; cbv iota];
      cbn [fst]; rewrite Ek, Eyear;
      (rewrite toString_natural
         by (change (10 ^ 15) with 1000000000000000; lia));
      reflexivity. }
  destruct month as [m |].
  - specialize (Hmonth m eq_refl).
    exists m. split; [exact Hmonth |]. split; [congruence |].
    assert (E : fst (generateTaxPeriod (ofZ ya) (Some (ofZ m)) w)
                = append (decimal (Y - ya)) (padStart 2 "0" (decimal m))).
    { unfold generateTaxPeriod. fold (current_year w).
      destruct (ofZ_positive m
                  ltac:(change (2 ^ 53) with 9007199254740992; lia))
        as [mm [e Em]].
      replace (truthy (ofZ m)) with true by (rewrite Em; reflexivity).
      cbn [fst]. rewrite Eyear.
      rewrite toString_natural
        by (change (10 ^ 15) with 1000000000000000; lia).
      reflexivity. }
    cbn [option_map]. rewrite E. split; [reflexivity |].
    exact (Hshape m Hmonth).
  - destruct (Hrandom None (or_introl eq_refl)) as [k [Hk E]].
    exists k. split; [exact Hk |]. split; [discriminate |].
    cbn [option_map]. rewrite E. split; [reflexivity |].
    exact (Hshape k Hk).
Qed.

Lemma generateTaxPeriod_format_witness :
  (0 < now_ms sample_world <= 8640000000000000
   /\ unit_number (entropy sample_world (drawn sample_world))
   /\ 0 <= 1
   /\ 1000 <= YearFromTime
                 (now_ms sample_world
                  + localTZA sample_world (now_ms sample_world)) - 1
   /\ YearFromTime
        (now_ms sample_world + localTZA sample_world (now_ms sample_world))
      <= 9999)
  /\ String.length
       (fst (generateTaxPeriod (ofZ 1) (option_map ofZ (Some 7))
               sample_world)) = 6%nat.
Proof.
  assert (H1 : 0 < now_ms sample_world <= 8640000000000000)
    by (vm_compute; split; [reflexivity | discriminate]).
  assert (H2 : unit_number (entropy sample_world (drawn sample_world)))
    by (split; vm_compute; reflexivity).
  assert (H3 : 1000 <= YearFromTime
                         (now_ms sample_world
                          + localTZA sample_world (now_ms sample_world)) - 1)
    by (vm_compute; discriminate).
  assert (H4 : YearFromTime
                 (now_ms sample_world
                  + localTZA sample_world (now_ms sample_world)) <= 9999)
    by (vm_compute; discriminate).
  split; [split; [exact H1 | split; [exact H2 | split;
            [lia | split; [exact H3 | exact H4]]]] |].
  destruct (generateTaxPeriod_format 1 (Some 7) sample_world H1 H2
              ltac:(lia) H3 H4
              ltac:(intros m E; injection E as <-; lia))
    as [k [_ [_ [_ [_ Hl]]]]].
  exact Hl.
Defined.

(** ** The digits shared by the PIN and the e-slip of a seed *)

(** X21.  When the first two numbers of the seeded generator are numbers
    of [0, 1), the PIN of a seed is "P", nine digits and a letter from A
    to Z, and the e-slip of the same seed is "ESLIP" followed by the same
    nine digits. *)
Theorem pin_and_eslip_share_nine_digits (s : number) (w w' : World) :
  unit_draws 2 (seededRandom s) w ->
  exists d c,
    all_digits d = true /\ String.length d = 9%nat
    /\ in_class UpperAZ c = true
    /\ fst (generatePIN (Some s) w)
       = append "P" (append d (String c EmptyString))
    /\ fst (generateEslip (Some s) w') = append "ESLIP" d.
Proof.
  intro H.
  destruct (H 0%nat ltac:(lia)) as [Hv0 Hu0].
  destruct (H 1%nat ltac:(lia)) as [Hv1 Hu1].
  unfold seededRandom in Hv0, Hu0, Hv1, Hu1.
  rewrite nth_draw_seeded in Hv0, Hu0, Hv1, Hu1.
  rewrite generatePIN_seeded, generateEslip_seeded. cbn [fst].
  destruct (ValidFacts.pin_digits_nine _ Hv0 Hu0) as [Hd Hl].
  destruct (pin_letter_upper _ Hv1 Hu1) as [c [Ec Hc]].
  exists (pin_digits (emitted s 0)), c. rewrite Ec.
  repeat split; assumption.
Qed.

Lemma pin_and_eslip_share_nine_digits_witness :
  unit_draws 2 (seededRandom (ofZ 12345)) sample_world
  /\ exists d c,
       all_digits d = true /\ String.length d = 9%nat
       /\ in_class UpperAZ c = true
       /\ fst (generatePIN (Some (ofZ 12345)) sample_world)
          = append "P" (append d (String c EmptyString))
       /\ fst (generateEslip (Some (ofZ 12345)) sample_world)
          = append "ESLIP" d.
Proof.
  assert (H : unit_draws 2 (seededRandom (ofZ 12345)) sample_world).
  { intros n Hn. destruct n as [|[|n]]; [| | lia];
      split; vm_compute; reflexivity. }
  split; [exact H |].
  exact (pin_and_eslip_share_nine_digits (ofZ 12345) sample_world
           sample_world H).
Defined.
